(** * KASBOT: the order-lifecycle controller of the KAS/USDT trading bot

    A shallow embedding of [KASBOT.py] and the properties of its
    specification.

    Conventions of the embedding.

    - Numbers.  Prices, amounts, balances and the profit counter are Python
      floats in the source, that is binary64 numbers.  A finite binary64
      number is carried here by the rational it denotes, in canonical form
      ([Qc]), so that comparisons are those of the rationals and numeric
      equality is Leibniz equality.  The four arithmetic operations are
      those of binary64, each result rounded to the nearest representable
      number, ties to even ([fadd], [fsub], [fmul], [fdiv], computed with
      the reference implementation of the standard library, [SpecFloat]);
      a division by zero raises.  The infinities and NaN have no
      counterpart: the model is about runs whose numbers stay finite.  The
      one subtraction of [get_current_price] is of two readings of the
      same clock, which are within a factor of two of each other: it is
      exact on binary64 and is written as such.
    - Orders.  An order is the dict
      [{'id', 'amount', 'price', 'buy_price', 'order_type'}] built by
      [create_new_order]; it is a record here, so the defaults of
      [order.get(...)] for absent keys never apply.  The dicts are shared
      between the lists that hold them: where the source assigns to
      ['order_type'] of an order of one list and goes on with another list
      that holds the same order, the assignment shows there too.
    - Globals.  The module-level variables [insufficient_funds_notified] and
      [trading_stopped], the notification queue and the state file live in a
      [World] that every function threads through a state monad.  The world
      also keeps two logs that the source does not have, for stating what
      happened: the dicts dumped to the file and the calls of
      [create_new_order].
    - File.  The state file is modelled by what [json.load] makes of its
      content: a dict with some of the four keys of the state, a value that
      is not an object, or text that does not parse.  [json.dump] followed by
      [json.load] is taken to give the dumped dict back, and a [json.dump]
      that is reached is taken to succeed.
    - Exchange.  The answers of the remote exchange are inputs: an
      environment record gives, for each call site, what the exchange
      replies or the exception that the call ends with.  Network errors of
      the price and balance reads are retried by [retry_on_network_error]
      until an answer arrives, so an environment only holds final answers.
    - Exceptions.  A function that can raise returns an [ending]: the value
      it returns, or the exception.  [create_new_order] raises when a read
      fails, when the price or a figure of the purchase is [None], and when
      the price is zero; [check_orders] catches what it raises (lines
      397-399), [run_bot] does not, and its loop ends there.  The [except]
      arm of [check_orders] around the thread pool (lines 308-310) has no
      counterpart.
    - Threads.  Only the thread of [run_bot] is modelled; the notification
      sender and the Telegram handlers appear as separate functions.
    - Time.  [time.sleep] has no counterpart, and the functions of the bot
      take the price that [get_current_price] returns from the
      environment; the price cache is modelled on its own. *)

From Stdlib Require Import List String ZArith QArith Qcanon Bool Arith Lia.
From Stdlib Require Import Sorting.Sorted Sorting.Permutation.
From Stdlib Require Import Classes.RelationClasses.
From Stdlib Require SpecFloat PrimFloat FloatOps.
Import ListNotations.

Local Open Scope string_scope.
Local Open Scope list_scope.
Local Open Scope Qc_scope.

(** ** Numbers *)

Definition Qc_leb (x y : Qc) : bool := Qle_bool x y.
Definition Qc_ltb (x y : Qc) : bool := negb (Qc_leb y x).
Definition Qc_eqb (x y : Qc) : bool := Qc_eq_bool x y.

(** *** binary64

    [to_double q] is the binary64 number that the rational [q] stands for:
    [q] itself when it is one, and otherwise the number nearest to it (the
    way Python reads a decimal literal, for numerators and denominators
    below 2^53).  [of_double] gives the rational back. *)

Definition prec : Z := 53.
Definition emax : Z := 1024.

Definition double_of_Z (z : Z) : SpecFloat.spec_float :=
  SpecFloat.binary_normalize prec emax z 0 false.

Definition to_double (q : Qc) : SpecFloat.spec_float :=
  let n := Qnum q in
  let d := Zpos (Qden q) in
  let k := Z.log2 d in
  if (2 ^ k =? d)%Z then SpecFloat.binary_normalize prec emax n (- k) false
  else SpecFloat.SFdiv prec emax (double_of_Z n) (double_of_Z d).

Definition of_double (x : SpecFloat.spec_float) : Qc :=
  match x with
  | SpecFloat.S754_finite s m e =>
      Q2Qc (inject_Z (if s then Zneg m else Zpos m) * Qpower 2 e)
  | _ => 0
  end.

(** [x + y], [x - y], [x * y] and [x / y] (for [y] other than zero) on
    floats. *)
Definition fadd (x y : Qc) : Qc :=
  of_double (SpecFloat.SFadd prec emax (to_double x) (to_double y)).
Definition fsub (x y : Qc) : Qc :=
  of_double (SpecFloat.SFsub prec emax (to_double x) (to_double y)).
Definition fmul (x y : Qc) : Qc :=
  of_double (SpecFloat.SFmul prec emax (to_double x) (to_double y)).
Definition fdiv (x y : Qc) : Qc :=
  of_double (SpecFloat.SFdiv prec emax (to_double x) (to_double y)).

Arguments fadd : simpl never.
Arguments fsub : simpl never.
Arguments fmul : simpl never.
Arguments fdiv : simpl never.

(** The decimal literal [n/d], as Python reads it. *)
Definition decimal (n : Z) (d : positive) : Qc := of_double (to_double (Q2Qc (n # d))).

Arguments decimal : simpl never.

(** ** Configuration (lines 34-38) *)

Definition profit_percent : Qc := fdiv (Q2Qc (1 # 2)) (Q2Qc 100).   (* 0.5 / 100 *)
Definition drop_percent : Qc := fdiv 1 (Q2Qc 100).                  (* 1 / 100 *)
Definition order_size : Qc := Q2Qc 15.

(** [symbol.split('/')[1]] for the only symbol the bot is started with,
    ["KAS/USDT"]. *)
Definition base_currency : string := "USDT".

(** ** Orders *)

Record Order := mkOrder {
  id : string;
  amount : Qc;
  price : Qc;
  buy_price : Qc;
  order_type : string
}.

(** [order['order_type'] = t] *)
Definition set_order_type (t : string) (o : Order) : Order :=
  mkOrder (id o) (amount o) (price o) (buy_price o) t.

(** [order.get('order_type') == 'autobay'] *)
Definition is_autobay (o : Order) : bool := String.eqb (order_type o) "autobay".

Definition autobay_count (l : list Order) : nat := List.length (filter is_autobay l).

(** ** [list.sort(key=lambda x: x.get('price', float('inf')))]

    Python's sort is stable; a stable sort by a total preorder has one
    possible result, computed here by insertion. *)

Fixpoint insert_by_price (o : Order) (l : list Order) : list Order :=
  match l with
  | [] => [o]
  | x :: rest =>
      if Qc_leb (price o) (price x) then o :: l
      else x :: insert_by_price o rest
  end.

Fixpoint sort_by_price (l : list Order) : list Order :=
  match l with
  | [] => []
  | o :: rest => insert_by_price o (sort_by_price rest)
  end.

(** The collection is "sorted ascending by price". *)
Definition price_le (a b : Order) : Prop := price a <= price b.
Definition price_sorted (l : list Order) : Prop := StronglySorted price_le l.

Fixpoint price_sortedb (l : list Order) : bool :=
  match l with
  | [] => true
  | o :: rest => forallb (fun x => Qc_leb (price o) (price x)) rest && price_sortedb rest
  end.

(** "Equal-priced orders in insertion order": at every price, the orders of
    that price come in the order they had in [l]. *)
Definition same_order_at_equal_price (l sorted : list Order) : Prop :=
  forall p : Qc,
    filter (fun o => Qc_eqb (price o) p) sorted
    = filter (fun o => Qc_eqb (price o) p) l.

(** ** Notifications

    One constructor for each message that [save_notification] is given; the
    arguments are the values the f-string prints. *)

Inductive notification :=
| InsufficientFundsMsg (currency : string) (available_balance : Qc)
    (* "[ERROR] Недостаточно средств ({base_currency}): {available_balance:.2f} USDT" *)
| BuyInsufficientFundsMsg       (* "[ERROR] Недостаточно средств для покупки" *)
| SellInsufficientFundsMsg      (* "[ERROR] Недостаточно средств для продажи" *)
| OrderNotFoundMsg              (* "[ERROR] Ордер не найден" *)
| BuyErrorMsg (e : string)      (* "[ERROR] Ошибка покупки: {e}" *)
| SellErrorMsg (e : string)     (* "[ERROR] Ошибка продажи: {e}" *)
| BoughtMsg (bought_amount actual_buy_price sell_price : Qc)
    (* "[BUY] КУПЛЕНО ... [SELL] ВЫСТАВЛЕНО ..." *)
| SellFailedMsg                 (* "[ERROR] Не удалось создать ордер на продажу." *)
| CheckStartedMsg               (* "[CHECK] Проверка статуса ранее созданных ордеров..." *)
| ExecutedMsg (o : Order) (profit : Qc)   (* "Ордер выполнен! ..." *)
| CanceledMsg (order_id : string)         (* "[CANCEL] Ордер {id} отменен." *)
| CheckFinishedMsg              (* "Проверка ранее созданных ордеров завершена." *)
| StoppedMsg (order_id : string)
    (* "[STOP] Трейдинг остановлен. Ордер {id} переведен в 'bay'." *)
| NoAutobayMsg                  (* "[STOP] Ордеров 'autobay' нет." *)
| BayCreatedMsg.                (* "[BUY] Создан ордер 'bay'." *)

(** ** The state file

    [bot_state.json] holds the dict that [save_state] dumps.  A dict read
    back by [json.load] may lack keys ([load_state] reads it with
    [state.get(key, default)]), so every key is optional. *)

Record StateDict := mkStateDict {
  d_active_orders : option (list Order);
  d_executed_orders_count : option Z;
  d_total_profit : option Qc;
  d_trading_stopped : option bool
}.

(** [{}] *)
Definition empty_dict : StateDict := mkStateDict None None None None.

Inductive file_content :=
| Unparseable                 (* [json.load] raises [JSONDecodeError] *)
| NotAnObject                 (* valid JSON, but not an object *)
| Object (d : StateDict).

Definition Order_eq_dec (a b : Order) : {a = b} + {a <> b}.
Proof.
  decide equality; try apply string_dec; apply Qc_eq_dec.
Defined.

Definition StateDict_eq_dec (a b : StateDict) : {a = b} + {a <> b}.
Proof.
  decide equality.
  - decide equality. apply bool_dec.
  - decide equality. apply Qc_eq_dec.
  - decide equality. apply Z.eq_dec.
  - decide equality. apply list_eq_dec, Order_eq_dec.
Defined.

(** ** The world: globals, notification queue, state file *)

Record World := mkWorld {
  insufficient_funds_notified : bool;
  trading_stopped : bool;
  notification_queue : list notification;   (* every message put, oldest first *)
  state_file : option file_content;         (* [None]: the file does not exist *)
  writes : list StateDict;                  (* ghost: every dict dumped to the file, oldest first *)
  creations : list string                   (* ghost: [order_type] of every call of [create_new_order] *)
}.

(** The module-level initial values (lines 41-45) over a given file. *)
Definition initial_world (file : option file_content) : World :=
  mkWorld false false [] file [] [].

(** The triple [(active_orders, executed_orders_count, total_profit)] that
    the functions of the bot take and return. *)
Record Book := mkBook {
  active_orders : list Order;
  executed_orders_count : Z;
  total_profit : Qc
}.

(** ** The state monad of the bot *)

Definition M (A : Type) : Type := World -> A * World.

Definition ret {A} (a : A) : M A := fun w => (a, w).

Definition bind {A B} (m : M A) (k : A -> M B) : M B :=
  fun w => let (a, w') := m w in k a w'.

Declare Scope bot_scope.
Delimit Scope bot_scope with bot.
Notation "x <- m ;; k" := (bind m (fun x => k))
  (at level 61, m at next level, right associativity) : bot_scope.
Notation "m ;; k" := (bind m (fun _ => k))
  (at level 61, right associativity) : bot_scope.
Local Open Scope bot_scope.

(** Final world and result of a computation. *)
Definition exec {A} (m : M A) (w : World) : World := snd (m w).
Definition eval {A} (m : M A) (w : World) : A := fst (m w).

(** Reading a global. *)
Definition get {A} (f : World -> A) : M A := fun w => (f w, w).

Definition set_insufficient_funds_notified (b : bool) : M unit :=
  fun w => (tt, mkWorld b (trading_stopped w) (notification_queue w)
                        (state_file w) (writes w) (creations w)).

Definition set_trading_stopped (b : bool) : M unit :=
  fun w => (tt, mkWorld (insufficient_funds_notified w) b (notification_queue w)
                        (state_file w) (writes w) (creations w)).

(** [save_notification] (lines 170-172): [notification_queue.put]. *)
Definition save_notification (n : notification) : M unit :=
  fun w => (tt, mkWorld (insufficient_funds_notified w) (trading_stopped w)
                        (notification_queue w ++ [n])
                        (state_file w) (writes w) (creations w)).

(** [json.dump(new_state, f)] on the file opened for writing. *)
Definition json_dump (d : StateDict) : M unit :=
  fun w => (tt, mkWorld (insufficient_funds_notified w) (trading_stopped w)
                        (notification_queue w)
                        (Some (Object d)) (writes w ++ [d]) (creations w)).

Definition record_creation (order_type : string) : M unit :=
  fun w => (tt, mkWorld (insufficient_funds_notified w) (trading_stopped w)
                        (notification_queue w)
                        (state_file w) (writes w) (creations w ++ [order_type])).

(** ** State persistence (lines 113-167) *)

Definition is_empty {A} (l : list A) : bool :=
  match l with [] => true | _ => false end.

(** What [save_state] compares the new state with: the parsed file, or [{}]
    when the file is absent or unparseable.  A parsed value that is not an
    object equals no dict. *)
Definition read_current_state (file : option file_content) : option StateDict :=
  match file with
  | None => Some empty_dict
  | Some Unparseable => Some empty_dict
  | Some NotAnObject => None
  | Some (Object d) => Some d
  end.

Definition same_state (current_state : option StateDict) (new_state : StateDict) : bool :=
  match current_state with
  | Some d => if StateDict_eq_dec d new_state then true else false
  | None => false
  end.

Definition save_state (active_orders : list Order) (executed_orders_count : Z)
    (total_profit : Qc) : M unit :=
  stopped <- get trading_stopped ;;
  if is_empty active_orders && (executed_orders_count =? 0)%Z
     && Qc_eqb total_profit 0 && negb stopped
  then ret tt
  else
    let new_state := mkStateDict (Some active_orders) (Some executed_orders_count)
                                 (Some total_profit) (Some stopped) in
    file <- get state_file ;;
    if same_state (read_current_state file) new_state then ret tt
    else json_dump new_state.

Definition save_book (b : Book) : M unit :=
  save_state (active_orders b) (executed_orders_count b) (total_profit b).

Definition get_default {A} (o : option A) (default : A) : A :=
  match o with Some a => a | None => default end.

Definition load_state : M Book :=
  file <- get state_file ;;
  match file with
  | Some (Object state) =>
      set_trading_stopped (get_default (d_trading_stopped state) false) ;;
      ret (mkBook (get_default (d_active_orders state) [])
                  (get_default (d_executed_orders_count state) 0%Z)
                  (get_default (d_total_profit state) 0))
  | Some Unparseable => ret (mkBook [] 0%Z 0)    (* except json.JSONDecodeError *)
  | Some NotAnObject => ret (mkBook [] 0%Z 0)    (* except Exception *)
  | None =>
      set_trading_stopped false ;;
      ret (mkBook [] 0%Z 0)
  end.

(** ** The exchange, as the bot sees it *)

(** How a call that may raise ends. *)
Inductive read (A : Type) :=
| Value (a : A)
| Fails (e : string).
Arguments Value {A} a.
Arguments Fails {A} e.

(** How one attempt at placing an order ends (the arms of the [try] in
    [create_buy_order] and [create_sell_order]). *)
Inductive attempt (A : Type) :=
| Placed (a : A)
| InsufficientFunds
| RateLimitExceeded
| OrderNotFound
| OtherError (e : string).
Arguments Placed {A} a.
Arguments InsufficientFunds {A}.
Arguments RateLimitExceeded {A}.
Arguments OrderNotFound {A}.
Arguments OtherError {A} e.

(** What [create_buy_order] returns of a market buy: [order['amount']] and
    the ['average'] of the order fetched after it.  The exchange may leave
    either at [None]. *)
Record Purchase := mkPurchase {
  purchase_amount : option Qc;
  purchase_average : option Qc
}.

(** What the exchange answers during one run of [create_new_order]. *)
Record CreateEnv := mkCreateEnv {
  load_markets : read unit;              (* [exchange.load_markets()] *)
  ticker_last : read (option Qc);        (* [get_current_price]; [None]: no last price *)
  free_balance : read (option Qc);       (* [get_available_balance] *)
  market_buy : Qc -> nat -> attempt Purchase;
    (* [create_market_buy_order(symbol, amount)] and the [fetch_order] after
       it, at the n-th attempt *)
  limit_sell : Qc -> Qc -> nat -> attempt string
    (* [create_limit_sell_order(symbol, amount, price)] at the n-th attempt:
       the id of the sell order *)
}.

(** How a function that may raise ends: [return a], or an exception. *)
Inductive ending (A : Type) :=
| Return (a : A)
| Raise (e : string).
Arguments Return {A} a.
Arguments Raise {A} e.

(** ** Order creation (lines 188-289) *)

(** [for attempt in range(3)] of [create_buy_order]. *)
Fixpoint buy_attempts (reply : nat -> attempt Purchase) (attempts : list nat)
    : M (option Purchase) :=
  match attempts with
  | [] => ret None
  | n :: rest =>
      match reply n with
      | Placed purchase =>
          set_insufficient_funds_notified false ;;
          ret (Some purchase)
      | InsufficientFunds =>
          notified <- get insufficient_funds_notified ;;
          (if notified then ret tt
           else save_notification BuyInsufficientFundsMsg ;;
                set_insufficient_funds_notified true) ;;
          ret None
      | RateLimitExceeded => buy_attempts reply rest
      | OrderNotFound => save_notification OrderNotFoundMsg ;; ret None
      | OtherError e => save_notification (BuyErrorMsg e) ;; ret None
      end
  end.

Definition create_buy_order (env : CreateEnv) (amount : Qc) : M (option Purchase) :=
  buy_attempts (market_buy env amount) (seq 0 3).

(** [for attempt in range(3)] of [create_sell_order]. *)
Fixpoint sell_attempts (reply : nat -> attempt string) (attempts : list nat)
    : M (option string) :=
  match attempts with
  | [] => ret None
  | n :: rest =>
      match reply n with
      | Placed sell_id =>
          set_insufficient_funds_notified false ;;
          ret (Some sell_id)
      | InsufficientFunds =>
          notified <- get insufficient_funds_notified ;;
          (if notified then ret tt
           else save_notification SellInsufficientFundsMsg ;;
                set_insufficient_funds_notified true) ;;
          ret None
      | RateLimitExceeded => sell_attempts reply rest
      | OrderNotFound => save_notification OrderNotFoundMsg ;; ret None
      | OtherError e => save_notification (SellErrorMsg e) ;; ret None
      end
  end.

Definition create_sell_order (env : CreateEnv) (amount price : Qc)
    : M (option string) :=
  sell_attempts (limit_sell env amount price) (seq 0 3).

(** The edge-triggered notification of lines 255-259 and 462-466. *)
Definition notify_insufficient_funds (available_balance : Qc) : M unit :=
  notified <- get insufficient_funds_notified ;;
  if notified then ret tt
  else save_notification (InsufficientFundsMsg base_currency available_balance) ;;
       set_insufficient_funds_notified true.

(** Lines 264-289 of [create_new_order], once the buy is placed. *)
Definition sell_bought (env : CreateEnv) (book : Book) (order_type : string)
    (buy_order : Purchase) : M (ending Book) :=
  match purchase_average buy_order with
  | None => ret (Raise "TypeError")                     (* None * float, line 265 *)
  | Some actual_buy_price =>
      let sell_price := fmul actual_buy_price (fadd 1 profit_percent) in
      match purchase_amount buy_order with
      | None => ret (Raise "TypeError")                 (* format of None, line 267 *)
      | Some bought_amount =>
          save_notification (BoughtMsg bought_amount actual_buy_price sell_price) ;;
          sell_order <- create_sell_order env bought_amount sell_price ;;
          match sell_order with
          | Some sell_id =>
              ret (Return
                     (mkBook (active_orders book
                                ++ [mkOrder sell_id bought_amount sell_price
                                            actual_buy_price order_type])
                             (executed_orders_count book) (total_profit book)))
          | None =>
              save_notification SellFailedMsg ;;
              ret (Return book)
          end
      end
  end.

(** [create_new_order] (lines 247-289).  [amount] is what the bot asks the
    exchange to buy, [bought_amount] what the exchange reports. *)
Definition create_new_order (env : CreateEnv) (book : Book) (order_type : string)
    : M (ending Book) :=
  record_creation order_type ;;
  match load_markets env with
  | Fails e => ret (Raise e)
  | Value _ =>
      match ticker_last env with
      | Fails e => ret (Raise e)
      | Value current_price =>
          match free_balance env with
          | Fails e => ret (Raise e)
          | Value None => ret (Raise "TypeError")       (* None < int, line 254 *)
          | Value (Some available_balance) =>
              if Qc_ltb available_balance order_size then
                notify_insufficient_funds available_balance ;;
                ret (Return book)
              else
                set_insufficient_funds_notified false ;;
                match current_price with
                | None => ret (Raise "TypeError")       (* int / None, line 263 *)
                | Some current_price =>
                    if Qc_eqb current_price 0 then ret (Raise "ZeroDivisionError")
                    else
                      let amount := fdiv order_size current_price in
                      bought <- create_buy_order env amount ;;
                      match bought with
                      | None => ret (Return book)
                      | Some buy_order => sell_bought env book order_type buy_order
                      end
                end
          end
      end
  end.

(** ** Status reconciliation (lines 291-399) *)

(** What the exchange answers during one run of [check_orders]:
    [fetch_order] maps an order id to the ['status'] of the reply, or to
    [None] when the poll raises (the [except] of [fetch_order_status]). *)
Record CheckEnv := mkCheckEnv {
  fetch_order : string -> option string;
  on_create : CreateEnv
}.

(** The lists and flags that the loop of lines 319-334 fills. *)
Record Partition := mkPartition {
  updated_orders : list Order;
  closed_orders : list Order;
  canceled_orders : list Order;
  autobay_needed : bool;
  flagautobay : nat
}.

Fixpoint classify (fetch : string -> option string) (orders : list Order)
    : Partition :=
  match orders with
  | [] => mkPartition [] [] [] false 0
  | order :: rest =>
      let p := classify fetch rest in
      match fetch (id order) with
      | None =>
          mkPartition (order :: updated_orders p) (closed_orders p)
                      (canceled_orders p) (autobay_needed p) (flagautobay p)
      | Some status =>
          if String.eqb status "closed" then
            mkPartition (updated_orders p) (order :: closed_orders p)
                        (canceled_orders p)
                        (is_autobay order || autobay_needed p) (flagautobay p)
          else if String.eqb status "canceled" then
            mkPartition (updated_orders p) (closed_orders p)
                        (order :: canceled_orders p)
                        (is_autobay order || autobay_needed p) (flagautobay p)
          else
            mkPartition (order :: updated_orders p) (closed_orders p)
                        (canceled_orders p) (autobay_needed p)
                        (if is_autobay order then S (flagautobay p) else flagautobay p)
      end
  end.

(** Lines 337-339. *)
Definition profit_of (order : Order) : Qc :=
  let buy_cost := fmul (buy_price order) (amount order) in
  let sell_revenue := fmul (price order) (amount order) in
  fsub sell_revenue buy_cost.

(** [for order in closed_orders] (lines 336-354). *)
Fixpoint settle_closed (closed : list Order) (executed_orders_count : Z)
    (total_profit : Qc) : M (Z * Qc) :=
  match closed with
  | [] => ret (executed_orders_count, total_profit)
  | order :: rest =>
      let profit := profit_of order in
      save_notification (ExecutedMsg order profit) ;;
      settle_closed rest (executed_orders_count + 1)%Z (fadd total_profit profit)
  end.

(** [for order in canceled_orders] (lines 356-358). *)
Fixpoint report_canceled (canceled : list Order) : M unit :=
  match canceled with
  | [] => ret tt
  | order :: rest => save_notification (CanceledMsg (id order)) ;; report_canceled rest
  end.

(** [updated_orders[0]['order_type'] = 'autobay'] *)
Definition promote_first (l : list Order) : list Order :=
  match l with
  | [] => []
  | o :: rest => set_order_type "autobay" o :: rest
  end.

(** Lines 376-382: the first ['autobay'] keeps the role, the others become
    ['bay']. *)
Fixpoint keep_first_autobay (first_autobay : bool) (l : list Order) : list Order :=
  match l with
  | [] => []
  | order :: rest =>
      if is_autobay order then
        if first_autobay then order :: keep_first_autobay false rest
        else set_order_type "bay" order :: keep_first_autobay false rest
      else order :: keep_first_autobay first_autobay rest
  end.

(** The rotation step (lines 369-382), under [not trading_stopped]: the
    list [updated_orders] after it. *)
Definition rotation (flagautobay : nat) (updated_orders : list Order) : list Order :=
  if Nat.eqb flagautobay 0 && negb (is_empty updated_orders) then
    promote_first (sort_by_price updated_orders)
  else if Nat.ltb 1 flagautobay then
    keep_first_autobay true (sort_by_price updated_orders)
  else updated_orders.

(** *** The rotation, seen from [active_orders]

    [updated_orders] holds the very dicts of [active_orders], so the
    assignments of the rotation to ['order_type'] change the orders of
    [active_orders] as well, while the sort moves them in [updated_orders]
    only.  A [Cell] is an order with its position in [active_orders]; the
    rotation runs on the cells of the orders that went to [updated_orders],
    and [write_back] puts each cell back at its position. *)

Definition Cell : Type := nat * Order.

Definition cells (orders : list Order) : list Cell :=
  combine (seq 0 (List.length orders)) orders.

(** The order is appended to [updated_orders] by the loop of lines
    319-334. *)
Definition in_updated_orders (fetch : string -> option string) (order : Order)
    : bool :=
  match fetch (id order) with
  | None => true
  | Some status =>
      negb (String.eqb status "closed") && negb (String.eqb status "canceled")
  end.

Fixpoint insert_cell (c : Cell) (l : list Cell) : list Cell :=
  match l with
  | [] => [c]
  | x :: rest =>
      if Qc_leb (price (snd c)) (price (snd x)) then c :: l
      else x :: insert_cell c rest
  end.

Fixpoint sort_cells (l : list Cell) : list Cell :=
  match l with
  | [] => []
  | c :: rest => insert_cell c (sort_cells rest)
  end.

Definition retype_cell (t : string) (c : Cell) : Cell :=
  (fst c, set_order_type t (snd c)).

Definition promote_first_cell (l : list Cell) : list Cell :=
  match l with
  | [] => []
  | c :: rest => retype_cell "autobay" c :: rest
  end.

Fixpoint keep_first_autobay_cell (first_autobay : bool) (l : list Cell) : list Cell :=
  match l with
  | [] => []
  | c :: rest =>
      if is_autobay (snd c) then
        if first_autobay then c :: keep_first_autobay_cell false rest
        else retype_cell "bay" c :: keep_first_autobay_cell false rest
      else c :: keep_first_autobay_cell first_autobay rest
  end.

Definition rotation_cells (flagautobay : nat) (updated_orders : list Cell)
    : list Cell :=
  if Nat.eqb flagautobay 0 && negb (is_empty updated_orders) then
    promote_first_cell (sort_cells updated_orders)
  else if Nat.ltb 1 flagautobay then
    keep_first_autobay_cell true (sort_cells updated_orders)
  else updated_orders.

Definition write_back (changed : list Cell) (orders : list Order) : list Order :=
  map (fun c =>
         match find (fun c' => Nat.eqb (fst c') (fst c)) changed with
         | Some c' => snd c'
         | None => snd c
         end)
      (cells orders).

(** [active_orders] after the rotation has run on [updated_orders]. *)
Definition rotated_in_place (fetch : string -> option string) (flagautobay : nat)
    (active_orders : list Order) : list Order :=
  write_back
    (rotation_cells flagautobay
       (filter (fun c => in_updated_orders fetch (snd c)) (cells active_orders)))
    active_orders.

(** Lines 360-399: what [check_orders] does once the three loops are done,
    with the survivors and the updated counters.  When [create_new_order]
    raises, the [except] arm of lines 397-399 returns [active_orders] and
    the counters as they are at that point. *)
Definition finish_check (env : CheckEnv) (active_orders : list Order)
    (p : Partition) (executed_orders_count : Z) (total_profit : Qc)
    (initial_check : bool) : M Book :=
  stopped <- get trading_stopped ;;
  if initial_check && is_empty (updated_orders p) then
    if negb stopped then
      created <- create_new_order (on_create env)
                   (mkBook (updated_orders p) executed_orders_count total_profit)
                   "autobay" ;;
      match created with
      | Return created => ret created
      | Raise _ => ret (mkBook active_orders executed_orders_count total_profit)
      end
    else ret (mkBook (updated_orders p) executed_orders_count total_profit)
  else
    let updated_orders :=
      if negb stopped then rotation (flagautobay p) (updated_orders p)
      else updated_orders p in
    save_state updated_orders executed_orders_count total_profit ;;
    if autobay_needed p && negb initial_check && negb stopped then
      created <- create_new_order (on_create env)
                   (mkBook updated_orders executed_orders_count total_profit)
                   "autobay" ;;
      match created with
      | Return created =>
          save_book created ;;
          (if initial_check then save_notification CheckFinishedMsg else ret tt) ;;
          ret created
      | Raise _ =>
          ret (mkBook (rotated_in_place (fetch_order env) (flagautobay p) active_orders)
                      executed_orders_count total_profit)
      end
    else
      (if initial_check then save_notification CheckFinishedMsg else ret tt) ;;
      ret (mkBook updated_orders executed_orders_count total_profit).

Definition check_orders (env : CheckEnv) (book : Book) (initial_check : bool)
    : M Book :=
  (if initial_check then save_notification CheckStartedMsg else ret tt) ;;
  let p := classify (fetch_order env) (active_orders book) in
  counters <- settle_closed (closed_orders p)
                (executed_orders_count book) (total_profit book) ;;
  report_canceled (canceled_orders p) ;;
  finish_check env (active_orders book) p (fst counters) (snd counters) initial_check.

(** ** The controller loop (lines 402-466) *)

(** What one iteration of [while True] receives from outside: the command
    taken from [command_queue] ([None] for [queue.Empty]) and the answers of
    the exchange at each call site of the iteration. *)
Record TickEnv := mkTickEnv {
  command : option string;
  on_start : CheckEnv;                        (* [check_orders] of the "start" command *)
  on_buy : CreateEnv;                         (* [create_new_order] of the "buy" command *)
  on_check : CheckEnv;                        (* [check_orders] of line 443 *)
  current_price : read (option Qc);           (* [get_current_price] of line 450 *)
  available_balance : read (option Qc);       (* [get_available_balance] of line 453 *)
  on_drop : CreateEnv                         (* [create_new_order] of line 457 *)
}.

(** The first order of the list whose type is ['autobay'] becomes ['bay']
    (the assignment through the alias [order] or [autobay_order]). *)
Fixpoint demote_first_autobay (l : list Order) : list Order :=
  match l with
  | [] => []
  | order :: rest =>
      if is_autobay order then set_order_type "bay" order :: rest
      else order :: demote_first_autobay rest
  end.

Definition with_orders (book : Book) (l : list Order) : Book :=
  mkBook l (executed_orders_count book) (total_profit book).

(** Lines 414-425. *)
Definition stop_command (book : Book) : M Book :=
  set_trading_stopped true ;;
  match find is_autobay (active_orders book) with
  | Some order =>
      let book' := with_orders book (demote_first_autobay (active_orders book)) in
      save_book book' ;;
      save_notification (StoppedMsg (id order)) ;;
      save_book book' ;;
      ret book'
  | None =>
      save_notification NoAutobayMsg ;;
      save_book book ;;
      ret book
  end.

(** Lines 426-433. *)
Definition start_command (env : TickEnv) (book : Book) : M Book :=
  set_trading_stopped false ;;
  set_insufficient_funds_notified false ;;
  checked <- check_orders (on_start env) book true ;;
  save_book checked ;;
  ret checked.

(** Lines 434-439. *)
Definition buy_command (env : TickEnv) (book : Book) : M (ending Book) :=
  created <- create_new_order (on_buy env) book "bay" ;;
  match created with
  | Return created =>
      save_book created ;;
      save_notification BayCreatedMsg ;;
      ret (Return created)
  | Raise e => ret (Raise e)
  end.

(** Lines 412-441. *)
Definition handle_command (env : TickEnv) (book : Book) : M (ending Book) :=
  match command env with
  | None => ret (Return book)
  | Some c =>
      if String.eqb c "stop" then
        stopped <- stop_command book ;; ret (Return stopped)
      else if String.eqb c "start" then
        started <- start_command env book ;; ret (Return started)
      else if String.eqb c "buy" then buy_command env book
      else ret (Return book)
  end.

(** Lines 443-447: reconcile, sort, persist. *)
Definition reconcile (env : TickEnv) (book : Book) : M Book :=
  checked <- check_orders (on_check env) book false ;;
  let sorted := with_orders checked (sort_by_price (active_orders checked)) in
  save_book sorted ;;
  ret sorted.

(** The condition of line 451, for the order found at line 449. *)
Definition price_dropped (autobay_order : Order) (current_price : Qc)
    (stopped : bool) : bool :=
  Qc_leb current_price (fmul (buy_price autobay_order) (fsub 1 drop_percent))
  && negb stopped.

(** Lines 455-460: the current ['autobay'] becomes ['bay'] and a new
    ['autobay'] is asked for. *)
Definition replace_autobay (env : TickEnv) (book : Book) : M (ending Book) :=
  created <- create_new_order (on_drop env)
               (with_orders book (demote_first_autobay (active_orders book)))
               "autobay" ;;
  match created with
  | Return created =>
      save_book created ;;
      ret (Return created)
  | Raise e => ret (Raise e)
  end.

(** Lines 449-466. *)
Definition price_drop (env : TickEnv) (book : Book) : M (ending Book) :=
  stopped <- get trading_stopped ;;
  match current_price env with
  | Fails e => ret (Raise e)
  | Value current_price =>
      match find is_autobay (active_orders book) with
      | None => ret (Return book)
      | Some autobay_order =>
          match current_price with
          | None => ret (Raise "TypeError")                   (* None <= float *)
          | Some current_price =>
              if price_dropped autobay_order current_price stopped then
                match available_balance env with
                | Fails e => ret (Raise e)
                | Value None => ret (Raise "TypeError")       (* None >= int *)
                | Value (Some available_balance) =>
                    if Qc_leb order_size available_balance then
                      replace_autobay env book
                    else
                      notify_insufficient_funds available_balance ;;
                      ret (Return book)
                end
              else ret (Return book)
          end
      end
  end.

(** One iteration of the [while True] of [run_bot]. *)
Definition tick (env : TickEnv) (book : Book) : M (ending Book) :=
  commanded <- handle_command env book ;;
  match commanded with
  | Return commanded =>
      sorted <- reconcile env commanded ;;
      price_drop env sorted
  | Raise e => ret (Raise e)
  end.

(** Consecutive iterations, one environment each; an iteration that
    raises ends the loop. *)
Fixpoint ticks (envs : list TickEnv) (book : Book) : M (ending Book) :=
  match envs with
  | [] => ret (Return book)
  | env :: rest =>
      book' <- tick env book ;;
      match book' with
      | Return book' => ticks rest book'
      | Raise e => ret (Raise e)
      end
  end.

(** Lines 405-409: the start of [run_bot], before the loop. *)
Definition startup (env : CheckEnv) : M Book :=
  loaded <- load_state ;;
  checked <- check_orders env loaded true ;;
  save_book checked ;;
  ret checked.

(** ** The backoff wrapper (lines 79-95) *)

(** How one call of a wrapped function ends. *)
Inductive outcome (A : Type) :=
| Returned (a : A)
| NetworkError
| Raised (e : string).
Arguments Returned {A} a.
Arguments NetworkError {A}.
Arguments Raised {A} e.

(** [min(delay * (2 ** min(attempt, 10)), max_delay)] *)
Definition current_delay (delay max_delay : Z) (attempt : nat) : Z :=
  Z.min (delay * 2 ^ Z.of_nat (Nat.min attempt 10)) max_delay.

(** The [while True] of [wrapper], from a given value of [attempt].  [func n]
    is how the call made after [n] network errors ends.  The result is what
    the wrapper returns or raises, or [None] while it is still retrying when
    the fuel runs out, with the delays slept so far. *)
Fixpoint wrapper {A} (delay max_delay : Z) (func : nat -> outcome A)
    (fuel attempt : nat) : option (string + A) * list Z :=
  match fuel with
  | O => (None, [])
  | S fuel' =>
      match func attempt with
      | Returned a => (Some (inr a), [])
      | Raised e => (Some (inl e), [])
      | NetworkError =>
          let attempt' := S attempt in
          let slept := current_delay delay max_delay attempt' in
          let (result, later) := wrapper delay max_delay func fuel' attempt' in
          (result, slept :: later)
      end
  end.

(** [@retry_on_network_error()], with its defaults. *)
Definition retry_on_network_error {A} (func : nat -> outcome A) (fuel : nat)
    : option (string + A) * list Z :=
  wrapper 5 60 func fuel 0.

(** ** Price and balance (lines 97-110) *)

(** The globals [last_price] and [last_price_time]. *)
Record PriceCache := mkPriceCache {
  last_price : option Qc;
  last_price_time : Qc
}.

(** Lines 46-48. *)
Definition initial_cache : PriceCache := mkPriceCache None 0.
Definition price_cache_duration : Qc := Q2Qc 5.

Definition is_none {A} (o : option A) : bool :=
  match o with None => true | Some _ => false end.

(** One run of the body of [get_current_price] at the time [current_time];
    [fetch_ticker] is how [exchange.fetch_ticker(symbol)['last']] ends if it
    is called, a ticker without a last price giving [None]. *)
Definition get_current_price (current_time : Qc)
    (fetch_ticker : outcome (option Qc)) (cache : PriceCache)
    : outcome (option Qc) * PriceCache :=
  if is_none (last_price cache)
     || Qc_ltb price_cache_duration (current_time - last_price_time cache)
  then
    match fetch_ticker with
    | Returned last => (Returned last, mkPriceCache last current_time)
    | NetworkError => (NetworkError, cache)
    | Raised e => (Raised e, cache)
    end
  else (Returned (last_price cache), cache).

(** A Python dict with string keys, as the list of its items. *)
Definition dict (V : Type) : Type := list (string * V).

(** [d.get(key)] *)
Fixpoint dict_get {V} (d : dict V) (key : string) : option V :=
  match d with
  | [] => None
  | (k, v) :: rest => if String.eqb k key then Some v else dict_get rest key
  end.

(** [balance.get(currency, {}).get('free', 0)] on the reply of
    [exchange.fetch_balance()]. *)
Definition get_available_balance (balance : dict (dict Qc)) (currency : string)
    : Qc :=
  match dict_get balance currency with
  | Some account =>
      match dict_get account "free" with
      | Some free => free
      | None => 0
      end
  | None => 0
  end.

(** ** The notification sender (lines 174-185)

    Iterations of the [while True] of [send_notifications] over a queue that
    no one else touches meanwhile.  Each element of [sends] is one
    iteration: whether [bot.send_message] returns, should the iteration take
    a message.  The result is the list of messages sent and the queue left. *)
Fixpoint send_notifications (sends : list bool) (queue : list notification)
    : list notification * list notification :=
  match sends with
  | [] => ([], queue)
  | sent :: later =>
      match queue with
      | [] => send_notifications later []       (* except queue.Empty: continue *)
      | message :: rest =>
          let (delivered, left) := send_notifications later rest in
          if sent then (message :: delivered, left)
          else (delivered, left)                (* except Exception: sleep *)
      end
  end.

(** ** The statistics handler (lines 479-488) *)

(** What [send_stats] prints: the executed count, the total profit and
    [len(active_orders)], as [load_state] returns them. *)
Definition send_stats : M (Z * Qc * nat) :=
  loaded <- load_state ;;
  ret (executed_orders_count loaded, total_profit loaded,
       List.length (active_orders loaded)).

(** ** The configuration check (lines 63-66)

    [config] maps each section to its keys, and each key to the value of
    its environment variable, [None] when the variable is not set.  The
    result is the key that the [ValueError] names, or [None] when the loops
    end without raising. *)
Fixpoint first_unset (keys : dict (option string)) : option string :=
  match keys with
  | [] => None
  | (key, value) :: rest =>
      match value with
      | None => Some key
      | Some _ => first_unset rest
      end
  end.

Fixpoint config_check (config : dict (dict (option string))) : option string :=
  match config with
  | [] => None
  | (section, keys) :: rest =>
      match first_unset keys with
      | Some key => Some key
      | None => config_check rest
      end
  end.

(** * Vocabulary of the properties, and sample data *)

(** [keeps R m]: the world after [m] is related by [R] to the world before. *)
Definition keeps (R : World -> World -> Prop) {A} (m : M A) : Prop :=
  forall w, R w (exec m w).

(** The guard of lines 116-118. *)
Definition nothing_to_save (active_orders : list Order) (executed_orders_count : Z)
    (total_profit : Qc) (stopped : bool) : bool :=
  is_empty active_orders && (executed_orders_count =? 0)%Z
  && Qc_eqb total_profit 0 && negb stopped.

Definition snapshot (active_orders : list Order) (executed_orders_count : Z)
    (total_profit : Qc) (stopped : bool) : StateDict :=
  mkStateDict (Some active_orders) (Some executed_orders_count)
              (Some total_profit) (Some stopped).

(** A price or a balance that the exchange gives. *)
Definition reading (x : Qc) : read (option Qc) := Value (Some x).

(** An exchange that answers every read: the last price, the free balance
    and the replies to the buy and to the sell. *)
Definition exchange (last free : Qc) (buy : Qc -> nat -> attempt Purchase)
    (sell : Qc -> Qc -> nat -> attempt string) : CreateEnv :=
  mkCreateEnv (Value tt) (reading last) (reading free) buy sell.

(** A purchase with both of its figures. *)
Definition bought (amount average : Qc) : Purchase :=
  mkPurchase (Some amount) (Some average).

(** Sample orders for the concrete runs below. *)
Definition sample_order : Order :=
  mkOrder "s1" (decimal 21739 100) (decimal 6935 100000) (decimal 69 1000) "autobay".

Definition saved_world : World :=
  mkWorld false false []
          (Some (Object (snapshot [sample_order] 1%Z (decimal 76 1000) false)))
          [] [].

(** The world of a stopped bot whose state file cannot be parsed. *)
Definition stopped_world_unparseable_file : World :=
  mkWorld false true [] (Some Unparseable) [] [].

(** Every poll answers "open". *)
Definition all_open : string -> option string := fun _ => Some "open".

(** The three orders of the specification's example, none an ['autobay']. *)
Definition three_bays : list Order :=
  [ mkOrder "b1" 1 (decimal 72 1000) (decimal 71 1000) "bay";
    mkOrder "b2" 1 (decimal 69 1000) (decimal 68 1000) "bay";
    mkOrder "b3" 1 (decimal 75 1000) (decimal 74 1000) "bay" ].

Definition cheap_bay : Order := mkOrder "c1" 1 (decimal 1 1) (decimal 1 1) "bay".
Definition dear_autobay : Order := mkOrder "c2" 1 (decimal 2 1) (decimal 2 1) "autobay".

(** An exchange with funds that fills every buy of 15 units at price 1 and
    accepts every sell under the id "n1". *)
Definition filling_exchange : CreateEnv :=
  exchange (decimal 1 1) (decimal 100 1)
           (fun _ _ => Placed (bought (decimal 15 1) (decimal 1 1)))
           (fun _ _ _ => Placed "n1").

Definition quiet_check : CheckEnv := mkCheckEnv all_open filling_exchange.

(** An iteration with no command, every order open, and the price at 1. *)
Definition drop_tick : TickEnv :=
  mkTickEnv None quiet_check filling_exchange quiet_check
            (reading (decimal 1 1)) (reading (decimal 100 1)) filling_exchange.

(** The status poll of the order answers with the given status. *)
Definition reported (fetch : string -> option string) (status : string)
    (o : Order) : bool :=
  match fetch (id o) with
  | Some s => String.eqb s status
  | None => false
  end.

(** [total_profit] after the profits of the orders of [l] have been added
    to it one after the other, in the order of the list. *)
Definition add_profits (l : list Order) (total_profit : Qc) : Qc :=
  fold_left (fun total order => fadd total (profit_of order)) l total_profit.

(** The orders that [check_orders] carries over: the survivors of the
    classification, after the rotation when trading is enabled. *)
Definition carried_over (env : CheckEnv) (book : Book) (stopped : bool)
    : list Order :=
  let p := classify (fetch_order env) (active_orders book) in
  if stopped then updated_orders p
  else rotation (flagautobay p) (updated_orders p).

(** [same f]: the component [f] of the world is left as it was. *)
Definition same {X} (f : World -> X) (w w' : World) : Prop := f w' = f w.

(** The world with more notifications in the queue. *)
Definition enqueue (ns : list notification) (w : World) : World :=
  mkWorld (insufficient_funds_notified w) (trading_stopped w)
          (notification_queue w ++ ns)
          (state_file w) (writes w) (creations w).

(** Two orders that differ at most in their ['order_type']. *)
Definition same_but_type (a b : Order) : Prop :=
  id a = id b /\ amount a = amount b /\ price a = price b
  /\ buy_price a = buy_price b.

(** The cell is the cell [c] with at most the type of its order
    rewritten. *)
Definition retyped (c c' : Cell) : Prop :=
  fst c' = fst c /\ same_but_type (snd c') (snd c).

(** The notifications that the loops of [check_orders] put in the queue. *)
Definition loop_notifications (p : Partition) (initial_check : bool)
    : list notification :=
  (if initial_check then [CheckStartedMsg] else [])
  ++ map (fun o => ExecutedMsg o (profit_of o)) (closed_orders p)
  ++ map (fun o => CanceledMsg (id o)) (canceled_orders p).

(** The queue of notifications only grows, and by notifications that pass
    the test [allowed]. *)
Definition queue_grows_by (allowed : notification -> bool) (w w' : World) : Prop :=
  exists more, notification_queue w' = notification_queue w ++ more
               /\ forallb allowed more = true.

(** Notifications other than those of a closed or canceled order. *)
Definition not_a_settlement (n : notification) : bool :=
  match n with
  | ExecutedMsg _ _ | CanceledMsg _ => false
  | _ => true
  end.

(** An exchange on which the account has no funds. *)
Definition broke_exchange : CreateEnv :=
  exchange (decimal 1 1) 0
           (fun _ _ => InsufficientFunds) (fun _ _ _ => InsufficientFunds).

(** The four conditions of the price-drop action: an ['autobay'] exists,
    trading is enabled, the price read is at most
    [buy_price * (1 - drop_percent)] as the floats give it, and the balance
    read is at least [order_size]. *)
Definition trigger_holds (env : TickEnv) (book : Book) (w : World) : Prop :=
  exists autobay_order price balance,
    find is_autobay (active_orders book) = Some autobay_order
    /\ trading_stopped w = false
    /\ current_price env = reading price
    /\ price <= fmul (buy_price autobay_order) (fsub 1 drop_percent)
    /\ available_balance env = reading balance
    /\ order_size <= balance.

(** The insufficient-funds notifications: that of lines 256 and 463, and
    those of a buy or a sell that the exchange rejects for lack of funds
    (lines 201 and 230), which share the flag. *)
Definition is_insufficient_funds_msg (n : notification) : bool :=
  match n with
  | InsufficientFundsMsg _ _ | BuyInsufficientFundsMsg | SellInsufficientFundsMsg => true
  | _ => false
  end.

Definition count_insufficient (queue : list notification) : nat :=
  List.length (filter is_insufficient_funds_msg queue).

(** Edge triggering: the flag [insufficient_funds_notified] is not cleared,
    and one insufficient-funds notification is queued exactly when the flag
    goes from clear to set. *)
Definition edge_triggered (w w' : World) : Prop :=
  (insufficient_funds_notified w = true -> insufficient_funds_notified w' = true)
  /\ count_insufficient (notification_queue w')
     = (count_insufficient (notification_queue w)
        + (if negb (insufficient_funds_notified w) && insufficient_funds_notified w'
           then 1 else 0))%nat.

(** The balance read gives an amount below the order size. *)
Definition below_order_size (balance : read (option Qc)) : bool :=
  match balance with
  | Value (Some available_balance) => Qc_ltb available_balance order_size
  | _ => false
  end.

(** The account cannot pay for an order. *)
Definition no_funds (env : CreateEnv) : bool :=
  below_order_size (free_balance env).

(** [create_new_order] gets as far as the balance: the markets load and
    the price read returns. *)
Definition reaches_balance (env : CreateEnv) : bool :=
  match load_markets env, ticker_last env with
  | Value _, Value _ => true
  | _, _ => false
  end.

(** An iteration in which every reading of the balance is below the order
    size. *)
Definition insufficient_tick (env : TickEnv) : bool :=
  below_order_size (available_balance env)
  && no_funds (on_buy env) && no_funds (on_drop env)
  && no_funds (on_create (on_check env)) && no_funds (on_create (on_start env)).

(** An iteration whose command, if any, is not "start". *)
Definition no_start (env : TickEnv) : bool :=
  match command env with
  | Some c => negb (String.eqb c "start")
  | None => true
  end.

Definition broke_check : CheckEnv := mkCheckEnv all_open broke_exchange.

(** An iteration with the price at 1 and an empty account. *)
Definition broke_tick (command : option string) : TickEnv :=
  mkTickEnv command broke_check broke_exchange broke_check
            (reading (decimal 1 1)) (reading 0) broke_exchange.

(** The order of the specification's price-drop example, bought at 0.07. *)
Definition anchor_order : Order :=
  mkOrder "a7" (decimal 21428 100) (fmul (decimal 7 100) (fadd 1 profit_percent))
          (decimal 7 100) "autobay".

(** An iteration with every order open, funds for one order, and the given
    price. *)
Definition priced_tick (price : Qc) : TickEnv :=
  mkTickEnv None quiet_check filling_exchange quiet_check
            (reading price) (reading (decimal 15 1)) filling_exchange.

(** The same computations on the primitive floats of the machine, with
    literals read as Python reads them, for comparison with [fadd], [fsub],
    [fmul] and [fdiv]. *)
Module Doubles.
Import PrimFloat.
#[local] Set Warnings "-inexact-float".

(** The rational that a finite float denotes. *)
Definition value (f : float) : Qc := of_double (FloatOps.Prim2SF f).

Definition double_drop_percent : float := div 1 100.

Definition double_threshold (buy_price : float) : float :=
  mul buy_price (sub 1 double_drop_percent).

Definition double_price_dropped (current_price buy_price : float) : bool :=
  leb current_price (double_threshold buy_price).



(** The four rounded operations of the model give, on a pair of floats,
    what the primitive floats give. *)
Definition agree (pair : float * float) : bool :=
  let (a, b) := pair in
  Qc_eqb (value (add a b)) (fadd (value a) (value b))
  && Qc_eqb (value (sub a b)) (fsub (value a) (value b))
  && Qc_eqb (value (mul a b)) (fmul (value a) (value b))
  && Qc_eqb (value (div a b)) (fdiv (value a) (value b)).

Definition sample_pairs : list (float * float) :=
  [ (0.1, 0.2); (0.07, 0.99); (217.39, 0.06935); (217.39, 0.069); (15, 0.0693);
    (1e-300, 1e-20); (1e300, 3.7); (-2.5, 7.25); (1e16, 1); (0.3, -0.1);
    (5e-324, 3); (2.2250738585072014e-308, 0.999); (123456.789, 1e-5) ]%float.

Definition d_0_07 : float := 0.07.
Definition d_0_0693 : float := 0.0693.
Definition d_0_0694 : float := 0.0694.
Definition d_0_06 : float := 0.06.
Definition d_0_0594 : float := 0.0594.

End Doubles.

(** * Vocabulary for the rest of the code *)

(** What the wrapper returns or raises for the way a call ends. *)
Definition settled {A} (o : outcome A) : option (string + A) :=
  match o with
  | Returned a => Some (inr a)
  | Raised e => Some (inl e)
  | NetworkError => None
  end.

(** The cache is empty or older than [price_cache_duration] at the given
    time: the test of line 102. *)
Definition cache_expired (current_time : Qc) (cache : PriceCache) : bool :=
  is_none (last_price cache)
  || Qc_ltb price_cache_duration (current_time - last_price_time cache).

(** What a call that asks the exchange gives. *)
Definition asked (current_time : Qc) (fetch_ticker : outcome (option Qc))
    (cache : PriceCache) : outcome (option Qc) * PriceCache :=
  match fetch_ticker with
  | Returned last => (Returned last, mkPriceCache last current_time)
  | NetworkError => (NetworkError, cache)
  | Raised e => (Raised e, cache)
  end.

Definition is_rate_limit {A} (a : attempt A) : bool :=
  match a with RateLimitExceeded => true | _ => false end.

(** The first of the three attempts that does not end in a rate limit. *)
Definition decisive {A} (reply : nat -> attempt A) : option (attempt A) :=
  find (fun a => negb (is_rate_limit a)) (map reply (seq 0 3)).

(** A filled market buy: the amount and the average price that the
    exchange reports. *)
Record Fill := mkFill {
  filled_amount : Qc;
  average : Qc
}.

(** How one run of [create_new_order] ends: with a pair of orders placed
    (the fill of the buy and the id of the sell), without one, or with an
    exception. *)
Inductive creation :=
| Created (fill : Fill) (sell_id : string)
| NotCreated
| CreationRaises (e : string).

(** What the sell of a purchase gives. *)
Definition sale_of (env : CreateEnv) (purchase : Purchase) : creation :=
  match purchase_average purchase with
  | None => CreationRaises "TypeError"
  | Some average =>
      match purchase_amount purchase with
      | None => CreationRaises "TypeError"
      | Some amount =>
          match decisive (limit_sell env amount
                            (fmul average (fadd 1 profit_percent))) with
          | Some (Placed sell_id) => Created (mkFill amount average) sell_id
          | _ => NotCreated
          end
      end
  end.

(** The ending of [create_new_order], read off the answers of the
    exchange: it raises when a read fails, when the balance is [None], and,
    with enough funds, when the price is [None] or zero or a figure of the
    purchase is [None]; it places a pair when the funds suffice and the
    first attempts that are not rate-limited are accepted. *)
Definition creation_of (env : CreateEnv) : creation :=
  match load_markets env with
  | Fails e => CreationRaises e
  | Value _ =>
      match ticker_last env with
      | Fails e => CreationRaises e
      | Value last =>
          match free_balance env with
          | Fails e => CreationRaises e
          | Value None => CreationRaises "TypeError"
          | Value (Some balance) =>
              if Qc_ltb balance order_size then NotCreated
              else
                match last with
                | None => CreationRaises "TypeError"
                | Some last =>
                    if Qc_eqb last 0 then CreationRaises "ZeroDivisionError"
                    else
                      match decisive (market_buy env (fdiv order_size last)) with
                      | Some (Placed purchase) => sale_of env purchase
                      | _ => NotCreated
                      end
                end
          end
      end
  end.

(** The buy and the sell that one run of [create_new_order] gets placed. *)
Definition placed_pair (env : CreateEnv) : option (Fill * string) :=
  match creation_of env with
  | Created fill sell_id => Some (fill, sell_id)
  | _ => None
  end.

(** The exception that one run of [create_new_order] raises. *)
Definition creation_error (env : CreateEnv) : option string :=
  match creation_of env with
  | CreationRaises e => Some e
  | _ => None
  end.

(** The order that [create_new_order] books for a placed pair. *)
Definition booked_order (fill : Fill) (sell_id role : string) : Order :=
  mkOrder sell_id (filled_amount fill) (fmul (average fill) (fadd 1 profit_percent))
          (average fill) role.

(** The sell price is the buy price plus the margin, as the floats give
    it. *)
Definition priced_with_margin (o : Order) : Prop :=
  price o = fmul (buy_price o) (fadd 1 profit_percent).

(** An exchange with funds that fills every buy and refuses every sell. *)
Definition refusing_exchange : CreateEnv :=
  exchange (decimal 1 1) (decimal 100 1)
           (fun _ _ => Placed (bought (decimal 15 1) (decimal 1 1)))
           (fun _ _ _ => OtherError "refused").


(** The status poll of the order neither reports it closed nor canceled:
    the order stays in the book. *)
Definition still_open (fetch : string -> option string) (o : Order) : bool :=
  negb (reported fetch "closed" o) && negb (reported fetch "canceled" o).

(** The test under which [check_orders] calls [create_new_order]: trading
    is enabled and, on the initial check, no order survives; on a later
    check, an ['autobay'] was closed or canceled. *)
Definition replenishes (p : Partition) (initial_check stopped : bool) : bool :=
  negb stopped
  && (if initial_check then is_empty (updated_orders p) else autobay_needed p).

(** The orders that [check_orders] returns when it has called
    [create_new_order]: the orders carried over followed by the new order,
    the orders carried over alone, or, when the call raises,
    [active_orders] as the rotation has left it (the [except] arm of lines
    397-399). *)
Definition replenished (env : CheckEnv) (book : Book) : list Order :=
  match creation_of (on_create env) with
  | Created fill sell_id =>
      carried_over env book false ++ [booked_order fill sell_id "autobay"]
  | NotCreated => carried_over env book false
  | CreationRaises _ =>
      rotated_in_place (fetch_order env)
        (flagautobay (classify (fetch_order env) (active_orders book)))
        (active_orders book)
  end.

(** [check_orders] ends in the [except] arm of lines 397-399: it calls
    [create_new_order], and the call raises. *)
Definition ends_in_except_arm (env : CheckEnv) (book : Book)
    (initial_check stopped : bool) : bool :=
  replenishes (classify (fetch_order env) (active_orders book)) initial_check stopped
  && negb (is_none (creation_error (on_create env))).


(** The order that a replenishment appends, if the pair gets placed. *)
Definition replenishment (env : CheckEnv) : list Order :=
  match placed_pair (on_create env) with
  | Some (fill, sell_id) => [booked_order fill sell_id "autobay"]
  | None => []
  end.

(** The poll reports an ['autobay'] order closed or canceled. *)
Definition autobay_gone (fetch : string -> option string) (o : Order) : bool :=
  is_autobay o && (reported fetch "closed" o || reported fetch "canceled" o).

(** When [check_orders] replenishes, read off the book it is given:
    trading is enabled and, on the initial check, no order stays open; on a
    later check, an ['autobay'] is reported closed or canceled. *)
Definition replenishment_due (fetch : string -> option string)
    (orders : list Order) (initial_check stopped : bool) : bool :=
  negb stopped
  && (if initial_check then is_empty (filter (still_open fetch) orders)
      else existsb (autobay_gone fetch) orders).

(** An exchange on which one ['autobay'] has just been filled while a
    ['bay'] is still open, and which accepts the next pair of orders. *)
Definition autobay_filled : CheckEnv :=
  mkCheckEnv (fun i => if String.eqb i "c2" then Some "closed" else Some "open")
             filling_exchange.

(** A state that [save_state] lets through to the file: the four keys of
    lines 119-124, and not the empty, zeroed, trading-enabled state. *)
Definition worth_writing (d : StateDict) : Prop :=
  exists a e t s, d = snapshot a e t s /\ nothing_to_save a e t s = false.

(** The states [ds] written one after the other to a file that held
    [file], each different from what the file held when it was written;
    [file'] is what the file holds in the end. *)
Fixpoint written_in_turn (file : option file_content) (ds : list StateDict)
    (file' : option file_content) : Prop :=
  match ds with
  | [] => file' = file
  | d :: rest =>
      same_state (read_current_state file) d = false
      /\ worth_writing d
      /\ written_in_turn (Some (Object d)) rest file'
  end.

Definition writes_in_turn (w w' : World) : Prop :=
  exists ds, writes w' = writes w ++ ds
             /\ written_in_turn (state_file w) ds (state_file w').

(** An iteration whose command, if any, is neither "start" nor "buy". *)
Definition no_start_no_buy (env : TickEnv) : bool :=
  match command env with
  | Some c => negb (String.eqb c "start") && negb (String.eqb c "buy")
  | None => true
  end.

(** The order that the "buy" command adds, if the pair gets placed. *)
Definition manual_order (env : TickEnv) : list Order :=
  match placed_pair (on_buy env) with
  | Some (fill, sell_id) => [booked_order fill sell_id "bay"]
  | None => []
  end.

Definition empty_book : Book := mkBook [] 0%Z 0.

(** Trading stays stopped and no order has been placed. *)
Definition stays_stopped (w w' : World) : Prop :=
  trading_stopped w = true ->
  trading_stopped w' = true /\ creations w' = creations w.

(** [create_new_order] gets past the balance test: the markets load, the
    price read gives [last], not zero, and the balance read gives
    [balance], at least [order_size]. *)
Definition funded (env : CreateEnv) (last balance : Qc) : Prop :=
  load_markets env = Value tt
  /\ ticker_last env = reading last
  /\ free_balance env = reading balance
  /\ order_size <= balance
  /\ last <> 0.

(** The exchange places the pair on [env]: [create_new_order] gets past
    the balance test, the buy it asks for is reported filled with the given
    amount at the given average price, and the sell of that amount at the
    margin over that price is accepted under the id [sell_id]. *)
Definition placed_on (env : CreateEnv) (amount average : Qc) (sell_id : string)
    : Prop :=
  exists last balance,
    funded env last balance
    /\ decisive (market_buy env (fdiv order_size last))
       = Some (Placed (bought amount average))
    /\ decisive (limit_sell env amount (fmul average (fadd 1 profit_percent)))
       = Some (Placed sell_id).

(** The answers of the exchange to the order creations that one iteration
    may make: on "start", on "buy", in the regular check and on a price
    drop. *)
Definition creation_envs (env : TickEnv) : list CreateEnv :=
  [on_create (on_start env); on_buy env; on_create (on_check env); on_drop env].

(** Where an order of a later book comes from: it is an order of the book
    [l] with at most its ['order_type'] rewritten, or it has the id, the
    amount and the prices of a pair that the exchange placed on one of
    [envs]. *)
Definition came_from (envs : list CreateEnv) (l : list Order) (o' : Order) : Prop :=
  (exists o, In o l /\ same_but_type o' o)
  \/ (exists env, In env envs
                  /\ placed_on env (amount o') (buy_price o') (id o')
                  /\ price o' = fmul (buy_price o') (fadd 1 profit_percent)).

Definition descends (envs : list CreateEnv) (l l' : list Order) : Prop :=
  forall o', In o' l' -> came_from envs l o'.

(** The order [o] is still in the book [l'], up to its ['order_type']. *)
Definition kept (o : Order) (l' : list Order) : Prop :=
  exists o', In o' l' /\ same_but_type o' o.

(** The state file holds the book, with the trading flag of the world. *)
Definition file_mirrors (book : Book) (w : World) : Prop :=
  state_file w
  = Some (Object (snapshot (active_orders book) (executed_orders_count book)
                           (total_profit book) (trading_stopped w))).

(** The book and the flag make the state that [save_state] does not
    write. *)
Definition unsaved_state (book : Book) (w : World) : bool :=
  nothing_to_save (active_orders book) (executed_orders_count book)
                  (total_profit book) (trading_stopped w).

(** The notifications that [create_new_order] and the two functions it
    calls may put in the queue. *)
Definition creation_msg (n : notification) : bool :=
  match n with
  | InsufficientFundsMsg _ _ | BuyInsufficientFundsMsg | SellInsufficientFundsMsg
  | OrderNotFoundMsg | BuyErrorMsg _ | SellErrorMsg _ | BoughtMsg _ _ _
  | SellFailedMsg => true
  | _ => false
  end.

(** An iteration of [run_bot] up to line 447: the command, the check, the
    sort and the write; it raises when the "buy" command does. *)
Definition until_price_drop (env : TickEnv) (book : Book) : M (ending Book) :=
  commanded <- handle_command env book ;;
  match commanded with
  | Return commanded =>
      sorted <- reconcile env commanded ;;
      ret (Return sorted)
  | Raise e => ret (Raise e)
  end.

(** The price and the balance are both read, whatever their values. *)
Definition reads_succeed (env : TickEnv) : Prop :=
  exists price balance,
    current_price env = reading price /\ available_balance env = reading balance.

(** The order at the place of [autobay_order] in the book passed to
    [create_new_order] on a price drop: a ['bay'] with the same id, amount,
    price and buy price, every other order being left as it was. *)
Definition demoted_in_place (orders demoted : list Order) (autobay_order : Order)
    : Prop :=
  exists before_it after_it as_bay,
    orders = before_it ++ autobay_order :: after_it
    /\ forallb (fun o => negb (is_autobay o)) before_it = true
    /\ demoted = before_it ++ as_bay :: after_it
    /\ order_type as_bay = "bay"
    /\ same_but_type as_bay autobay_order.


(** The exchange answers the iteration: the price and the balance are read,
    and no order creation that the iteration may make raises. *)
Definition answered (env : TickEnv) : Prop :=
  reads_succeed env
  /\ (command env = Some "buy" -> creation_error (on_buy env) = None)
  /\ creation_error (on_drop env) = None.

(** * Properties *)

(** ** Running the monad *)

Lemma exec_bind {A B} (m : M A) (k : A -> M B) (w : World) :
  exec (bind m k) w = exec (k (eval m w)) (exec m w).
Proof. unfold exec, eval, bind. destruct (m w); reflexivity. Qed.

Lemma eval_bind {A B} (m : M A) (k : A -> M B) (w : World) :
  eval (bind m k) w = eval (k (eval m w)) (exec m w).
Proof. unfold exec, eval, bind. destruct (m w); reflexivity. Qed.

Lemma run_eq {A} (m : M A) (w : World) : m w = (eval m w, exec m w).
Proof. unfold eval, exec. destruct (m w); reflexivity. Qed.

(** A preorder between the world before and the world after that every
    step of a computation keeps is kept by the whole computation. *)
Section Steps.
Context {R : World -> World -> Prop} `{!PreOrder R}.

Lemma keeps_ret {A} (a : A) : keeps R (ret a).
Proof. intro w. reflexivity. Qed.

Lemma keeps_get {A} (f : World -> A) : keeps R (get f).
Proof. intro w. reflexivity. Qed.

Lemma keeps_bind {A B} (m : M A) (k : A -> M B) :
  keeps R m -> (forall a, keeps R (k a)) -> keeps R (bind m k).
Proof.
  intros Hm Hk w. rewrite exec_bind.
  transitivity (exec m w); [apply Hm | apply Hk].
Qed.

End Steps.

(** Splits a computation into its steps; [prim] closes the steps that are
    not binds, branches or returns. *)
Ltac keeps_steps prim :=
  repeat first
    [ match goal with
      | |- keeps _ (ret _) => apply keeps_ret
      | |- keeps _ (get _) => apply keeps_get
      | |- keeps _ (bind _ _) => apply keeps_bind; [|intro; cbv beta]
      | |- keeps _ (if ?b then _ else _) => destruct b
      | |- keeps _ (match ?x with _ => _ end) => destruct x
      end
    | prim ].

Lemma get_run {A} (f : World -> A) w : get f w = (f w, w).
Proof. reflexivity. Qed.

Lemma ret_run {A} (a : A) w : ret a w = (a, w).
Proof. reflexivity. Qed.

Lemma bind_run {A B} (m : M A) (k : A -> M B) w :
  bind m k w = k (eval m w) (exec m w).
Proof. unfold bind, eval, exec. destruct (m w); reflexivity. Qed.

Lemma eval_get {A} (f : World -> A) w : eval (get f) w = f w.
Proof. reflexivity. Qed.
Lemma exec_get {A} (f : World -> A) w : exec (get f) w = w.
Proof. reflexivity. Qed.
Lemma eval_ret {A} (a : A) w : eval (ret a) w = a.
Proof. reflexivity. Qed.
Lemma exec_ret {A} (a : A) w : exec (ret a) w = w.
Proof. reflexivity. Qed.

Ltac run :=
  repeat (rewrite ?eval_bind, ?exec_bind, ?eval_get, ?exec_get, ?eval_ret, ?exec_ret;
          cbv beta).

(** ** Persistence *)

Lemma same_state_true (current : option StateDict) (d : StateDict) :
  same_state current d = true <-> current = Some d.
Proof.
  unfold same_state. destruct current as [c|].
  - destruct (StateDict_eq_dec c d) as [->|Hne]; split; intro H;
      try reflexivity; try discriminate.
    injection H as H. contradiction.
  - split; discriminate.
Qed.

Lemma read_current_state_snapshot (file : option file_content) a e t s :
  read_current_state file = Some (snapshot a e t s) ->
  file = Some (Object (snapshot a e t s)).
Proof.
  destruct file as [[| |d]|]; simpl; intro H; try discriminate.
  injection H as ->. reflexivity.
Qed.

(** What a call of [save_state] does to the world: nothing, or one dump of
    the snapshot of its arguments. *)
Lemma save_state_cases a e t w :
  save_state a e t w = (tt, w)
  \/ (nothing_to_save a e t (trading_stopped w) = false
      /\ save_state a e t w
         = json_dump (snapshot a e t (trading_stopped w)) w).
Proof.
  unfold save_state, bind, get.
  fold (nothing_to_save a e t (trading_stopped w)).
  destruct (nothing_to_save a e t (trading_stopped w)); [left; reflexivity|].
  fold (snapshot a e t (trading_stopped w)).
  destruct (same_state _ _); [left; reflexivity | right; split; reflexivity].
Qed.

(** [save_state], branch by branch. *)
Lemma save_state_run a e t w :
  save_state a e t w
  = if nothing_to_save a e t (trading_stopped w) then (tt, w)
    else if same_state (read_current_state (state_file w))
                       (snapshot a e t (trading_stopped w))
         then (tt, w)
         else json_dump (snapshot a e t (trading_stopped w)) w.
Proof.
  unfold save_state, bind, get.
  fold (nothing_to_save a e t (trading_stopped w)).
  destruct (nothing_to_save a e t (trading_stopped w)); [reflexivity|].
  fold (snapshot a e t (trading_stopped w)).
  destruct (same_state _ _); reflexivity.
Qed.

Lemma same_state_refl (d : StateDict) :
  same_state (read_current_state (Some (Object d))) d = true.
Proof. apply same_state_true. reflexivity. Qed.

(** C10: the empty, zeroed, trading-enabled state is never written,
    whatever the file holds: [save_state] returns with the world, and so
    the file, as it was. *)
Theorem save_state_skips_empty_state (w : World) :
  trading_stopped w = false ->
  save_state [] 0%Z 0 w = (tt, w).
Proof.
  intro Hs. unfold save_state, bind, get. rewrite Hs. reflexivity.
Qed.

Lemma save_state_skips_empty_state_witness :
  trading_stopped (initial_world (Some Unparseable)) = false
  /\ save_state [] 0%Z 0 (initial_world (Some Unparseable))
     = (tt, initial_world (Some Unparseable)).
Proof.
  split; [reflexivity|].
  apply (save_state_skips_empty_state (initial_world (Some Unparseable))).
  reflexivity.
Defined.

(** C6: when the file already holds the snapshot of the arguments and of
    the trading flag, [save_state] writes nothing: the file and the log of
    writes stay as they were. *)
Theorem save_state_no_second_write a e t (w : World) :
  state_file w = Some (Object (snapshot a e t (trading_stopped w))) ->
  save_state a e t w = (tt, w).
Proof.
  intro Hf. rewrite save_state_run, Hf, same_state_refl.
  destruct (nothing_to_save a e t (trading_stopped w)); reflexivity.
Qed.

(** Saving twice in a row: the second call finds the world of the first
    and changes nothing. *)
Lemma save_state_twice a e t (w : World) :
  save_state a e t (exec (save_state a e t) w)
  = (tt, exec (save_state a e t) w).
Proof.
  unfold exec. rewrite (save_state_run a e t w).
  destruct (nothing_to_save a e t (trading_stopped w)) eqn:Hn; cbn [snd].
  - rewrite save_state_run, Hn. reflexivity.
  - destruct (same_state _ _) eqn:Hsame; cbn [snd].
    + rewrite save_state_run, Hn, Hsame. reflexivity.
    + rewrite save_state_run. cbn [json_dump snd trading_stopped state_file].
      rewrite Hn, same_state_refl. reflexivity.
Qed.

Lemma save_state_no_second_write_witness :
  state_file saved_world
  = Some (Object (snapshot [sample_order] 1%Z (decimal 76 1000)
                           (trading_stopped saved_world)))
  /\ save_state [sample_order] 1%Z (decimal 76 1000) saved_world = (tt, saved_world).
Proof.
  split; [reflexivity|].
  apply (save_state_no_second_write [sample_order] 1%Z (decimal 76 1000) saved_world).
  reflexivity.
Defined.

(** The file after [save_state]: as before, or the snapshot of the
    arguments. *)
Lemma save_state_file a e t (w : World) :
  state_file (exec (save_state a e t) w) = state_file w
  \/ state_file (exec (save_state a e t) w)
     = Some (Object (snapshot a e t (trading_stopped w))).
Proof.
  unfold exec.
  destruct (save_state_cases a e t w) as [-> | [_ ->]]; [left | right]; reflexivity.
Qed.

Lemma save_state_trading_stopped a e t (w : World) :
  trading_stopped (exec (save_state a e t) w) = trading_stopped w.
Proof.
  unfold exec.
  destruct (save_state_cases a e t w) as [-> | [_ ->]]; reflexivity.
Qed.

(** Unless the guard of lines 116-118 skips the call, the file holds the
    snapshot of the arguments once [save_state] returns. *)
Lemma save_state_persists a e t (w : World) :
  nothing_to_save a e t (trading_stopped w) = false ->
  state_file (exec (save_state a e t) w)
  = Some (Object (snapshot a e t (trading_stopped w))).
Proof.
  intro Hn. unfold exec, save_state, bind, get.
  fold (nothing_to_save a e t (trading_stopped w)). rewrite Hn.
  fold (snapshot a e t (trading_stopped w)).
  destruct (same_state _ _) eqn:Hsame; simpl; [|reflexivity].
  apply same_state_true in Hsame.
  apply read_current_state_snapshot, Hsame.
Qed.

Lemma load_state_snapshot a e t s (w : World) :
  state_file w = Some (Object (snapshot a e t s)) ->
  eval load_state w = mkBook a e t
  /\ trading_stopped (exec load_state w) = s.
Proof.
  intro Hf. unfold eval, exec, load_state, bind, get. rewrite Hf.
  split; reflexivity.
Qed.

(** C7, as amended: for every book other than the empty, zeroed,
    trading-enabled one, [save_state] followed by [load_state] gives back
    the active orders, the executed count, the total profit and the trading
    flag that were saved. *)
Theorem save_then_load_roundtrip a e t (w : World) :
  nothing_to_save a e t (trading_stopped w) = false ->
  eval (save_state a e t ;; load_state) w = mkBook a e t
  /\ trading_stopped (exec (save_state a e t ;; load_state) w) = trading_stopped w.
Proof.
  intro Hn. rewrite eval_bind, exec_bind.
  apply load_state_snapshot, save_state_persists, Hn.
Qed.

Lemma save_then_load_roundtrip_witness :
  nothing_to_save [sample_order] 0%Z 0 (trading_stopped (initial_world None)) = false
  /\ eval (save_state [sample_order] 0%Z 0 ;; load_state) (initial_world None)
     = mkBook [sample_order] 0%Z 0
  /\ trading_stopped
       (exec (save_state [sample_order] 0%Z 0 ;; load_state) (initial_world None))
     = trading_stopped (initial_world None).
Proof.
  split; [reflexivity|].
  apply (save_then_load_roundtrip [sample_order] 0%Z 0 (initial_world None)).
  reflexivity.
Defined.

(** C7, as stated, fails for the empty book: over a file that holds an
    order, saving the empty, zeroed, trading-enabled book writes nothing and
    loading returns the order of the file. *)
Lemma roundtrip_fails_for_empty_book :
  trading_stopped saved_world = false
  /\ eval (save_state [] 0%Z 0 ;; load_state) saved_world
     = mkBook [sample_order] 1%Z (decimal 76 1000)
  /\ eval (save_state [] 0%Z 0 ;; load_state) saved_world <> mkBook [] 0%Z 0.
Proof.
  split; [reflexivity|]. split; [reflexivity|].
  discriminate.
Qed.

(** ** Loading *)

(** A missing file: the empty book, and trading enabled. *)
Lemma load_state_missing_file (w : World) :
  state_file w = None ->
  eval load_state w = mkBook [] 0%Z 0
  /\ trading_stopped (exec load_state w) = false.
Proof.
  intro Hf. unfold eval, exec, load_state, bind, get. rewrite Hf.
  split; reflexivity.
Qed.

(** An unparseable file: the empty book, and every global as it was. *)
Lemma load_state_unparseable_file (w : World) :
  state_file w = Some Unparseable ->
  load_state w = (mkBook [] 0%Z 0, w).
Proof.
  intro Hf. unfold load_state, bind, get. rewrite Hf. reflexivity.
Qed.

(** At the start of [run_bot] the globals have their initial values, and a
    missing or unparseable file gives the empty book with trading enabled. *)
Lemma load_state_at_startup (file : option file_content) :
  file = None \/ file = Some Unparseable ->
  load_state (initial_world file) = (mkBook [] 0%Z 0, initial_world file).
Proof. intros [-> | ->]; reflexivity. Qed.

(** C9 at a stopped bot: over an unparseable file [load_state] returns the
    empty book but leaves [trading_stopped] at [true], where the branch for
    a missing file sets it to [false]. *)
Theorem load_state_unparseable_keeps_trading_stopped :
  eval load_state stopped_world_unparseable_file = mkBook [] 0%Z 0
  /\ trading_stopped (exec load_state stopped_world_unparseable_file) = true
  /\ trading_stopped
       (exec load_state (mkWorld false true [] None [] [])) = false.
Proof. repeat split. Qed.

(** ** Sorting by price *)

Lemma Qc_leb_le (x y : Qc) : Qc_leb x y = true <-> x <= y.
Proof. unfold Qc_leb, Qcle. apply Qle_bool_iff. Qed.

Lemma Qc_leb_gt (x y : Qc) : Qc_leb x y = false -> y < x.
Proof.
  intro H. apply Qcnot_le_lt. intro Hle.
  apply Qc_leb_le in Hle. congruence.
Qed.

Lemma Qc_ltb_lt (x y : Qc) : Qc_ltb x y = true <-> x < y.
Proof.
  unfold Qc_ltb. rewrite negb_true_iff. split.
  - apply Qc_leb_gt.
  - intro H. destruct (Qc_leb y x) eqn:E; [|reflexivity].
    apply Qc_leb_le in E. exfalso. exact (Qclt_not_le _ _ H E).
Qed.

Lemma Qc_eqb_eq (x y : Qc) : Qc_eqb x y = true <-> x = y.
Proof.
  unfold Qc_eqb. split.
  - apply Qc_eq_bool_correct.
  - intros ->. unfold Qc_eq_bool. destruct (Qc_eq_dec y y); [reflexivity | contradiction].
Qed.

Lemma insert_by_price_perm (o : Order) (l : list Order) :
  Permutation (o :: l) (insert_by_price o l).
Proof.
  induction l as [|x rest IH]; simpl.
  - apply Permutation_refl.
  - destruct (Qc_leb (price o) (price x)).
    + apply Permutation_refl.
    + eapply perm_trans; [apply perm_swap | apply perm_skip, IH].
Qed.

Lemma sort_by_price_perm (l : list Order) : Permutation l (sort_by_price l).
Proof.
  induction l as [|o rest IH]; simpl.
  - apply perm_nil.
  - eapply perm_trans; [apply perm_skip, IH | apply insert_by_price_perm].
Qed.

Lemma sort_by_price_In (l : list Order) (o : Order) :
  In o (sort_by_price l) <-> In o l.
Proof.
  split; apply Permutation_in;
    [apply Permutation_sym|]; apply sort_by_price_perm.
Qed.

Lemma insert_by_price_sorted (o : Order) (l : list Order) :
  price_sorted l -> price_sorted (insert_by_price o l).
Proof.
  induction l as [|x rest IH]; simpl; intro Hs.
  - constructor; constructor.
  - inversion Hs as [|? ? Hrest Hall]; subst.
    destruct (Qc_leb (price o) (price x)) eqn:E.
    + apply Qc_leb_le in E. constructor; [exact Hs|].
      constructor; [exact E|].
      eapply Forall_impl; [|exact Hall].
      intros y Hy. unfold price_le in *. eapply Qcle_trans; eassumption.
    + apply Qc_leb_gt, Qclt_le_weak in E.
      constructor; [apply IH, Hrest|].
      apply (Permutation_Forall (insert_by_price_perm o rest)).
      constructor; assumption.
Qed.

Lemma sort_by_price_sorted (l : list Order) : price_sorted (sort_by_price l).
Proof.
  induction l as [|o rest IH]; simpl.
  - constructor.
  - apply insert_by_price_sorted, IH.
Qed.

Lemma insert_by_price_at_price (p : Qc) (o : Order) (l : list Order) :
  filter (fun x => Qc_eqb (price x) p) (insert_by_price o l)
  = filter (fun x => Qc_eqb (price x) p) (o :: l).
Proof.
  induction l as [|x rest IH]; [reflexivity|].
  simpl insert_by_price.
  destruct (Qc_leb (price o) (price x)) eqn:E; [reflexivity|].
  simpl in *. rewrite IH.
  destruct (Qc_eqb (price o) p) eqn:Eo; [|reflexivity].
  destruct (Qc_eqb (price x) p) eqn:Ex; [|reflexivity].
  apply Qc_eqb_eq in Eo, Ex. rewrite Eo, Ex in E.
  assert (Hle : Qc_leb p p = true) by (apply Qc_leb_le, Qcle_refl).
  congruence.
Qed.

Lemma sort_by_price_stable (l : list Order) :
  same_order_at_equal_price l (sort_by_price l).
Proof.
  intro p. induction l as [|o rest IH]; [reflexivity|].
  simpl sort_by_price. rewrite insert_by_price_at_price.
  simpl. rewrite IH. reflexivity.
Qed.

Lemma price_sortedb_spec (l : list Order) :
  price_sortedb l = true <-> price_sorted l.
Proof.
  induction l as [|o rest IH]; simpl.
  - split; [constructor | reflexivity].
  - rewrite andb_true_iff, forallb_forall, IH. split.
    + intros [Hall Hs]. constructor; [exact Hs|].
      apply Forall_forall. intros x Hx. apply Qc_leb_le, Hall, Hx.
    + intro Hs. inversion Hs as [|? ? Hrest Hall]; subst. split; [|exact Hrest].
      intros x Hx. apply Qc_leb_le.
      exact (proj1 (Forall_forall _ _) Hall x Hx).
Qed.

(** In a price-sorted list the first order that satisfies a test is a
    cheapest one among those that satisfy it. *)
Lemma find_sorted_cheapest (f : Order -> bool) (l : list Order) (a : Order) :
  price_sorted l -> find f l = Some a ->
  forall o, In o l -> f o = true -> price a <= price o.
Proof.
  induction l as [|x rest IH]; simpl; intros Hs Hfind o Hin Hfo; [contradiction|].
  inversion Hs as [|? ? Hrest Hall]; subst.
  destruct (f x) eqn:Efx.
  - injection Hfind as <-. destruct Hin as [<- | Hin].
    + apply Qcle_refl.
    + exact (proj1 (Forall_forall _ _) Hall o Hin).
  - destruct Hin as [<- | Hin]; [congruence|].
    apply IH; assumption.
Qed.

(** ** The rotation step *)

Lemma autobay_count_perm (l l' : list Order) :
  Permutation l l' -> autobay_count l = autobay_count l'.
Proof.
  unfold autobay_count.
  induction 1 as [|x l l' _ IH|x y l|l l' l'' _ IH1 _ IH2]; simpl.
  - reflexivity.
  - destruct (is_autobay x); simpl; congruence.
  - destruct (is_autobay x), (is_autobay y); reflexivity.
  - congruence.
Qed.

Lemma autobay_count_cons (o : Order) (l : list Order) :
  autobay_count (o :: l)
  = ((if is_autobay o then 1 else 0) + autobay_count l)%nat.
Proof. unfold autobay_count. simpl. destruct (is_autobay o); reflexivity. Qed.

Lemma autobay_count_zero (l : list Order) (o : Order) :
  autobay_count l = 0%nat -> In o l -> is_autobay o = false.
Proof.
  induction l as [|x rest IH]; [contradiction|].
  rewrite autobay_count_cons. intros Hc [<- | Hin].
  - destruct (is_autobay x); [discriminate | reflexivity].
  - apply IH; [|exact Hin]. destruct (is_autobay x); [discriminate | exact Hc].
Qed.

(** The counter [flagautobay] misses the ['autobay'] orders whose poll
    failed; when there are none, it counts every surviving ['autobay']. *)
Lemma classify_flagautobay (fetch : string -> option string) (orders : list Order) :
  (forall o, In o orders -> is_autobay o = true -> fetch (id o) <> None) ->
  flagautobay (classify fetch orders)
  = autobay_count (updated_orders (classify fetch orders)).
Proof.
  induction orders as [|o rest IH]; intro Hpolled; [reflexivity|].
  assert (IH' := IH (fun x Hx => Hpolled x (or_intror Hx))).
  assert (Ho := Hpolled o (or_introl eq_refl)).
  simpl. destruct (fetch (id o)) as [status|].
  - destruct (String.eqb status "closed"); [exact IH'|].
    destruct (String.eqb status "canceled"); [exact IH'|].
    simpl. rewrite autobay_count_cons, IH'.
    destruct (is_autobay o); reflexivity.
  - simpl. rewrite autobay_count_cons.
    destruct (is_autobay o); [exfalso; apply Ho; reflexivity | exact IH'].
Qed.

Lemma keep_first_autobay_false_none (l : list Order) (a : Order) :
  In a (keep_first_autobay false l) -> is_autobay a = false.
Proof.
  induction l as [|o rest IH]; simpl; [contradiction|].
  destruct (is_autobay o) eqn:E; intros [<- | Hin]; auto.
Qed.

Lemma keep_first_autobay_false_count (l : list Order) :
  autobay_count (keep_first_autobay false l) = 0%nat.
Proof.
  induction l as [|o rest IH]; [reflexivity|]. simpl.
  destruct (is_autobay o) eqn:E; rewrite autobay_count_cons, IH.
  - reflexivity.
  - rewrite E. reflexivity.
Qed.

Lemma keep_first_autobay_count (l : list Order) :
  autobay_count l <> 0%nat ->
  autobay_count (keep_first_autobay true l) = 1%nat.
Proof.
  induction l as [|o rest IH]; [intro H; contradiction H; reflexivity|].
  rewrite autobay_count_cons. simpl. destruct (is_autobay o) eqn:E; intro Hc.
  - rewrite autobay_count_cons, E, keep_first_autobay_false_count. reflexivity.
  - rewrite autobay_count_cons, E. apply IH, Hc.
Qed.

Lemma keep_first_autobay_find (l : list Order) (a : Order) :
  In a (keep_first_autobay true l) -> is_autobay a = true ->
  find is_autobay l = Some a.
Proof.
  induction l as [|o rest IH]; simpl; [contradiction|].
  destruct (is_autobay o) eqn:E.
  - intros [<- | Hin] Ha; [reflexivity|].
    apply keep_first_autobay_false_none in Hin. congruence.
  - intros [<- | Hin] Ha; [congruence | apply IH; assumption].
Qed.


(** ** What the classification keeps and what it drops *)

(** The answer of the status poll for an order, as the loop of lines
    319-334 reads it. *)
Lemma classify_closed_In (fetch : string -> option string) (orders : list Order)
    (o : Order) :
  In o (closed_orders (classify fetch orders))
  <-> In o orders /\ fetch (id o) = Some "closed".
Proof.
  induction orders as [|x rest IH]; simpl; [tauto|].
  destruct (fetch (id x)) as [status|] eqn:Ex;
    [destruct (String.eqb_spec status "closed") as [->|Hc];
       [|destruct (String.eqb_spec status "canceled") as [->|Hx]]|];
    simpl; rewrite IH; intuition (subst; try congruence; auto).
Qed.

Lemma classify_canceled_In (fetch : string -> option string) (orders : list Order)
    (o : Order) :
  In o (canceled_orders (classify fetch orders))
  <-> In o orders /\ fetch (id o) = Some "canceled".
Proof.
  induction orders as [|x rest IH]; simpl; [tauto|].
  destruct (fetch (id x)) as [status|] eqn:Ex;
    [destruct (String.eqb_spec status "closed") as [->|Hc];
       [|destruct (String.eqb_spec status "canceled") as [->|Hx]]|];
    simpl; rewrite IH; intuition (subst; try congruence; auto).
Qed.

Lemma classify_updated_In (fetch : string -> option string) (orders : list Order)
    (o : Order) :
  In o (updated_orders (classify fetch orders))
  <-> In o orders /\ fetch (id o) <> Some "closed"
      /\ fetch (id o) <> Some "canceled".
Proof.
  induction orders as [|x rest IH]; simpl; [tauto|].
  destruct (fetch (id x)) as [status|] eqn:Ex;
    [destruct (String.eqb_spec status "closed") as [->|Hc];
       [|destruct (String.eqb_spec status "canceled") as [->|Hx]]|];
    simpl; rewrite IH; intuition (subst; try congruence; auto).
Qed.

(** The closed and the canceled orders are the orders reported so, each as
    often and in the order in which the book holds it. *)
Lemma classify_closed_filter (fetch : string -> option string) (orders : list Order) :
  closed_orders (classify fetch orders) = filter (reported fetch "closed") orders.
Proof.
  induction orders as [|x rest IH]; [reflexivity|].
  simpl. unfold reported at 1.
  destruct (fetch (id x)) as [status|]; [|exact IH].
  destruct (String.eqb status "closed"); simpl; [f_equal; exact IH|].
  destruct (String.eqb status "canceled"); exact IH.
Qed.

Lemma classify_canceled_filter (fetch : string -> option string) (orders : list Order) :
  canceled_orders (classify fetch orders) = filter (reported fetch "canceled") orders.
Proof.
  induction orders as [|x rest IH]; [reflexivity|].
  simpl. unfold reported at 1.
  destruct (fetch (id x)) as [status|]; [|exact IH].
  destruct (String.eqb_spec status "closed") as [->|Hc]; simpl; [exact IH|].
  destruct (String.eqb status "canceled"); simpl; [f_equal|]; exact IH.
Qed.

(** An order whose poll failed is among the survivors. *)
Lemma classify_keeps_failed_poll (fetch : string -> option string)
    (orders : list Order) (o : Order) :
  In o orders -> fetch (id o) = None ->
  In o (updated_orders (classify fetch orders))
  /\ ~ In o (closed_orders (classify fetch orders))
  /\ ~ In o (canceled_orders (classify fetch orders)).
Proof.
  intros Hin Hfail.
  rewrite classify_updated_In, classify_closed_In, classify_canceled_In.
  rewrite Hfail. repeat split; auto; try discriminate; intros [_ H]; discriminate.
Qed.

(** ** The rotation rewrites nothing but ['order_type'] *)

Lemma same_but_type_refl (o : Order) : same_but_type o o.
Proof. repeat split. Qed.

Lemma same_but_type_set (t : string) (o : Order) :
  same_but_type (set_order_type t o) o.
Proof. repeat split. Qed.

Lemma promote_first_pointwise (l : list Order) :
  Forall2 same_but_type (promote_first l) l.
Proof.
  destruct l as [|o rest]; simpl; constructor.
  - apply same_but_type_set.
  - induction rest; constructor; auto using same_but_type_refl.
Qed.

Lemma keep_first_autobay_pointwise (first : bool) (l : list Order) :
  Forall2 same_but_type (keep_first_autobay first l) l.
Proof.
  revert first. induction l as [|o rest IH]; intro first; simpl.
  - constructor.
  - destruct (is_autobay o); [destruct first|]; constructor;
      auto using same_but_type_refl, same_but_type_set.
Qed.

Lemma Forall2_In_left {A B} (R : A -> B -> Prop) (l1 : list A) (l2 : list B) (x : A) :
  Forall2 R l1 l2 -> In x l1 -> exists y, In y l2 /\ R x y.
Proof.
  induction 1 as [|a b l1 l2 Hab _ IH]; simpl; [contradiction|].
  intros [<- | Hin]; [exists b; auto|].
  destruct (IH Hin) as [y [Hy Hxy]]. exists y; auto.
Qed.

Lemma Forall2_In_right {A B} (R : A -> B -> Prop) (l1 : list A) (l2 : list B) (y : B) :
  Forall2 R l1 l2 -> In y l2 -> exists x, In x l1 /\ R x y.
Proof.
  induction 1 as [|a b l1 l2 Hab _ IH]; simpl; [contradiction|].
  intros [<- | Hin]; [exists a; auto|].
  destruct (IH Hin) as [x [Hx Hxy]]. exists x; auto.
Qed.

(** The rotated list is a permutation of the survivors in which some
    orders have changed type. *)
Lemma rotation_pointwise (n : nat) (l : list Order) :
  exists l', Permutation l l' /\ Forall2 same_but_type (rotation n l) l'.
Proof.
  unfold rotation.
  destruct (Nat.eqb n 0 && negb (is_empty l)).
  - exists (sort_by_price l). split;
      [apply sort_by_price_perm | apply promote_first_pointwise].
  - destruct (Nat.ltb 1 n).
    + exists (sort_by_price l). split;
        [apply sort_by_price_perm | apply keep_first_autobay_pointwise].
    + exists l. split; [apply Permutation_refl|].
      induction l; constructor; auto using same_but_type_refl.
Qed.

Lemma rotation_In_survivor (n : nat) (l : list Order) (x : Order) :
  In x (rotation n l) -> exists y, In y l /\ same_but_type x y.
Proof.
  intro Hx. destruct (rotation_pointwise n l) as [l' [Hperm Hpt]].
  destruct (Forall2_In_left _ _ _ _ Hpt Hx) as [y [Hy Hxy]].
  exists y. split; [|exact Hxy].
  apply (Permutation_in _ (Permutation_sym Hperm)), Hy.
Qed.

Lemma rotation_keeps_survivor (n : nat) (l : list Order) (y : Order) :
  In y l -> exists x, In x (rotation n l) /\ same_but_type x y.
Proof.
  intro Hy. destruct (rotation_pointwise n l) as [l' [Hperm Hpt]].
  apply (Permutation_in _ Hperm) in Hy.
  exact (Forall2_In_right _ _ _ _ Hpt Hy).
Qed.


(** ** The notification queue only grows *)

#[export] Instance queue_grows_by_preorder (allowed : notification -> bool) :
  PreOrder (queue_grows_by allowed).
Proof.
  split.
  - intro w. exists []. split; [symmetry; apply app_nil_r | reflexivity].
  - intros w1 w2 w3 [m1 [H1 A1]] [m2 [H2 A2]]. exists (m1 ++ m2). split.
    + rewrite H2, H1. symmetry. apply app_assoc.
    + rewrite forallb_app, A1, A2. reflexivity.
Qed.

Ltac grows_prim :=
  solve [ assumption
        | intro; exists []; split; [symmetry; apply app_nil_r | reflexivity]
        | intro; eexists; split; reflexivity ].

Section Quiet.
Variable allowed : notification -> bool.
Hypothesis allowed_order_creation :
  forall n, not_a_settlement n = true -> allowed n = true.

Lemma grows_save_notification (n : notification) :
  not_a_settlement n = true -> keeps (queue_grows_by allowed) (save_notification n).
Proof.
  intros Hn w. exists [n]. split; [reflexivity|].
  simpl. rewrite (allowed_order_creation n Hn). reflexivity.
Qed.

Ltac quiet_prim :=
  first [ apply grows_save_notification; reflexivity | grows_prim ].

Lemma grows_buy_attempts reply attempts :
  keeps (queue_grows_by allowed) (buy_attempts reply attempts).
Proof.
  induction attempts as [|n rest IH]; simpl; keeps_steps quiet_prim.
Qed.

Lemma grows_sell_attempts reply attempts :
  keeps (queue_grows_by allowed) (sell_attempts reply attempts).
Proof.
  induction attempts as [|n rest IH]; simpl; keeps_steps quiet_prim.
Qed.

Lemma grows_save_state a e t : keeps (queue_grows_by allowed) (save_state a e t).
Proof. unfold save_state. keeps_steps quiet_prim. Qed.

Lemma grows_create_new_order env book role :
  keeps (queue_grows_by allowed) (create_new_order env book role).
Proof.
  unfold create_new_order, sell_bought, notify_insufficient_funds,
    create_buy_order, create_sell_order.
  keeps_steps ltac:(first [ apply grows_buy_attempts | apply grows_sell_attempts
                          | quiet_prim ]).
Qed.


End Quiet.


(** ** Order creation *)

Lemma decisive_not_rate_limit {A} (reply : nat -> attempt A) :
  decisive reply <> Some RateLimitExceeded.
Proof.
  unfold decisive. intro H. apply find_some in H. destruct H as [_ H]. discriminate.
Qed.

(** [create_buy_order], by the first attempt that is not rate-limited. *)
Lemma create_buy_order_run
    (env : CreateEnv) (amount : Qc) (w : World) :
  create_buy_order env amount w
  = match decisive (market_buy env amount) with
    | Some (Placed purchase) =>
        (Some purchase, exec (set_insufficient_funds_notified false) w)
    | Some InsufficientFunds =>
        (None,
         if insufficient_funds_notified w then w
         else exec (set_insufficient_funds_notified true)
                   (enqueue [BuyInsufficientFundsMsg] w))
    | Some OrderNotFound => (None, enqueue [OrderNotFoundMsg] w)
    | Some (OtherError e) => (None, enqueue [BuyErrorMsg e] w)
    | Some RateLimitExceeded | None => (None, w)
    end.
Proof.
  unfold create_buy_order, decisive. simpl seq. simpl map.
  set (reply := market_buy env amount).
  assert (Hstep : forall rest,
    buy_attempts reply [] w = (None, w)
    /\ forall n, reply n <> RateLimitExceeded ->
       buy_attempts reply (n :: rest) w
       = match reply n with
         | Placed purchase => (Some purchase, exec (set_insufficient_funds_notified false) w)
         | InsufficientFunds =>
             (None,
              if insufficient_funds_notified w then w
              else exec (set_insufficient_funds_notified true)
                        (enqueue [BuyInsufficientFundsMsg] w))
         | OrderNotFound => (None, enqueue [OrderNotFoundMsg] w)
         | OtherError e => (None, enqueue [BuyErrorMsg e] w)
         | RateLimitExceeded => (None, w)
         end).
  { intro rest. split; [reflexivity|]. intros n Hn. simpl.
    destruct (reply n); try contradiction; try reflexivity.
    unfold bind, get. destruct (insufficient_funds_notified w); reflexivity. }
  assert (Hskip : forall rest n, reply n = RateLimitExceeded ->
            buy_attempts reply (n :: rest) w = buy_attempts reply rest w).
  { intros rest n Hn. simpl. rewrite Hn. reflexivity. }
  simpl find.
  destruct (reply 0%nat) eqn:E0;
    try (rewrite (proj2 (Hstep _) 0%nat) by congruence; rewrite E0; reflexivity).
  rewrite (Hskip _ 0%nat E0).
  destruct (reply 1%nat) eqn:E1;
    try (rewrite (proj2 (Hstep _) 1%nat) by congruence; rewrite E1; reflexivity).
  rewrite (Hskip _ 1%nat E1).
  destruct (reply 2%nat) eqn:E2;
    try (rewrite (proj2 (Hstep _) 2%nat) by congruence; rewrite E2; reflexivity).
  rewrite (Hskip _ 2%nat E2). reflexivity.
Qed.

Lemma create_sell_order_run
    (env : CreateEnv) (amount price : Qc) (w : World) :
  create_sell_order env amount price w
  = match decisive (limit_sell env amount price) with
    | Some (Placed sell_id) =>
        (Some sell_id, exec (set_insufficient_funds_notified false) w)
    | Some InsufficientFunds =>
        (None,
         if insufficient_funds_notified w then w
         else exec (set_insufficient_funds_notified true)
                   (enqueue [SellInsufficientFundsMsg] w))
    | Some OrderNotFound => (None, enqueue [OrderNotFoundMsg] w)
    | Some (OtherError e) => (None, enqueue [SellErrorMsg e] w)
    | Some RateLimitExceeded | None => (None, w)
    end.
Proof.
  unfold create_sell_order, decisive. simpl seq. simpl map.
  set (reply := limit_sell env amount price).
  assert (Hstep : forall rest n, reply n <> RateLimitExceeded ->
       sell_attempts reply (n :: rest) w
       = match reply n with
         | Placed sell_id =>
             (Some sell_id, exec (set_insufficient_funds_notified false) w)
         | InsufficientFunds =>
             (None,
              if insufficient_funds_notified w then w
              else exec (set_insufficient_funds_notified true)
                        (enqueue [SellInsufficientFundsMsg] w))
         | OrderNotFound => (None, enqueue [OrderNotFoundMsg] w)
         | OtherError e => (None, enqueue [SellErrorMsg e] w)
         | RateLimitExceeded => (None, w)
         end).
  { intros rest n Hn. simpl.
    destruct (reply n); try contradiction; try reflexivity.
    unfold bind, get. destruct (insufficient_funds_notified w); reflexivity. }
  assert (Hskip : forall rest n, reply n = RateLimitExceeded ->
            sell_attempts reply (n :: rest) w = sell_attempts reply rest w).
  { intros rest n Hn. simpl. rewrite Hn. reflexivity. }
  simpl find.
  destruct (reply 0%nat) eqn:E0;
    try (rewrite (Hstep _ 0%nat) by congruence; rewrite E0; reflexivity).
  rewrite (Hskip _ 0%nat E0).
  destruct (reply 1%nat) eqn:E1;
    try (rewrite (Hstep _ 1%nat) by congruence; rewrite E1; reflexivity).
  rewrite (Hskip _ 1%nat E1).
  destruct (reply 2%nat) eqn:E2;
    try (rewrite (Hstep _ 2%nat) by congruence; rewrite E2; reflexivity).
  rewrite (Hskip _ 2%nat E2). reflexivity.
Qed.

(** What the part of [create_new_order] after the buy returns. *)
Lemma sell_bought_eval (env : CreateEnv) (book : Book) (role : string)
    (purchase : Purchase) (w : World) :
  eval (sell_bought env book role purchase) w
  = match sale_of env purchase with
    | Created fill sell_id =>
        Return (mkBook (active_orders book ++ [booked_order fill sell_id role])
                       (executed_orders_count book) (total_profit book))
    | NotCreated => Return book
    | CreationRaises e => Raise e
    end.
Proof.
  unfold sell_bought, sale_of.
  destruct (purchase_average purchase) as [average|]; [|reflexivity].
  destruct (purchase_amount purchase) as [amount|]; [|reflexivity].
  cbv zeta. rewrite !eval_bind. unfold eval at 2, exec at 1.
  rewrite create_sell_order_run.
  destruct (decisive (limit_sell env _ _)) as [[sell_id| | | |e]|]; cbn [fst snd];
    try (destruct (insufficient_funds_notified _)); reflexivity.
Qed.

(** What [create_new_order] returns or raises, whatever the globals. *)
Lemma create_new_order_eval (env : CreateEnv) (book : Book) (role : string)
    (w : World) :
  eval (create_new_order env book role) w
  = match creation_of env with
    | Created fill sell_id =>
        Return (mkBook (active_orders book ++ [booked_order fill sell_id role])
                       (executed_orders_count book) (total_profit book))
    | NotCreated => Return book
    | CreationRaises e => Raise e
    end.
Proof.
  unfold create_new_order, creation_of. rewrite eval_bind.
  destruct (load_markets env) as [[]|e]; [|reflexivity].
  destruct (ticker_last env) as [last|e]; [|reflexivity].
  destruct (free_balance env) as [[balance|]|e]; try reflexivity.
  destruct (Qc_ltb balance order_size); [rewrite eval_bind; reflexivity|].
  rewrite eval_bind.
  destruct last as [last|]; [|reflexivity].
  destruct (Qc_eqb last 0); [reflexivity|].
  cbv zeta. rewrite eval_bind. unfold eval at 2, exec at 1.
  rewrite create_buy_order_run.
  destruct (decisive (market_buy env (fdiv order_size last)))
    as [[purchase| | | |e]|]; cbn [fst snd];
    try (destruct (insufficient_funds_notified _)); try reflexivity.
  apply sell_bought_eval.
Qed.

(** What [create_new_order] returns, when it returns: the book it was
    given, or that book with one order of the requested type appended at the
    end. *)
Lemma create_new_order_book (env : CreateEnv) (book : Book) (role : string)
    (w : World) (created : Book) :
  eval (create_new_order env book role) w = Return created ->
  executed_orders_count created = executed_orders_count book
  /\ total_profit created = total_profit book
  /\ (active_orders created = active_orders book
      \/ exists new, active_orders created = active_orders book ++ [new]
                     /\ order_type new = role).
Proof.
  rewrite create_new_order_eval.
  destruct (creation_of env) as [fill sell_id| |e]; intro H;
    [injection H as <- | injection H as <- | discriminate].
  - repeat split. right. eexists. split; reflexivity.
  - repeat split. left. reflexivity.
Qed.

(** ** The rotation, seen from [active_orders] *)

Lemma map_snd_combine_seq {A} (l : list A) (n : nat) :
  map snd (combine (seq n (List.length l)) l) = l.
Proof.
  revert n. induction l as [|x rest IH]; intro n; [reflexivity|].
  simpl. rewrite IH. reflexivity.
Qed.

Lemma map_snd_cells (l : list Order) : map snd (cells l) = l.
Proof. apply map_snd_combine_seq. Qed.

Lemma In_combine_seq {A} (l : list A) (n i : nat) (x : A) :
  In (i, x) (combine (seq n (List.length l)) l) ->
  (n <= i)%nat /\ nth_error l (i - n) = Some x.
Proof.
  revert n. induction l as [|y rest IH]; intro n; simpl; [contradiction|].
  intros [H | H].
  - injection H as <- <-. split; [lia|]. rewrite Nat.sub_diag. reflexivity.
  - destruct (IH (S n) H) as [Hle Hnth]. split; [lia|].
    replace (i - n)%nat with (S (i - S n)) by lia. exact Hnth.
Qed.

(** A position holds one order. *)
Lemma cells_unique (l : list Order) (c1 c2 : Cell) :
  In c1 (cells l) -> In c2 (cells l) -> fst c1 = fst c2 -> c1 = c2.
Proof.
  destruct c1 as [i1 o1], c2 as [i2 o2]. unfold cells. simpl.
  intros H1 H2 <-.
  apply In_combine_seq in H1. apply In_combine_seq in H2.
  destruct H1 as [_ H1], H2 as [_ H2]. f_equal. congruence.
Qed.

(** The cells that the rotation works on hold the orders of
    [updated_orders], in their order. *)
Lemma updated_cells (fetch : string -> option string) (l : list Order) :
  map snd (filter (fun c => in_updated_orders fetch (snd c)) (cells l))
  = updated_orders (classify fetch l).
Proof.
  unfold cells. generalize 0%nat.
  induction l as [|o rest IH]; intro n; [reflexivity|].
  simpl. unfold in_updated_orders at 1. simpl snd.
  destruct (fetch (id o)) as [status|]; [|simpl; f_equal; apply IH].
  destruct (String.eqb status "closed"); [apply IH|].
  destruct (String.eqb status "canceled"); [apply IH|].
  simpl. f_equal. apply IH.
Qed.

Lemma insert_cell_values (c : Cell) (l : list Cell) :
  map snd (insert_cell c l) = insert_by_price (snd c) (map snd l).
Proof.
  induction l as [|x rest IH]; [reflexivity|].
  simpl. destruct (Qc_leb (price (snd c)) (price (snd x))); simpl;
    [reflexivity | rewrite IH; reflexivity].
Qed.

Lemma sort_cells_values (l : list Cell) :
  map snd (sort_cells l) = sort_by_price (map snd l).
Proof.
  induction l as [|c rest IH]; [reflexivity|].
  simpl. rewrite insert_cell_values, IH. reflexivity.
Qed.

Lemma keep_first_autobay_cell_values (first : bool) (l : list Cell) :
  map snd (keep_first_autobay_cell first l) = keep_first_autobay first (map snd l).
Proof.
  revert first. induction l as [|c rest IH]; intro first; [reflexivity|].
  simpl. destruct (is_autobay (snd c)); [destruct first|]; simpl;
    rewrite IH; reflexivity.
Qed.

(** On the orders, the rotation of the cells is the rotation of
    [updated_orders]. *)
Lemma rotation_cells_values (n : nat) (l : list Cell) :
  map snd (rotation_cells n l) = rotation n (map snd l).
Proof.
  unfold rotation_cells, rotation.
  replace (is_empty (map snd l)) with (is_empty l) by (destruct l; reflexivity).
  destruct (Nat.eqb n 0 && negb (is_empty l)).
  - rewrite <- sort_cells_values. destruct (sort_cells l); reflexivity.
  - destruct (Nat.ltb 1 n); [|reflexivity].
    rewrite keep_first_autobay_cell_values, sort_cells_values. reflexivity.
Qed.

Lemma insert_cell_In (c x : Cell) (l : list Cell) :
  In x (insert_cell c l) <-> x = c \/ In x l.
Proof.
  induction l as [|y rest IH]; simpl; [intuition|].
  destruct (Qc_leb (price (snd c)) (price (snd y))); simpl; [intuition|].
  rewrite IH. intuition.
Qed.

Lemma sort_cells_In (x : Cell) (l : list Cell) :
  In x (sort_cells l) <-> In x l.
Proof.
  induction l as [|c rest IH]; simpl; [reflexivity|].
  rewrite insert_cell_In, IH. intuition.
Qed.

Lemma retyped_refl (c : Cell) : retyped c c.
Proof. split; [reflexivity | apply same_but_type_refl]. Qed.

Lemma keep_first_autobay_cell_from (first : bool) (l : list Cell) (c' : Cell) :
  In c' (keep_first_autobay_cell first l) -> exists c, In c l /\ retyped c c'.
Proof.
  revert first. induction l as [|x rest IH]; intro first; simpl; [contradiction|].
  assert (Hrest : forall b, In c' (keep_first_autobay_cell b rest) ->
                            exists c, (x = c \/ In c rest) /\ retyped c c').
  { intros b H. destruct (IH b H) as [c [Hc Hr]]. exists c. auto. }
  destruct (is_autobay (snd x)); [destruct first|]; intros [<- | H];
    try (apply (Hrest _ H));
    exists x; (split; [left; reflexivity|]);
    first [ apply retyped_refl
          | split; [reflexivity | apply same_but_type_set] ].
Qed.

Lemma rotation_cells_from (n : nat) (l : list Cell) (c' : Cell) :
  In c' (rotation_cells n l) -> exists c, In c l /\ retyped c c'.
Proof.
  unfold rotation_cells.
  destruct (Nat.eqb n 0 && negb (is_empty l)).
  - destruct (sort_cells l) as [|x rest] eqn:Hsort; simpl; [contradiction|].
    assert (Hin : forall c, In c (x :: rest) -> In c l)
      by (intros c Hc; apply sort_cells_In; rewrite Hsort; exact Hc).
    intros [<- | H].
    + exists x. split; [apply Hin; left; reflexivity|].
      split; [reflexivity | apply same_but_type_set].
    + exists c'. split; [apply Hin; right; exact H | apply retyped_refl].
  - destruct (Nat.ltb 1 n).
    + intro H. destruct (keep_first_autobay_cell_from _ _ _ H) as [c [Hc Hr]].
      exists c. split; [apply sort_cells_In, Hc | exact Hr].
    + intro H. exists c'. split; [exact H | apply retyped_refl].
Qed.

Lemma Forall2_map_both {A B C} (R : B -> C -> Prop) (f : A -> B) (g : A -> C)
    (l : list A) :
  (forall x, In x l -> R (f x) (g x)) -> Forall2 R (map f l) (map g l).
Proof.
  induction l as [|x rest IH]; intro H; simpl; constructor.
  - apply H. left. reflexivity.
  - apply IH. intros y Hy. apply H. right. exact Hy.
Qed.

Lemma write_back_pointwise (changed : list Cell) (l : list Order) :
  (forall c', In c' changed -> exists c, In c (cells l) /\ retyped c c') ->
  Forall2 same_but_type (write_back changed l) l.
Proof.
  intro Hchanged. unfold write_back.
  rewrite <- (map_snd_cells l) at 2.
  apply Forall2_map_both. intros c Hc.
  destruct (find (fun c' => Nat.eqb (fst c') (fst c)) changed) as [c'|] eqn:Hfind;
    [|apply same_but_type_refl].
  apply find_some in Hfind. destruct Hfind as [Hin Htag].
  apply Nat.eqb_eq in Htag.
  destruct (Hchanged c' Hin) as [c0 [Hc0 [Hfst Hsame]]].
  assert (c0 = c) by (apply (cells_unique l); [exact Hc0 | exact Hc | congruence]).
  subst c0. exact Hsame.
Qed.

(** Seen from [active_orders], the rotation moves no order and rewrites
    nothing but ['order_type']. *)
Lemma rotated_in_place_pointwise (fetch : string -> option string) (n : nat)
    (l : list Order) :
  Forall2 same_but_type (rotated_in_place fetch n l) l.
Proof.
  unfold rotated_in_place. apply write_back_pointwise.
  intros c' Hc'. destruct (rotation_cells_from _ _ _ Hc') as [c [Hc Hr]].
  exists c. split; [|exact Hr]. apply filter_In in Hc. apply Hc.
Qed.

Lemma write_back_nothing (l : list Order) : write_back [] l = l.
Proof. unfold write_back. simpl. apply map_snd_cells. Qed.

Lemma rotation_cells_nil (n : nat) : rotation_cells n [] = [].
Proof. unfold rotation_cells. destruct n as [|[|n]]; reflexivity. Qed.

(** With no order left in [updated_orders] the rotation changes nothing. *)
Lemma rotated_in_place_no_survivor (fetch : string -> option string) (n : nat)
    (l : list Order) :
  updated_orders (classify fetch l) = [] -> rotated_in_place fetch n l = l.
Proof.
  intro Hnone. unfold rotated_in_place.
  rewrite <- updated_cells in Hnone.
  destruct (filter (fun c => in_updated_orders fetch (snd c)) (cells l));
    [|discriminate].
  rewrite rotation_cells_nil. apply write_back_nothing.
Qed.

(** ** Reconciliation *)

Lemma save_notification_enqueue n w : save_notification n w = (tt, enqueue [n] w).
Proof. reflexivity. Qed.

Lemma enqueue_enqueue l1 l2 w : enqueue l2 (enqueue l1 w) = enqueue (l1 ++ l2) w.
Proof. unfold enqueue. simpl. rewrite app_assoc. reflexivity. Qed.

Lemma enqueue_nothing w : enqueue [] w = w.
Proof. unfold enqueue. rewrite app_nil_r. destruct w; reflexivity. Qed.

Lemma settle_closed_run closed e t w :
  settle_closed closed e t w
  = ((e + Z.of_nat (List.length closed))%Z, add_profits closed t,
     enqueue (map (fun o => ExecutedMsg o (profit_of o)) closed) w).
Proof.
  revert e t w. induction closed as [|o rest IH]; intros e t w.
  - simpl. unfold ret. rewrite enqueue_nothing, Z.add_0_r. reflexivity.
  - simpl settle_closed. unfold bind. rewrite save_notification_enqueue.
    rewrite IH, enqueue_enqueue. simpl map. simpl app.
    unfold add_profits. simpl fold_left.
    f_equal. f_equal. simpl List.length. lia.
Qed.

Lemma report_canceled_run canceled w :
  report_canceled canceled w
  = (tt, enqueue (map (fun o => CanceledMsg (id o)) canceled) w).
Proof.
  revert w. induction canceled as [|o rest IH]; intro w.
  - simpl. unfold ret. rewrite enqueue_nothing. reflexivity.
  - simpl report_canceled. unfold bind. rewrite save_notification_enqueue.
    rewrite IH, enqueue_enqueue. reflexivity.
Qed.

Lemma check_orders_run (env : CheckEnv) (book : Book) (ic : bool) (w : World) :
  let p := classify (fetch_order env) (active_orders book) in
  check_orders env book ic w
  = finish_check env (active_orders book) p
      (executed_orders_count book + Z.of_nat (List.length (closed_orders p)))%Z
      (add_profits (closed_orders p) (total_profit book)) ic
      (enqueue (loop_notifications p ic) w).
Proof.
  intro p. unfold check_orders. fold p.
  rewrite bind_run. cbv beta.
  assert (Hstart : exec (if ic then save_notification CheckStartedMsg else ret tt) w
                   = enqueue (if ic then [CheckStartedMsg] else []) w).
  { destruct ic; [reflexivity|]. unfold exec, ret. simpl.
    rewrite enqueue_nothing. reflexivity. }
  rewrite Hstart. rewrite bind_run. cbv beta. unfold eval, exec.
  rewrite settle_closed_run. cbn [fst snd].
  rewrite bind_run. cbv beta. unfold eval, exec.
  rewrite report_canceled_run. cbn [fst snd].
  rewrite !enqueue_enqueue. unfold loop_notifications.
  reflexivity.
Qed.

Lemma rotation_nil (n : nat) : rotation n [] = [].
Proof. unfold rotation. destruct n as [|[|n]]; reflexivity. Qed.

#[export] Instance same_preorder {X} (f : World -> X) : PreOrder (same f).
Proof.
  split.
  - intro w. reflexivity.
  - intros w1 w2 w3 H1 H2. unfold same in *. congruence.
Qed.

Ltac same_prim := solve [ assumption | intro; reflexivity ].

Lemma creations_buy_attempts reply attempts :
  keeps (same creations) (buy_attempts reply attempts).
Proof. induction attempts as [|n rest IH]; simpl; keeps_steps same_prim. Qed.

Lemma creations_sell_attempts reply attempts :
  keeps (same creations) (sell_attempts reply attempts).
Proof. induction attempts as [|n rest IH]; simpl; keeps_steps same_prim. Qed.

Lemma creations_save_state a e t : keeps (same creations) (save_state a e t).
Proof. unfold save_state. keeps_steps same_prim. Qed.

(** Every call of [create_new_order] is recorded once, with its role,
    whether it returns or raises. *)
Lemma create_new_order_creations (env : CreateEnv) (book : Book) (role : string)
    (w : World) :
  creations (exec (create_new_order env book role) w) = creations w ++ [role].
Proof.
  unfold create_new_order. rewrite exec_bind. cbv beta.
  match goal with |- creations (exec ?m ?w1) = _ =>
    assert (Hrest : keeps (same creations) m) end.
  { unfold sell_bought, notify_insufficient_funds, create_buy_order,
      create_sell_order.
    keeps_steps ltac:(first [ apply creations_buy_attempts
                            | apply creations_sell_attempts | same_prim ]). }
  rewrite Hrest. reflexivity.
Qed.

(** What [finish_check] returns and the calls of [create_new_order] that it
    makes, for the partition of the book. *)
Lemma finish_check_result (env : CheckEnv) (book : Book) (e : Z) (t : Qc)
    (ic : bool) (w : World) :
  let p := classify (fetch_order env) (active_orders book) in
  let replenish := replenishes p ic (trading_stopped w) in
  eval (finish_check env (active_orders book) p e t ic) w
  = mkBook (if replenish then replenished env book
            else carried_over env book (trading_stopped w)) e t
  /\ creations (exec (finish_check env (active_orders book) p e t ic) w)
     = creations w ++ (if replenish then ["autobay"] else []).
Proof.
  intros p replenish. subst replenish.
  unfold replenishes, replenished, carried_over, finish_check. fold p. run.
  assert (Hnote : forall x, creations (exec (save_notification CheckFinishedMsg) x)
                            = creations x) by reflexivity.
  destruct (trading_stopped w) eqn:Hstopped; destruct ic;
    destruct (is_empty (updated_orders p)) eqn:Hempty;
    destruct (autobay_needed p) eqn:Hneeded;
    cbn [negb andb]; unfold save_book; run;
    rewrite ?create_new_order_eval, ?Hnote, ?creations_save_state,
      ?create_new_order_creations, ?creations_save_state, ?app_nil_r;
    try (split; reflexivity);
    try (assert (Hnil : updated_orders p = [])
           by (destruct (updated_orders p); [reflexivity | discriminate]);
         rewrite (rotated_in_place_no_survivor _ _ _ Hnil), Hnil, rotation_nil);
    destruct (creation_of (on_create env)) as [fill sell_id| |err];
    run; rewrite ?Hnote, ?creations_save_state, ?create_new_order_creations,
           ?creations_save_state, ?app_nil_r;
    split; reflexivity.
Qed.

Lemma check_orders_result (env : CheckEnv) (book : Book) (ic : bool) (w : World) :
  let p := classify (fetch_order env) (active_orders book) in
  let replenish := replenishes p ic (trading_stopped w) in
  eval (check_orders env book ic) w
  = mkBook (if replenish then replenished env book
            else carried_over env book (trading_stopped w))
           (executed_orders_count book + Z.of_nat (List.length (closed_orders p)))%Z
           (add_profits (closed_orders p) (total_profit book))
  /\ creations (exec (check_orders env book ic) w)
     = creations w ++ (if replenish then ["autobay"] else []).
Proof.
  intros p replenish. unfold eval, exec.
  rewrite (check_orders_run env book ic w). fold p.
  apply (finish_check_result env book _ _ ic (enqueue (loop_notifications p ic) w)).
Qed.

(** ** Closed, canceled and unanswered orders *)

Lemma carried_over_survivor (env : CheckEnv) (book : Book) (stopped : bool)
    (x : Order) :
  In x (carried_over env book stopped) ->
  exists y, In y (updated_orders (classify (fetch_order env) (active_orders book)))
            /\ same_but_type x y.
Proof.
  unfold carried_over. destruct stopped.
  - intro Hx. exists x. split; [exact Hx | apply same_but_type_refl].
  - apply rotation_In_survivor.
Qed.

(** The counters and the orders that [check_orders] returns. *)
Lemma check_orders_book (env : CheckEnv) (book : Book) (ic : bool) (w : World) :
  let p := classify (fetch_order env) (active_orders book) in
  let carried := carried_over env book (trading_stopped w) in
  let after := eval (check_orders env book ic) w in
  executed_orders_count after
  = (executed_orders_count book + Z.of_nat (List.length (closed_orders p)))%Z
  /\ total_profit after = add_profits (closed_orders p) (total_profit book)
  /\ (if ends_in_except_arm env book ic (trading_stopped w) then
        active_orders after
        = rotated_in_place (fetch_order env) (flagautobay p) (active_orders book)
      else
        active_orders after = carried
        \/ exists new, active_orders after = carried ++ [new]
                       /\ order_type new = "autobay").
Proof.
  intros p carried after. subst after carried.
  destruct (check_orders_result env book ic w) as [-> _]. fold p.
  cbn [executed_orders_count total_profit active_orders].
  split; [reflexivity|]. split; [reflexivity|].
  unfold ends_in_except_arm, creation_error, replenished. fold p.
  destruct (replenishes p ic (trading_stopped w)) eqn:Hrep; cbn [andb].
  - assert (Hs : trading_stopped w = false).
    { unfold replenishes in Hrep. destruct (trading_stopped w);
        [discriminate | reflexivity]. }
    rewrite Hs.
    destruct (creation_of (on_create env)) as [fill sell_id| |e]; cbn [is_none negb].
    + right. eexists. split; reflexivity.
    + left. reflexivity.
    + reflexivity.
  - left. reflexivity.
Qed.

(** The orders that [check_orders] returns are orders of the book it was
    given, with at most their type rewritten, and possibly one new order. *)
Lemma check_orders_keeps (env : CheckEnv) (book : Book) (ic : bool) (w : World)
    (o : Order) :
  In o (updated_orders (classify (fetch_order env) (active_orders book))) ->
  exists o', In o' (active_orders (eval (check_orders env book ic) w))
             /\ same_but_type o' o.
Proof.
  intro Hu.
  assert (Hin : In o (active_orders book)) by (apply classify_updated_In in Hu; tauto).
  destruct (check_orders_book env book ic w) as [_ [_ Ha]]. cbv zeta in Ha.
  destruct (ends_in_except_arm env book ic (trading_stopped w)).
  - rewrite Ha.
    exact (Forall2_In_right _ _ _ _ (rotated_in_place_pointwise _ _ _) Hin).
  - assert (Hcarried : exists o', In o' (carried_over env book (trading_stopped w))
                                  /\ same_but_type o' o).
    { unfold carried_over. destruct (trading_stopped w).
      - exists o. split; [exact Hu | apply same_but_type_refl].
      - apply rotation_keeps_survivor, Hu. }
    destruct Hcarried as [o' [Ho' Hsame]]. exists o'. split; [|exact Hsame].
    destruct Ha as [-> | [new [-> _]]]; [|apply in_or_app; left]; exact Ho'.
Qed.



(** C8, as amended: an order whose poll fails is neither closed nor
    canceled; it survives the pass with its id, amount, price and buy price,
    and only its ['order_type'] may be rewritten, by the rotation.  With
    trading stopped it is returned as it was. *)
Theorem check_orders_keeps_failed_poll
    (env : CheckEnv) (book : Book) (initial_check : bool) (w : World) (o : Order) :
  In o (active_orders book) ->
  fetch_order env (id o) = None ->
  let p := classify (fetch_order env) (active_orders book) in
  let after := eval (check_orders env book initial_check) w in
  In o (updated_orders p)
  /\ ~ In o (closed_orders p)
  /\ ~ In o (canceled_orders p)
  /\ (exists o', In o' (active_orders after) /\ same_but_type o' o)
  /\ (trading_stopped w = true -> In o (active_orders after)).
Proof.
  intros Hin Hfail p after.
  destruct (classify_keeps_failed_poll _ _ _ Hin Hfail) as [Hu [Hc Hx]].
  fold p in Hu, Hc, Hx.
  repeat split; try assumption.
  - apply check_orders_keeps, Hu.
  - intro Hstopped. subst after.
    destruct (check_orders_result env book initial_check w) as [-> _].
    unfold replenishes, carried_over. rewrite Hstopped. exact Hu.
Qed.

Lemma check_orders_keeps_failed_poll_witness :
  let env := mkCheckEnv (fun _ => None) filling_exchange in
  In cheap_bay [cheap_bay; dear_autobay]
  /\ fetch_order env (id cheap_bay) = None
  /\ exists o', In o' (active_orders
                        (eval (check_orders env (mkBook [cheap_bay; dear_autobay] 0%Z 0)
                                            false) (initial_world None)))
                /\ same_but_type o' cheap_bay.
Proof.
  intro env. split; [left; reflexivity|]. split; [reflexivity|].
  refine (proj1 (proj2 (proj2 (proj2
    (check_orders_keeps_failed_poll env (mkBook [cheap_bay; dear_autobay] 0%Z 0)
       false (initial_world None) cheap_bay _ _))))).
  - left; reflexivity.
  - reflexivity.
Defined.

(** C8, as stated, fails on "unchanged": a ['bay'] order whose poll fails
    while no ['autobay'] is counted comes back as ['autobay']. *)
Lemma failed_poll_order_is_promoted :
  let env := mkCheckEnv (fun _ => None) filling_exchange in
  let after := eval (check_orders env (mkBook [cheap_bay] 0%Z 0) false)
                    (initial_world None) in
  fetch_order env (id cheap_bay) = None
  /\ active_orders after = [set_order_type "autobay" cheap_bay]
  /\ ~ In cheap_bay (active_orders after).
Proof.
  split; [reflexivity|]. split; [reflexivity|].
  intros [H | []]. discriminate H.
Qed.

(** ** One ['autobay'] after the rotation *)

(** The rotation applied to the survivors of a classification in which no
    poll of an ['autobay'] failed. *)
Lemma rotation_after_classification
    (fetch : string -> option string) (orders : list Order) :
  let p := classify fetch orders in
  let rotated := rotation (flagautobay p) (updated_orders p) in
  updated_orders p <> [] ->
  (forall o, In o orders -> is_autobay o = true -> fetch (id o) <> None) ->
  autobay_count rotated = 1%nat
  /\ (flagautobay p = 0%nat ->
      forall a o, In a rotated -> is_autobay a = true ->
                  In o rotated -> price a <= price o)
  /\ ((1 < flagautobay p)%nat ->
      forall a o, In a rotated -> is_autobay a = true ->
                  In o (updated_orders p) -> is_autobay o = true ->
                  price a <= price o)
  /\ (flagautobay p = 1%nat -> rotated = updated_orders p).
Proof.
  intros p rotated Hne Hpolled.
  assert (Hflag : flagautobay p = autobay_count (updated_orders p))
    by (apply classify_flagautobay, Hpolled).
  subst rotated. unfold rotation.
  set (l := updated_orders p) in *. set (n := flagautobay p) in *.
  assert (Hsorted := sort_by_price_sorted l).
  assert (Hperm := sort_by_price_perm l).
  assert (Hcount := autobay_count_perm _ _ Hperm).
  destruct n as [|[|n]]; simpl Nat.eqb; simpl Nat.ltb.
  - (* no survivor carries the role *)
    replace (negb (is_empty l)) with true by (destruct l; [contradiction|reflexivity]).
    simpl andb.
    destruct (sort_by_price l) as [|h rest] eqn:Es.
    { apply Permutation_sym, Permutation_nil in Hperm. contradiction. }
    rewrite <- Hflag in Hcount. symmetry in Hcount.
    assert (Hrest : autobay_count rest = 0%nat).
    { rewrite autobay_count_cons in Hcount. lia. }
    inversion Hsorted as [|? ? _ Hall]; subst.
    simpl promote_first. repeat split; try discriminate; try lia.
    + rewrite autobay_count_cons, Hrest. reflexivity.
    + intros _ a o [<- | Ha] Hauto Ho.
      * destruct Ho as [<- | Ho]; [apply Qcle_refl|].
        exact (proj1 (Forall_forall _ _) Hall o Ho).
      * rewrite (autobay_count_zero _ _ Hrest Ha) in Hauto. discriminate.
  - (* exactly one *)
    repeat split; try discriminate; try lia. symmetry. exact Hflag.
  - (* several *)
    repeat split; try discriminate.
    + apply keep_first_autobay_count. rewrite <- Hcount, <- Hflag. discriminate.
    + intros _ a o Ha Hauto Ho Hoauto.
      apply (find_sorted_cheapest is_autobay (sort_by_price l)); auto.
      * apply keep_first_autobay_find; assumption.
      * apply sort_by_price_In, Ho.
Qed.

(** C1, as amended: with trading enabled, a non-empty surviving set and no
    failed poll on an ['autobay'] order, the rotation step of [check_orders]
    leaves exactly one ['autobay'] among the orders it carries over.  When
    no survivor carried the role, it goes to a cheapest order of the whole
    set; when several did, it stays with a cheapest one among those that
    carried it; when exactly one did, nothing changes, whatever the
    prices.  The book returned is made of the orders carried over, followed
    by the new ['autobay'] if one is placed; when the order creation raises,
    it is the list that was passed in, with the types that the rotation
    wrote into it. *)
Theorem rotation_leaves_one_autobay
    (env : CheckEnv) (book : Book) (initial_check : bool) (w : World) :
  let p := classify (fetch_order env) (active_orders book) in
  let rotated := carried_over env book (trading_stopped w) in
  let after := eval (check_orders env book initial_check) w in
  trading_stopped w = false ->
  updated_orders p <> [] ->
  (forall o, In o (active_orders book) -> is_autobay o = true ->
             fetch_order env (id o) <> None) ->
  rotated = rotation (flagautobay p) (updated_orders p)
  /\ (active_orders after = rotated
      \/ (exists new, active_orders after = rotated ++ [new]
                      /\ order_type new = "autobay")
      \/ (ends_in_except_arm env book initial_check false = true
          /\ active_orders after
             = rotated_in_place (fetch_order env) (flagautobay p)
                                (active_orders book)))
  /\ autobay_count rotated = 1%nat
  /\ (flagautobay p = 0%nat ->
      forall a o, In a rotated -> is_autobay a = true ->
                  In o rotated -> price a <= price o)
  /\ ((1 < flagautobay p)%nat ->
      forall a o, In a rotated -> is_autobay a = true ->
                  In o (updated_orders p) -> is_autobay o = true ->
                  price a <= price o)
  /\ (flagautobay p = 1%nat -> rotated = updated_orders p).
Proof.
  intros p rotated after Henabled Hne Hpolled.
  assert (Hrot : rotated = rotation (flagautobay p) (updated_orders p)).
  { subst rotated. unfold carried_over. fold p. rewrite Henabled. reflexivity. }
  split; [exact Hrot|].
  split.
  { destruct (check_orders_book env book initial_check w) as [_ [_ Ha]].
    fold p rotated after in Ha. rewrite Henabled in Ha.
    destruct (ends_in_except_arm env book initial_check false).
    - right. right. split; [reflexivity | exact Ha].
    - destruct Ha as [Ha | Ha]; [left | right; left]; exact Ha. }
  rewrite Hrot.
  apply (rotation_after_classification (fetch_order env) (active_orders book));
    assumption.
Qed.

Lemma rotation_leaves_one_autobay_witness :
  let book := mkBook three_bays 0%Z 0 in
  let p := classify (fetch_order quiet_check) (active_orders book) in
  trading_stopped (initial_world None) = false
  /\ updated_orders p <> []
  /\ autobay_count (carried_over quiet_check book
                                 (trading_stopped (initial_world None))) = 1%nat.
Proof.
  split; [reflexivity|]. split; [discriminate|].
  refine (proj1 (proj2 (proj2
    (rotation_leaves_one_autobay quiet_check (mkBook three_bays 0%Z 0) false
       (initial_world None) eq_refl _ _)))).
  - discriminate.
  - intros o _ _. discriminate.
Defined.
(** With no ['autobay'] among orders priced 0.072, 0.069 and 0.075, the
    rotation gives the role to the order priced 0.069. *)
Example rotation_promotes_cheapest :
  let p := classify all_open three_bays in
  rotation (flagautobay p) (updated_orders p)
  = [ mkOrder "b2" 1 (decimal 69 1000) (decimal 68 1000) "autobay";
      mkOrder "b1" 1 (decimal 72 1000) (decimal 71 1000) "bay";
      mkOrder "b3" 1 (decimal 75 1000) (decimal 74 1000) "bay" ].
Proof. reflexivity. Qed.

(** With two ['autobay'] orders priced 0.08 and 0.07, only the one priced
    0.07 keeps the role. *)
Example rotation_demotes_dearer :
  let p := classify all_open
             [ mkOrder "a1" 1 (decimal 8 100) (decimal 79 1000) "autobay";
               mkOrder "a2" 1 (decimal 7 100) (decimal 69 1000) "autobay" ] in
  rotation (flagautobay p) (updated_orders p)
  = [ mkOrder "a2" 1 (decimal 7 100) (decimal 69 1000) "autobay";
      mkOrder "a1" 1 (decimal 8 100) (decimal 79 1000) "bay" ].
Proof. reflexivity. Qed.

(** C1, as stated, fails when exactly one survivor carries the role: the
    rotation changes nothing, and [check_orders] returns the ['autobay']
    priced 2 next to a ['bay'] priced 1. *)
Lemma rotation_keeps_dearer_single_autobay :
  let book := mkBook [cheap_bay; dear_autobay] 0%Z 0 in
  let p := classify (fetch_order quiet_check) (active_orders book) in
  let rotated := rotation (flagautobay p) (updated_orders p) in
  rotated = [cheap_bay; dear_autobay]
  /\ active_orders (eval (check_orders quiet_check book false) (initial_world None))
     = [cheap_bay; dear_autobay]
  /\ is_autobay dear_autobay = true
  /\ ~ (forall a o, In a rotated -> is_autobay a = true ->
                    In o rotated -> price a <= price o).
Proof.
  split; [reflexivity|]. split; [reflexivity|]. split; [reflexivity|].
  intro Hcheapest.
  assert (H : price dear_autobay <= price cheap_bay).
  { apply Hcheapest; simpl; auto. }
  apply Qc_leb_le in H. vm_compute in H. discriminate H.
Qed.

(** The same with several ['autobay'] orders and a cheaper ['bay']: the
    role stays with the cheapest ['autobay'], not with the cheapest order. *)
Lemma rotation_keeps_cheapest_autobay_only :
  let p := classify all_open
             [ dear_autobay; cheap_bay;
               mkOrder "c3" 1 (decimal 3 1) (decimal 3 1) "autobay" ] in
  rotation (flagautobay p) (updated_orders p)
  = [ cheap_bay; dear_autobay; mkOrder "c3" 1 (decimal 3 1) (decimal 3 1) "bay" ].
Proof. reflexivity. Qed.

(** An ['autobay'] whose poll failed is not counted by [flagautobay]: the
    rotation then names a second one. *)
Lemma rotation_after_failed_autobay_poll :
  let fetch := fun i => if String.eqb i "c2" then None else Some "open" in
  let p := classify fetch [cheap_bay; dear_autobay] in
  flagautobay p = 0%nat
  /\ rotation (flagautobay p) (updated_orders p)
     = [set_order_type "autobay" cheap_bay; dear_autobay].
Proof. split; reflexivity. Qed.

(** ** Where the book is sorted, and where it is not *)

Lemma save_state_writes a e t (w : World) :
  writes (exec (save_state a e t) w) = writes w
  \/ writes (exec (save_state a e t) w)
     = writes w ++ [snapshot a e t (trading_stopped w)].
Proof.
  unfold exec.
  destruct (save_state_cases a e t w) as [-> | [_ ->]]; [left | right]; reflexivity.
Qed.

(** C5, as amended: the book is sorted where [run_bot] sorts it.  The list
    that lines 443-447 pass on is the stable sort by price of what
    [check_orders] returned: ascending, with the same orders, equal-priced
    ones in their previous order; and what line 447 writes, if it writes,
    is that sorted list.  [create_new_order], when it returns, has appended
    the new order at the end of the list or left the list as it was, and
    does not sort. *)
Theorem reconcile_sorts_create_appends (env : TickEnv) (book : Book) (w : World) :
  let checked := eval (check_orders (on_check env) book false) w in
  let w1 := exec (check_orders (on_check env) book false) w in
  let sorted := eval (reconcile env book) w in
  active_orders sorted = sort_by_price (active_orders checked)
  /\ price_sorted (active_orders sorted)
  /\ Permutation (active_orders checked) (active_orders sorted)
  /\ same_order_at_equal_price (active_orders checked) (active_orders sorted)
  /\ (writes (exec (reconcile env book) w) = writes w1
      \/ writes (exec (reconcile env book) w)
         = writes w1 ++ [snapshot (active_orders sorted)
                                  (executed_orders_count sorted)
                                  (total_profit sorted) (trading_stopped w1)])
  /\ (forall cenv b role w' created,
        eval (create_new_order cenv b role) w' = Return created ->
        active_orders created = active_orders b
        \/ exists new,
             active_orders created = active_orders b ++ [new]
             /\ order_type new = role).
Proof.
  intros checked w1 sorted.
  assert (Hsorted : sorted
            = with_orders checked (sort_by_price (active_orders checked))).
  { subst sorted checked. unfold reconcile. rewrite !eval_bind. reflexivity. }
  assert (Hexec : exec (reconcile env book) w = exec (save_book sorted) w1).
  { rewrite Hsorted. subst checked w1. unfold reconcile.
    rewrite !exec_bind. reflexivity. }
  split; [rewrite Hsorted; reflexivity|].
  split; [rewrite Hsorted; apply sort_by_price_sorted|].
  split; [rewrite Hsorted; apply sort_by_price_perm|].
  split; [rewrite Hsorted; apply sort_by_price_stable|].
  split; [rewrite Hexec; apply save_state_writes|].
  intros cenv b role w' created. apply create_new_order_book.
Qed.

(** C5, as stated, fails at the append: on a price drop the new, cheaper
    ['autobay'] is put after the dearer order it replaces, and the book is
    written and passed to the next iteration in that order. *)
Lemma price_drop_leaves_book_unsorted :
  let start := mkBook [dear_autobay] 0%Z 0 in
  let new := mkOrder "n1" (decimal 15 1) (fmul (decimal 1 1) (fadd 1 profit_percent))
                     (decimal 1 1) "autobay" in
  let after := mkBook [set_order_type "bay" dear_autobay; new] 0%Z 0 in
  eval (tick drop_tick start) (initial_world None) = Return after
  /\ ~ price_sorted (active_orders after)
  /\ state_file (exec (tick drop_tick start) (initial_world None))
     = Some (Object (snapshot (active_orders after) 0%Z 0 false)).
Proof.
  split; [vm_compute; reflexivity|]. split; [|vm_compute; reflexivity].
  intro H. apply price_sortedb_spec in H. vm_compute in H. discriminate H.
Qed.

(** ** The price-drop trigger *)

Lemma replace_autobay_creations (env : TickEnv) (book : Book) (w : World) :
  creations (exec (replace_autobay env book) w) = creations w ++ ["autobay"].
Proof.
  unfold replace_autobay, save_book. rewrite exec_bind.
  destruct (eval (create_new_order _ _ _) w); run;
    rewrite ?creations_save_state; apply create_new_order_creations.
Qed.

(** What [replace_autobay] gives back: the demoted book, with the new order
    at its end if the pair gets placed; it raises when the creation does. *)
Lemma replace_autobay_eval (env : TickEnv) (book : Book) (w : World) :
  let demoted := demote_first_autobay (active_orders book) in
  eval (replace_autobay env book) w
  = match creation_of (on_drop env) with
    | Created fill sell_id =>
        Return (with_orders book (demoted ++ [booked_order fill sell_id "autobay"]))
    | NotCreated => Return (with_orders book demoted)
    | CreationRaises e => Raise e
    end.
Proof.
  unfold replace_autobay, save_book. rewrite eval_bind, create_new_order_eval.
  destruct (creation_of (on_drop env)); run; reflexivity.
Qed.

Lemma price_dropped_spec (autobay_order : Order) (current_price : Qc) (stopped : bool) :
  price_dropped autobay_order current_price stopped = true
  <-> current_price <= fmul (buy_price autobay_order) (fsub 1 drop_percent)
      /\ stopped = false.
Proof.
  unfold price_dropped. rewrite andb_true_iff, negb_true_iff, Qc_leb_le.
  reflexivity.
Qed.

(** The list with its first ['autobay'] turned into a ['bay']. *)
Lemma demote_first_autobay_spec (l : list Order) (a : Order) :
  find is_autobay l = Some a ->
  exists before after,
    l = before ++ a :: after
    /\ demote_first_autobay l = before ++ set_order_type "bay" a :: after
    /\ forallb (fun o => negb (is_autobay o)) before = true.
Proof.
  induction l as [|o rest IH]; simpl; [discriminate|].
  destruct (is_autobay o) eqn:E.
  - intro H. injection H as <-. exists [], rest. repeat split.
  - intro H. destruct (IH H) as [before [after [-> [Hd Hb]]]].
    exists (o :: before), after. simpl. rewrite Hd, E, Hb. repeat split.
Qed.

Lemma demote_first_autobay_in_place (l : list Order) (a : Order) :
  find is_autobay l = Some a ->
  demoted_in_place l (demote_first_autobay l) a.
Proof.
  intro Hfind.
  destruct (demote_first_autobay_spec l a Hfind) as [l1 [l2 [H1 [H2 H3]]]].
  exists l1, l2, (set_order_type "bay" a).
  repeat split; assumption.
Qed.

Lemma price_drop_run (env : TickEnv) (book : Book) (w : World) :
  price_drop env book w
  = match current_price env with
    | Fails e => (Raise e, w)
    | Value current_price =>
        match find is_autobay (active_orders book) with
        | None => (Return book, w)
        | Some autobay_order =>
            match current_price with
            | None => (Raise "TypeError", w)
            | Some current_price =>
                if price_dropped autobay_order current_price (trading_stopped w) then
                  match available_balance env with
                  | Fails e => (Raise e, w)
                  | Value None => (Raise "TypeError", w)
                  | Value (Some available_balance) =>
                      if Qc_leb order_size available_balance then
                        replace_autobay env book w
                      else (notify_insufficient_funds available_balance ;;
                            ret (Return book)) w
                  end
                else (Return book, w)
            end
        end
    end.
Proof.
  unfold price_drop. rewrite bind_run. cbv beta. rewrite eval_get, exec_get.
  destruct (current_price env) as [[p|]|e];
    destruct (find is_autobay (active_orders book)) as [a|]; try reflexivity.
  destruct (price_dropped a _ _); [|reflexivity].
  destruct (available_balance env) as [[b|]|e]; try reflexivity.
  destruct (Qc_leb _ _); reflexivity.
Qed.

(** Either the four conditions hold and [price_drop] is [replace_autobay],
    or they do not, [create_new_order] is not called and the book, if one
    is returned, is the book as it was. *)
Lemma price_drop_cases (env : TickEnv) (book : Book) (w : World) :
  (trigger_holds env book w /\ price_drop env book w = replace_autobay env book w)
  \/ (~ trigger_holds env book w
      /\ (forall result, eval (price_drop env book) w = Return result ->
                         result = book)
      /\ (reads_succeed env -> eval (price_drop env book) w = Return book)
      /\ creations (exec (price_drop env book) w) = creations w).
Proof.
  unfold eval, exec, trigger_holds, reads_succeed, reading.
  rewrite price_drop_run.
  destruct (current_price env) as [[p|]|e] eqn:Hprice.
  - destruct (find is_autobay (active_orders book)) as [a|] eqn:Hfind.
    + destruct (price_dropped a p (trading_stopped w)) eqn:Hdrop.
      * apply price_dropped_spec in Hdrop. destruct Hdrop as [Hle Hstopped].
        destruct (available_balance env) as [[b|]|e] eqn:Hbalance.
        -- destruct (Qc_leb order_size b) eqn:Hfunds.
           ++ left. split; [|reflexivity].
              exists a, p, b. apply Qc_leb_le in Hfunds. auto 10.
           ++ right. split.
              { intros [a' [p' [b' [_ [_ [_ [_ [Hb Hle']]]]]]]].
                injection Hb as <-. apply Qc_leb_le in Hle'. congruence. }
              unfold notify_insufficient_funds, bind, get, ret.
              destruct (insufficient_funds_notified w); cbn [fst snd];
                (split; [intros r H; injection H as <-; reflexivity|]);
                split; reflexivity.
        -- right. split.
           { intros [a' [p' [b' [_ [_ [_ [_ [Hb _]]]]]]]]. discriminate Hb. }
           cbn [fst snd]. split; [intros r H; discriminate H|].
           split; [|reflexivity].
           intros [p' [b' [_ Hb]]]. discriminate Hb.
        -- right. split.
           { intros [a' [p' [b' [_ [_ [_ [_ [Hb _]]]]]]]]. discriminate Hb. }
           cbn [fst snd]. split; [intros r H; discriminate H|].
           split; [|reflexivity].
           intros [p' [b' [_ Hb]]]. discriminate Hb.
      * right. split.
        { intros [a' [p' [b' [Ha' [Hs [Hp [Hle _]]]]]]].
          injection Ha' as <-. injection Hp as <-.
          assert (price_dropped a p (trading_stopped w) = true)
            by (apply price_dropped_spec; auto).
          congruence. }
        cbn [fst snd]. split; [intros r H; injection H as <-; reflexivity|].
        split; reflexivity.
    + right. split.
      { intros [a' [p' [b' [Ha' _]]]]. discriminate Ha'. }
      cbn [fst snd]. split; [intros r H; injection H as <-; reflexivity|].
      split; reflexivity.
  - right. split.
    { intros [a' [p' [b' [_ [_ [Hp _]]]]]]. discriminate Hp. }
    destruct (find is_autobay (active_orders book)); cbn [fst snd].
    + split; [intros r H; discriminate H|]. split; [|reflexivity].
      intros [p' [b' [Hp _]]]. discriminate Hp.
    + split; [intros r H; injection H as <-; reflexivity|].
      split; reflexivity.
  - right. split.
    { intros [a' [p' [b' [_ [_ [Hp _]]]]]]. discriminate Hp. }
    cbn [fst snd]. split; [intros r H; discriminate H|]. split; [|reflexivity].
    intros [p' [b' [Hp _]]]. discriminate Hp.
Qed.

(** An iteration is the part before line 449 followed by [price_drop];
    when the command raises, so does the iteration, there and then. *)
Lemma tick_ends_with_price_drop (env : TickEnv) (book : Book) (w : World) :
  tick env book w
  = match eval (until_price_drop env book) w with
    | Return sorted => price_drop env sorted (exec (until_price_drop env book) w)
    | Raise e => (Raise e, exec (until_price_drop env book) w)
    end.
Proof.
  unfold tick, until_price_drop. rewrite bind_run, eval_bind, exec_bind.
  destruct (eval (handle_command env book) w); run; rewrite ?bind_run;
    reflexivity.
Qed.

(** The example of the specification, run: bought at 0.07, the order is
    replaced at price 0.0693 and kept at price 0.0694. *)
Example price_drop_at_0_0693 :
  let book := mkBook [anchor_order] 0%Z 0 in
  let run := price_drop (priced_tick (decimal 693 10000)) book (initial_world None) in
  match fst run with
  | Return after => map order_type (active_orders after) = ["bay"; "autobay"]
  | Raise _ => False
  end
  /\ creations (snd run) = ["autobay"].
Proof. vm_compute. split; reflexivity. Qed.

Example price_drop_at_0_0694 :
  let book := mkBook [anchor_order] 0%Z 0 in
  price_drop (priced_tick (decimal 694 10000)) book (initial_world None)
  = (Return book, initial_world None).
Proof. vm_compute. reflexivity. Qed.

(** The floats of the model are those of the machine: the threshold and
    the comparison of line 451 on primitive floats, with the literals read
    as Python reads them.  0.07 * (1 - 0.01) rounds to the double of
    0.0693, so that the boundary case fires; 0.06 * (1 - 0.01) rounds
    below the double of 0.0594, so that this one does not. *)
Example price_drop_example_on_doubles :
  Doubles.double_price_dropped Doubles.d_0_0693 Doubles.d_0_07 = true
  /\ Doubles.double_price_dropped Doubles.d_0_0694 Doubles.d_0_07 = false
  /\ Doubles.double_price_dropped Doubles.d_0_0594 Doubles.d_0_06 = false
  /\ fmul (decimal 7 100) (fsub 1 drop_percent)
     = Doubles.value (Doubles.double_threshold Doubles.d_0_07)
  /\ fmul (decimal 6 100) (fsub 1 drop_percent)
     = Doubles.value (Doubles.double_threshold Doubles.d_0_06)
  /\ decimal 594 10000 = Doubles.value Doubles.d_0_0594
  /\ decimal 693 10000 = Doubles.value Doubles.d_0_0693.
Proof. repeat split; vm_compute; reflexivity. Qed.

(** The rounded operations of the model, checked against the primitive
    floats on sample pairs, subnormal and large numbers included. *)
Example rounded_operations_match_primitive_floats :
  forallb Doubles.agree Doubles.sample_pairs = true.
Proof. vm_compute. reflexivity. Qed.

(** C3: in every iteration that reaches line 449 the price-drop action --
    [replace_autobay]: the first ['autobay'] of the book becomes a ['bay']
    in its place and [create_new_order] is called with role ['autobay'] on
    the book so changed -- is taken if and only if an ['autobay'] order
    exists, trading is enabled, the price read is at most its [buy_price]
    times [1 - drop_percent], as the floats give it, and the balance read
    is at least [order_size].  When it is not taken, [create_new_order] is
    not called and the book stays as it is.  With [buy_price] 0.07 the
    condition on the price holds at 0.0693 and fails at 0.0694; with
    [buy_price] 0.06 it fails at 0.0594, the product being rounded down. *)
Theorem price_drop_fires_iff (env : TickEnv) (book : Book) (w : World) :
  let w1 := exec (until_price_drop env book) w in
  match eval (until_price_drop env book) w with
  | Raise e => tick env book w = (Raise e, w1)
  | Return sorted =>
      let demoted := demote_first_autobay (active_orders sorted) in
      tick env book w = price_drop env sorted w1
      /\ (creations (exec (price_drop env sorted) w1) = creations w1 ++ ["autobay"]
          <-> trigger_holds env sorted w1)
      /\ (trigger_holds env sorted w1 ->
          price_drop env sorted w1 = replace_autobay env sorted w1
          /\ eval (price_drop env sorted) w1
             = match creation_of (on_drop env) with
               | Created fill sell_id =>
                   Return (with_orders sorted
                             (demoted ++ [booked_order fill sell_id "autobay"]))
               | NotCreated => Return (with_orders sorted demoted)
               | CreationRaises e => Raise e
               end
          /\ exists autobay_order,
               find is_autobay (active_orders sorted) = Some autobay_order
               /\ demoted_in_place (active_orders sorted) demoted autobay_order)
      /\ (~ trigger_holds env sorted w1 ->
          creations (exec (price_drop env sorted) w1) = creations w1
          /\ (forall result, eval (price_drop env sorted) w1 = Return result ->
                             result = sorted)
          /\ (reads_succeed env -> eval (price_drop env sorted) w1 = Return sorted))
  end
  /\ (forall autobay_order,
        buy_price autobay_order = decimal 7 100 ->
        price_dropped autobay_order (decimal 693 10000) false = true
        /\ price_dropped autobay_order (decimal 694 10000) false = false)
  /\ (forall autobay_order,
        buy_price autobay_order = decimal 6 100 ->
        price_dropped autobay_order (decimal 594 10000) false = false).
Proof.
  intro w1. split.
  2:{ split; intros a Ha; unfold price_dropped; rewrite Ha;
        [split|]; vm_compute; reflexivity. }
  rewrite (tick_ends_with_price_drop env book w). fold w1.
  destruct (eval (until_price_drop env book) w) as [sorted|e]; [|reflexivity].
  cbv zeta. split; [reflexivity|].
  destruct (price_drop_cases env sorted w1)
    as [[Hyes Hrun] | [Hno [Hbook [Hreads Hcalls]]]].
  - split; [|split].
    + split; [intros _; exact Hyes|]. intros _. unfold exec. rewrite Hrun.
      apply replace_autobay_creations.
    + intros _. split; [exact Hrun|]. split.
      * unfold eval at 1. rewrite Hrun. apply replace_autobay_eval.
      * destruct Hyes as [a [p [b [Hfind _]]]]. exists a.
        split; [exact Hfind | apply demote_first_autobay_in_place, Hfind].
    + intro Hnot. contradiction.
  - split; [|split].
    + split; [|intro; contradiction].
      rewrite Hcalls. intro Habs. exfalso.
      apply (f_equal (@List.length string)) in Habs.
      rewrite length_app in Habs. simpl in Habs. lia.
    + intro; contradiction.
    + intros _. repeat split; assumption.
Qed.
(** ** The insufficient-funds notification *)

Lemma count_insufficient_app (q1 q2 : list notification) :
  count_insufficient (q1 ++ q2)
  = (count_insufficient q1 + count_insufficient q2)%nat.
Proof. unfold count_insufficient. rewrite filter_app, length_app. reflexivity. Qed.

#[export] Instance edge_triggered_preorder : PreOrder edge_triggered.
Proof.
  split.
  - intro w. split; [auto|].
    destruct (insufficient_funds_notified w); simpl; lia.
  - intros w1 w2 w3 [M12 C12] [M23 C23]. split; [auto|].
    rewrite C23, C12.
    destruct (insufficient_funds_notified w1);
      destruct (insufficient_funds_notified w2);
      destruct (insufficient_funds_notified w3); simpl; try lia;
      try (specialize (M12 eq_refl)); try (specialize (M23 eq_refl));
      discriminate.
Qed.

(** A step that leaves the flag alone and queues nothing, or something
    else than the insufficient-funds notification. *)
Lemma edge_other_notification (n : notification) :
  is_insufficient_funds_msg n = false -> keeps edge_triggered (save_notification n).
Proof.
  intros Hn w. split; [auto|]. simpl.
  rewrite count_insufficient_app. unfold count_insufficient at 2. simpl.
  rewrite Hn. destruct (insufficient_funds_notified w); simpl; lia.
Qed.

Lemma edge_silent {A} (m : M A) :
  (forall w, insufficient_funds_notified (exec m w) = insufficient_funds_notified w
             /\ notification_queue (exec m w) = notification_queue w) ->
  keeps edge_triggered m.
Proof.
  intros H w. destruct (H w) as [Hf Hq]. split; [rewrite Hf; auto|].
  rewrite Hf, Hq. destruct (insufficient_funds_notified w); simpl; lia.
Qed.

(** Lines 255-259 and 462-466: the notification is queued when the flag is
    clear, and the flag is set. *)
Lemma edge_notify_insufficient_funds (available_balance : Qc) :
  keeps edge_triggered (notify_insufficient_funds available_balance).
Proof.
  intro w. unfold notify_insufficient_funds, exec, bind, get.
  destruct (insufficient_funds_notified w) eqn:E; simpl.
  - split; [auto|]. rewrite E. simpl. lia.
  - split; [reflexivity|]. rewrite E. simpl.
    rewrite count_insufficient_app. reflexivity.
Qed.

Lemma notify_insufficient_funds_sets_flag (available_balance : Qc) (w : World) :
  insufficient_funds_notified (exec (notify_insufficient_funds available_balance) w)
  = true.
Proof.
  unfold notify_insufficient_funds, exec, bind, get.
  destruct (insufficient_funds_notified w) eqn:E; simpl; auto.
Qed.

Ltac edge_prim :=
  first [ assumption
        | apply edge_notify_insufficient_funds
        | apply edge_other_notification; reflexivity
        | apply edge_silent; intro; split; reflexivity ].

Lemma edge_save_state a e t : keeps edge_triggered (save_state a e t).
Proof. unfold save_state. keeps_steps edge_prim. Qed.

Lemma no_funds_reading (balance : read (option Qc)) :
  below_order_size balance = true ->
  exists b, balance = reading b /\ Qc_ltb b order_size = true
            /\ Qc_leb order_size b = false.
Proof.
  unfold below_order_size, reading.
  destruct balance as [[b|]|e]; try discriminate.
  intro H. exists b. split; [reflexivity|]. split; [exact H|].
  unfold Qc_ltb in H. apply negb_true_iff in H. exact H.
Qed.

Lemma edge_create_new_order (env : CreateEnv) (book : Book) (role : string) :
  no_funds env = true -> keeps edge_triggered (create_new_order env book role).
Proof.
  unfold no_funds. intro Hno.
  destruct (no_funds_reading _ Hno) as [b [Hb [Hlt _]]].
  unfold create_new_order, reading in *. rewrite Hb. cbv beta iota. rewrite Hlt.
  keeps_steps edge_prim.
Qed.

Lemma edge_settle_closed closed e t : keeps edge_triggered (settle_closed closed e t).
Proof.
  revert e t. induction closed as [|o rest IH]; intros e t; simpl.
  - keeps_steps edge_prim.
  - keeps_steps ltac:(first [apply IH | edge_prim]).
Qed.

Lemma edge_report_canceled canceled : keeps edge_triggered (report_canceled canceled).
Proof. induction canceled as [|o rest IH]; simpl; keeps_steps edge_prim. Qed.

Lemma edge_check_orders (env : CheckEnv) (book : Book) (ic : bool) :
  no_funds (on_create env) = true -> keeps edge_triggered (check_orders env book ic).
Proof.
  intro Hno. unfold check_orders, finish_check, save_book.
  keeps_steps ltac:(first [ apply edge_settle_closed | apply edge_report_canceled
                          | apply edge_save_state
                          | apply edge_create_new_order; exact Hno
                          | edge_prim ]).
Qed.

Lemma edge_price_drop (env : TickEnv) (book : Book) :
  below_order_size (available_balance env) = true ->
  keeps edge_triggered (price_drop env book).
Proof.
  intro Hno. destruct (no_funds_reading _ Hno) as [b [Hb [_ Hfunds]]].
  unfold price_drop, reading in *. rewrite Hb. cbv beta iota. rewrite Hfunds.
  keeps_steps edge_prim.
Qed.

Lemma edge_tick (env : TickEnv) (book : Book) :
  insufficient_tick env = true -> no_start env = true ->
  keeps edge_triggered (tick env book).
Proof.
  unfold insufficient_tick, no_start. rewrite !andb_true_iff.
  intros [[[[Hbal Hbuy] Hdrop] Hcheck] Hstart] Hcmd.
  unfold tick, handle_command, reconcile, stop_command, buy_command, save_book.
  destruct (command env) as [c|].
  - destruct (String.eqb c "start"); [discriminate|].
    keeps_steps ltac:(first [ apply edge_save_state
                            | apply edge_create_new_order; assumption
                            | apply edge_check_orders; assumption
                            | apply edge_price_drop; assumption
                            | edge_prim ]).
  - keeps_steps ltac:(first [ apply edge_save_state
                            | apply edge_check_orders; assumption
                            | apply edge_price_drop; assumption
                            | edge_prim ]).
Qed.

Lemma edge_ticks (envs : list TickEnv) (book : Book) :
  forallb insufficient_tick envs = true -> forallb no_start envs = true ->
  keeps edge_triggered (ticks envs book).
Proof.
  revert book. induction envs as [|env rest IH]; intros book; simpl.
  - intros _ _. apply keeps_ret.
  - rewrite !andb_true_iff. intros [Hi Hri] [Hs Hrs].
    apply keeps_bind; [apply edge_tick; assumption|].
    intros [b|e]; [apply IH; assumption | apply keeps_ret].
Qed.

Lemma create_new_order_no_funds_sets_flag (env : CreateEnv) (book : Book)
    (role : string) (w : World) :
  reaches_balance env = true ->
  no_funds env = true ->
  insufficient_funds_notified (exec (create_new_order env book role) w) = true.
Proof.
  unfold reaches_balance, no_funds. intros Hreach Hno.
  destruct (no_funds_reading _ Hno) as [b [Hb [Hlt _]]].
  unfold create_new_order, reading in *. rewrite Hb.
  destruct (load_markets env); [|discriminate].
  destruct (ticker_last env); [|discriminate].
  rewrite Hlt. run. apply notify_insufficient_funds_sets_flag.
Qed.

Lemma price_drop_no_funds_sets_flag (env : TickEnv) (book : Book) (w : World)
    (autobay_order : Order) (price : Qc) :
  below_order_size (available_balance env) = true ->
  current_price env = reading price ->
  find is_autobay (active_orders book) = Some autobay_order ->
  price_dropped autobay_order price (trading_stopped w) = true ->
  insufficient_funds_notified (exec (price_drop env book) w) = true.
Proof.
  intros Hno Hprice Hfind Hdrop.
  destruct (no_funds_reading _ Hno) as [b [Hb [_ Hfunds]]].
  unfold exec. rewrite price_drop_run, Hprice, Hfind. unfold reading in *.
  rewrite Hdrop, Hb, Hfunds.
  fold (exec (notify_insufficient_funds b ;; ret (Return book)) w).
  run. apply notify_insufficient_funds_sets_flag.
Qed.

(** C4, as amended: over consecutive iterations in which every reading of
    the balance is below the order size and no "start" command is taken, the
    flag [insufficient_funds_notified] is never cleared and the
    insufficient-funds notification is queued at most once: once if the
    flag goes from clear to set during the run, not at all otherwise.  The
    flag is set by every order creation that gets as far as the balance and
    every price-drop check that finds the balance too low. *)
Theorem insufficient_funds_notified_once
    (envs : list TickEnv) (book : Book) (w : World) :
  forallb insufficient_tick envs = true ->
  forallb no_start envs = true ->
  let w' := exec (ticks envs book) w in
  count_insufficient (notification_queue w')
  = (count_insufficient (notification_queue w)
     + (if negb (insufficient_funds_notified w) && insufficient_funds_notified w'
        then 1 else 0))%nat
  /\ (insufficient_funds_notified w = true -> insufficient_funds_notified w' = true)
  /\ (forall cenv b role w0,
        reaches_balance cenv = true ->
        no_funds cenv = true ->
        insufficient_funds_notified (exec (create_new_order cenv b role) w0) = true)
  /\ (forall env b w0 autobay_order price,
        below_order_size (available_balance env) = true ->
        current_price env = reading price ->
        find is_autobay (active_orders b) = Some autobay_order ->
        price_dropped autobay_order price (trading_stopped w0) = true ->
        insufficient_funds_notified (exec (price_drop env b) w0) = true).
Proof.
  intros Hins Hcmd w'.
  destruct (edge_ticks envs book Hins Hcmd w) as [Hmono Hcount].
  split; [exact Hcount|]. split; [exact Hmono|].
  split.
  - intros cenv b role w0. apply create_new_order_no_funds_sets_flag.
  - intros env b w0 a p. apply price_drop_no_funds_sets_flag.
Qed.

Lemma insufficient_funds_notified_once_witness :
  let envs := [broke_tick None; broke_tick None; broke_tick (Some "buy")] in
  let w' := exec (ticks envs (mkBook [dear_autobay] 0%Z 0)) (initial_world None) in
  forallb insufficient_tick envs = true
  /\ forallb no_start envs = true
  /\ count_insufficient (notification_queue w') = 1%nat.
Proof.
  intros envs w'. split; [vm_compute; reflexivity|]. split; [reflexivity|].
  assert (H := proj1 (insufficient_funds_notified_once envs
                        (mkBook [dear_autobay] 0%Z 0) (initial_world None)
                        eq_refl eq_refl)).
  exact H.
Defined.

(** C4, as stated, fails on a "start" command: it clears the flag, and the
    notification is queued a second time in a run of two iterations whose
    balance is below the order size throughout. *)
Lemma start_command_repeats_notification :
  let envs := [broke_tick None; broke_tick (Some "start")] in
  let w' := exec (ticks envs (mkBook [dear_autobay] 0%Z 0)) (initial_world None) in
  forallb insufficient_tick envs = true
  /\ count_insufficient (notification_queue w') = 2%nat.
Proof. split; vm_compute; reflexivity. Qed.

(** Nor is the notification queued in an iteration that reads no balance:
    with the price above the trigger and no order to replace, nothing asks
    for funds. *)
Lemma insufficient_tick_without_check_is_silent :
  let env := mkTickEnv None broke_check broke_exchange broke_check
                       (reading (decimal 5 1)) (reading 0) broke_exchange in
  let w' := exec (tick env (mkBook [dear_autobay] 0%Z 0)) (initial_world None) in
  insufficient_tick env = true
  /\ count_insufficient (notification_queue w') = 0%nat.
Proof. split; vm_compute; reflexivity. Qed.

(** * More of the code *)

(** ** The backoff wrapper *)

Lemma current_delay_at_most_max (delay max_delay : Z) (attempt : nat) :
  (current_delay delay max_delay attempt <= max_delay)%Z.
Proof. unfold current_delay. apply Z.le_min_r. Qed.

Lemma current_delay_monotone (delay max_delay : Z) (a b : nat) :
  (0 <= delay)%Z -> (a <= b)%nat ->
  (current_delay delay max_delay a <= current_delay delay max_delay b)%Z.
Proof.
  intros Hd Hab. unfold current_delay.
  apply Z.min_le_compat_r, Z.mul_le_mono_nonneg_l; [exact Hd|].
  apply Z.pow_le_mono_r; lia.
Qed.

(** X1: The delays of the default wrapper: 10 s after the first network error,
    never more than 60 s, never shorter than the delay before, and 60 s
    from the fourth error on. *)
Theorem default_delay_bounds (attempt : nat) :
  (1 <= attempt)%nat ->
  (10 <= current_delay 5 60 attempt <= 60)%Z
  /\ current_delay 5 60 1 = 10%Z
  /\ (current_delay 5 60 attempt <= current_delay 5 60 (S attempt))%Z
  /\ ((4 <= attempt)%nat -> current_delay 5 60 attempt = 60%Z).
Proof.
  intro H1.
  assert (Hlow : (current_delay 5 60 1 <= current_delay 5 60 attempt)%Z)
    by (apply current_delay_monotone; lia).
  split; [split; [exact Hlow | apply current_delay_at_most_max]|].
  split; [reflexivity|].
  split; [apply current_delay_monotone; lia|].
  intro H4.
  assert (Hhigh : (current_delay 5 60 4 <= current_delay 5 60 attempt)%Z)
    by (apply current_delay_monotone; lia).
  assert (Hmax := current_delay_at_most_max 5 60 attempt).
  change (current_delay 5 60 4) with 60%Z in Hhigh. lia.
Qed.

Lemma default_delay_bounds_witness :
  (1 <= 7)%nat /\ current_delay 5 60 7 = 60%Z.
Proof.
  split; [lia|].
  apply (proj2 (proj2 (proj2 (default_delay_bounds 7 ltac:(lia))))). lia.
Defined.

Lemma wrapper_retries {A} (delay max_delay : Z) (func : nat -> outcome A)
    (k fuel attempt : nat) :
  (forall j, (j < k)%nat -> func (attempt + j)%nat = NetworkError) ->
  func (attempt + k)%nat <> NetworkError ->
  (k < fuel)%nat ->
  wrapper delay max_delay func fuel attempt
  = (settled (func (attempt + k)%nat),
     map (current_delay delay max_delay) (seq (S attempt) k)).
Proof.
  revert fuel attempt. induction k as [|k IH]; intros fuel attempt Hnet Hend Hfuel.
  - destruct fuel as [|fuel]; [lia|]. simpl. rewrite Nat.add_0_r in *.
    destruct (func attempt); [reflexivity | contradiction | reflexivity].
  - destruct fuel as [|fuel]; [lia|]. simpl wrapper.
    assert (H0 : func attempt = NetworkError).
    { rewrite <- (Nat.add_0_r attempt). apply Hnet. lia. }
    rewrite H0.
    replace (attempt + S k)%nat with (S attempt + k)%nat in * by lia.
    rewrite (IH fuel (S attempt)).
    + reflexivity.
    + intros j Hj. replace (S attempt + j)%nat with (attempt + S j)%nat by lia.
      apply Hnet. lia.
    + exact Hend.
    + lia.
Qed.

Lemma wrapper_still_retrying {A} (delay max_delay : Z) (func : nat -> outcome A)
    (fuel attempt : nat) :
  (forall j, (j < fuel)%nat -> func (attempt + j)%nat = NetworkError) ->
  fst (wrapper delay max_delay func fuel attempt) = None.
Proof.
  revert attempt. induction fuel as [|fuel IH]; intros attempt Hnet; [reflexivity|].
  simpl.
  assert (H0 : func attempt = NetworkError).
  { rewrite <- (Nat.add_0_r attempt). apply Hnet. lia. }
  rewrite H0.
  specialize (IH (S attempt)).
  destruct (wrapper delay max_delay func fuel (S attempt)) as [r later].
  simpl in *. apply IH. intros j Hj.
  replace (S (attempt + j))%nat with (attempt + S j)%nat by lia.
  apply Hnet. lia.
Qed.

Lemma sum_delays_bound (l : list nat) :
  (fold_right Z.add 0 (map (current_delay 5 60) l) <= 60 * Z.of_nat (List.length l))%Z.
Proof.
  induction l as [|a l IH]; simpl List.length; simpl fold_right; [lia|].
  assert (H := current_delay_at_most_max 5 60 a). lia.
Qed.

(** X2: The wrapper gives the outcome of the first call that does not end in a
    network error: after [k] network errors it has slept the delays of
    attempts 1 to [k], at most 60 s each, and returns the value or raises
    the exception of call [k]; a first call that returns or raises is not
    followed by any sleep.  Until then it is still retrying. *)
Theorem retry_returns_first_answer {A} (func : nat -> outcome A) (k fuel : nat) :
  (forall j, (j < k)%nat -> func j = NetworkError) ->
  func k <> NetworkError ->
  ((k < fuel)%nat ->
   retry_on_network_error func fuel
   = (settled (func k), map (current_delay 5 60) (seq 1 k))
   /\ settled (func k) <> None
   /\ (fold_right Z.add 0 (snd (retry_on_network_error func fuel))
       <= 60 * Z.of_nat k)%Z)
  /\ ((fuel <= k)%nat -> fst (retry_on_network_error func fuel) = None).
Proof.
  intros Hnet Hend. split.
  - intro Hfuel.
    assert (Hrun : retry_on_network_error func fuel
                   = (settled (func k), map (current_delay 5 60) (seq 1 k))).
    { unfold retry_on_network_error.
      apply (wrapper_retries 5 60 func k fuel 0); auto. }
    split; [exact Hrun|]. split.
    + destruct (func k); simpl; congruence.
    + rewrite Hrun. simpl snd.
      assert (Hsum := sum_delays_bound (seq 1 k)).
      rewrite length_seq in Hsum. exact Hsum.
  - intro Hfuel. unfold retry_on_network_error.
    apply wrapper_still_retrying. intros j Hj. apply Hnet. lia.
Qed.

Lemma retry_returns_first_answer_witness :
  let func := fun n => if (n <? 2)%nat then NetworkError else Returned 7%Z in
  retry_on_network_error func 5 = (Some (inr 7%Z), [10%Z; 20%Z]).
Proof.
  intro func.
  refine (proj1 (proj1 (retry_returns_first_answer func 2 5 _ _) _)).
  - intros j Hj. unfold func. destruct j as [|[|j]]; [reflexivity | reflexivity | lia].
  - discriminate.
  - lia.
Defined.

(** ** The price cache and the balance *)

(** X3: A price stored at time [t] serves every call up to 5 s later, whatever
    the exchange would answer then; a call later than that asks the
    exchange again. *)
Theorem price_cached_for_five_seconds
    (t t' p : Qc) (fetch_later : outcome (option Qc)) (cache : PriceCache) :
  cache_expired t cache = true ->
  let first := get_current_price t (Returned (Some p)) cache in
  first = (Returned (Some p), mkPriceCache (Some p) t)
  /\ (t' - t <= price_cache_duration ->
      get_current_price t' fetch_later (snd first) = (Returned (Some p), snd first))
  /\ (price_cache_duration < t' - t ->
      get_current_price t' fetch_later (snd first)
      = asked t' fetch_later (snd first)).
Proof.
  intros Hexp first.
  assert (Hfirst : first = (Returned (Some p), mkPriceCache (Some p) t)).
  { subst first. unfold get_current_price. unfold cache_expired in Hexp.
    rewrite Hexp. reflexivity. }
  split; [exact Hfirst|]. rewrite Hfirst. simpl snd.
  unfold get_current_price. simpl last_price. simpl last_price_time. simpl is_none.
  simpl orb. split; intro Hage.
  - destruct (Qc_ltb price_cache_duration (t' - t)) eqn:E; [|reflexivity].
    apply Qc_ltb_lt in E. exfalso. exact (Qclt_not_le _ _ E Hage).
  - apply Qc_ltb_lt in Hage. rewrite Hage. reflexivity.
Qed.

Lemma price_cached_for_five_seconds_witness :
  cache_expired (decimal 100 1) initial_cache = true
  /\ get_current_price (decimal 104 1) NetworkError
       (snd (get_current_price (decimal 100 1) (Returned (Some (decimal 7 100)))
                               initial_cache))
     = (Returned (Some (decimal 7 100)),
        mkPriceCache (Some (decimal 7 100)) (decimal 100 1)).
Proof.
  split; [reflexivity|].
  refine (proj1 (proj2 (price_cached_for_five_seconds (decimal 100 1) (decimal 104 1)
            (decimal 7 100) NetworkError initial_cache eq_refl)) _).
  apply Qc_leb_le. reflexivity.
Defined.

(** X4: A call that brings no price (the fetch fails, or the ticker has no last
    price) leaves an empty cache empty, so that the next call asks the
    exchange again however soon it comes. *)
Theorem empty_cache_asks_again
    (t t' : Qc) (fetch_first fetch_later : outcome (option Qc)) (cache : PriceCache) :
  last_price cache = None ->
  fetch_first = Returned None \/ fetch_first = NetworkError
  \/ (exists e, fetch_first = Raised e) ->
  let first := get_current_price t fetch_first cache in
  fst first = fetch_first
  /\ last_price (snd first) = None
  /\ get_current_price t' fetch_later (snd first)
     = asked t' fetch_later (snd first).
Proof.
  intros Hnone Hfail first.
  assert (Hasks : forall time fetch c, last_price c = None ->
            get_current_price time fetch c = asked time fetch c).
  { intros time fetch c Hc. unfold get_current_price. rewrite Hc. reflexivity. }
  subst first. rewrite (Hasks t fetch_first cache Hnone).
  destruct Hfail as [-> | [-> | [e ->]]]; simpl;
    (split; [reflexivity|]; split; [auto|]; apply Hasks; auto).
Qed.

Lemma empty_cache_asks_again_witness :
  last_price initial_cache = None
  /\ get_current_price 0 (Returned (Some 1))
       (snd (get_current_price 0 (Returned None) initial_cache))
     = (Returned (Some 1), mkPriceCache (Some 1) 0).
Proof.
  split; [reflexivity|].
  refine (proj2 (proj2 (empty_cache_asks_again 0 0 (Returned None) (Returned (Some 1))
            initial_cache eq_refl _))).
  left. reflexivity.
Defined.

(** X5: A balance reply that does not list the currency, or lists it without a
    ['free'] amount, counts as a balance of 0: a [create_new_order] that gets
    as far as the balance then buys nothing, returns the book as it was, and
    raises the insufficient-funds flag, with one notification of a balance
    of 0 if the flag was clear. *)
Theorem missing_balance_counts_as_zero
    (balance : dict (dict Qc)) (env : CreateEnv) (book : Book) (role : string)
    (w : World) :
  (dict_get balance base_currency = None
   \/ exists account, dict_get balance base_currency = Some account
                      /\ dict_get account "free" = None) ->
  reaches_balance env = true ->
  free_balance env = reading (get_available_balance balance base_currency) ->
  get_available_balance balance base_currency = 0
  /\ eval (create_new_order env book role) w = Return book
  /\ insufficient_funds_notified (exec (create_new_order env book role) w) = true
  /\ notification_queue (exec (create_new_order env book role) w)
     = notification_queue w
       ++ (if insufficient_funds_notified w then []
           else [InsufficientFundsMsg base_currency 0]).
Proof.
  intros Hmissing Hreach Hfree.
  assert (Hzero : get_available_balance balance base_currency = 0).
  { unfold get_available_balance.
    destruct Hmissing as [-> | [account [-> ->]]]; reflexivity. }
  split; [exact Hzero|].
  rewrite Hzero in Hfree. unfold reaches_balance in Hreach.
  unfold create_new_order, reading in *. rewrite Hfree.
  destruct (load_markets env); [|discriminate].
  destruct (ticker_last env); [|discriminate].
  replace (Qc_ltb 0 order_size) with true by reflexivity.
  unfold notify_insufficient_funds, record_creation, eval, exec, bind, get, ret.
  cbn [fst snd insufficient_funds_notified notification_queue].
  destruct (insufficient_funds_notified w);
    cbn [fst snd insufficient_funds_notified notification_queue
         save_notification set_insufficient_funds_notified];
    repeat split; symmetry; apply app_nil_r.
Qed.

Lemma missing_balance_counts_as_zero_witness :
  let balance : dict (dict Qc) := [("KAS", [("free", decimal 10 1)])] in
  dict_get balance base_currency = None
  /\ eval (create_new_order
             (exchange 1 (get_available_balance balance base_currency)
                       (fun _ _ => Placed (bought 1 1)) (fun _ _ _ => Placed "x"))
             (mkBook [] 0%Z 0) "bay") (initial_world None)
     = Return (mkBook [] 0%Z 0).
Proof.
  intro balance. split; [reflexivity|].
  refine (proj1 (proj2 (missing_balance_counts_as_zero balance _ _ _ _ _ _ _))).
  - left. reflexivity.
  - reflexivity.
  - reflexivity.
Defined.

(** ** Placing orders *)

Lemma Qc_eqb_neq (x y : Qc) : x <> y -> Qc_eqb x y = false.
Proof.
  intro H. destruct (Qc_eqb x y) eqn:E; [|reflexivity].
  apply Qc_eqb_eq in E. contradiction.
Qed.

Lemma Qc_ltb_ge (x y : Qc) : y <= x -> Qc_ltb x y = false.
Proof. intro H. unfold Qc_ltb. apply negb_false_iff, Qc_leb_le, H. Qed.

Lemma create_new_order_with_funds (env : CreateEnv) (book : Book) (role : string)
    (w : World) (last balance : Qc) :
  funded env last balance ->
  create_new_order env book role w
  = (bought <- create_buy_order env (fdiv order_size last) ;;
     match bought with
     | None => ret (Return book)
     | Some buy_order => sell_bought env book role buy_order
     end)
    (exec (set_insufficient_funds_notified false) (exec (record_creation role) w)).
Proof.
  intros [Hmarkets [Hlast [Hfree [Hfunds Hprice]]]].
  unfold create_new_order, reading in *. rewrite bind_run. cbv beta.
  rewrite Hmarkets, Hlast, Hfree.
  rewrite (Qc_ltb_ge _ _ Hfunds), bind_run, (Qc_eqb_neq _ _ Hprice).
  reflexivity.
Qed.

(** A pair is placed only by an exchange that fills the buy and accepts
    the sell. *)
Lemma creation_placed_on (env : CreateEnv) (fill : Fill) (sell_id : string) :
  creation_of env = Created fill sell_id ->
  placed_on env (filled_amount fill) (average fill) sell_id.
Proof.
  intro Hpair. unfold creation_of in Hpair. unfold placed_on, funded, reading.
  destruct (load_markets env) as [[]|]; [|discriminate].
  destruct (ticker_last env) as [[last|]|]; try discriminate;
    destruct (free_balance env) as [[balance|]|]; try discriminate;
    destruct (Qc_ltb balance order_size) eqn:Hlt; try discriminate.
  destruct (Qc_eqb last 0) eqn:Hzero; [discriminate|].
  destruct (decisive (market_buy env (fdiv order_size last)))
    as [[[[units|] [paid|]]| | | |e]|] eqn:Hbuy; try discriminate.
  unfold sale_of in Hpair. cbn [purchase_average purchase_amount] in Hpair.
  destruct (decisive (limit_sell env units _)) as [[i| | | |e]|] eqn:Hsell;
    try discriminate.
  injection Hpair as <- <-. cbn [filled_amount average].
  exists last, balance.
  repeat split; try reflexivity; try exact Hsell; try exact Hbuy.
  - unfold Qc_ltb in Hlt. apply negb_false_iff, Qc_leb_le in Hlt. exact Hlt.
  - intro Hlast. apply Qc_eqb_eq in Hlast. congruence.
Qed.

(** X6: The attempts of [create_buy_order] and [create_sell_order]: at most
    three, continued only after a rate limit.  The order is placed exactly
    when the first attempt that is not rate-limited succeeds; a placed order
    clears the insufficient-funds flag and queues nothing; a failure queues
    at most one notification; three rate limits in a row give up with the
    world as it was, without any notification. *)
Theorem order_placement_attempts (env : CreateEnv) (amount price : Qc) (w : World) :
  let buy := create_buy_order env amount in
  let sell := create_sell_order env amount price in
  (forall fill, eval buy w = Some fill
                <-> decisive (market_buy env amount) = Some (Placed fill))
  /\ (forall sell_id, eval sell w = Some sell_id
                      <-> decisive (limit_sell env amount price) = Some (Placed sell_id))
  /\ (eval buy w <> None ->
      exec buy w = exec (set_insufficient_funds_notified false) w)
  /\ (eval sell w <> None ->
      exec sell w = exec (set_insufficient_funds_notified false) w)
  /\ (exists more, notification_queue (exec buy w) = notification_queue w ++ more
                   /\ (List.length more <= 1)%nat)
  /\ (exists more, notification_queue (exec sell w) = notification_queue w ++ more
                   /\ (List.length more <= 1)%nat)
  /\ ((forall n, (n < 3)%nat -> market_buy env amount n = RateLimitExceeded) ->
      buy w = (None, w))
  /\ ((forall n, (n < 3)%nat -> limit_sell env amount price n = RateLimitExceeded) ->
      sell w = (None, w)).
Proof.
  intros buy sell. subst buy sell. unfold eval, exec.
  rewrite create_buy_order_run, create_sell_order_run.
  assert (Hnil : notification_queue w = notification_queue w ++ [])
    by (symmetry; apply app_nil_r).
  assert (Hgive_up : forall A (reply : nat -> attempt A),
            (forall n, (n < 3)%nat -> reply n = RateLimitExceeded) ->
            decisive reply = None).
  { intros A reply Hall. unfold decisive. simpl.
    rewrite !Hall by lia. reflexivity. }
  repeat split.
  - destruct (decisive (market_buy env amount)) as [[f| | | |e]|]; cbn [fst];
      congruence.
  - intros ->. reflexivity.
  - destruct (decisive (limit_sell env amount price)) as [[i| | | |e]|]; cbn [fst];
      congruence.
  - intros ->. reflexivity.
  - destruct (decisive (market_buy env amount)) as [[f| | | |e]|]; cbn [fst snd];
      intro H; try contradiction; reflexivity.
  - destruct (decisive (limit_sell env amount price)) as [[i| | | |e]|]; cbn [fst snd];
      intro H; try contradiction; reflexivity.
  - destruct (decisive (market_buy env amount)) as [[f| | | |e]|]; cbn [snd];
      try (destruct (insufficient_funds_notified w));
      first [ exists []; split; [exact Hnil | simpl; lia]
            | eexists [_]; split; [reflexivity | simpl; lia] ].
  - destruct (decisive (limit_sell env amount price)) as [[i| | | |e]|]; cbn [snd];
      try (destruct (insufficient_funds_notified w));
      first [ exists []; split; [exact Hnil | simpl; lia]
            | eexists [_]; split; [reflexivity | simpl; lia] ].
  - intro Hall. rewrite (Hgive_up _ _ Hall). reflexivity.
  - intro Hall. rewrite (Hgive_up _ _ Hall). reflexivity.
Qed.

(** X7: How [create_new_order] ends.  When the reads succeed, the balance
    suffices, the price is not zero and both orders are accepted, it appends
    one order to the book: the id of the sell, the amount and the average
    price of the purchase, the sell price at the margin over the buy price,
    as the floats give it, and the requested role; it clears the
    insufficient-funds flag, queues the purchase notification and nothing
    else, and leaves the counters and the state file alone.  It raises,
    returning nothing, when a read fails, when the balance read is [None],
    and, with funds, when the price is [None] or zero or a figure of the
    purchase is missing.  In every other case it returns the book
    unchanged. *)
Theorem create_new_order_books_placed_pair
    (env : CreateEnv) (book : Book) (role : string) (w : World) :
  let ending := eval (create_new_order env book role) w in
  (forall fill sell_id,
     creation_of env = Created fill sell_id ->
     create_new_order env book role w
     = (Return (mkBook (active_orders book ++ [booked_order fill sell_id role])
                       (executed_orders_count book) (total_profit book)),
        mkWorld false (trading_stopped w)
                (notification_queue w
                 ++ [BoughtMsg (filled_amount fill) (average fill)
                               (fmul (average fill) (fadd 1 profit_percent))])
                (state_file w) (writes w) (creations w ++ [role]))
     /\ booked_order fill sell_id role
        = mkOrder sell_id (filled_amount fill)
                  (fmul (average fill) (fadd 1 profit_percent)) (average fill) role
     /\ placed_on env (filled_amount fill) (average fill) sell_id)
  /\ (creation_of env = NotCreated -> ending = Return book)
  /\ (forall e, creation_of env = CreationRaises e <-> ending = Raise e)
  /\ (forall e, load_markets env = Fails e -> ending = Raise e)
  /\ (forall e, load_markets env = Value tt -> ticker_last env = Fails e ->
                ending = Raise e)
  /\ (forall last e, load_markets env = Value tt -> ticker_last env = Value last ->
                     free_balance env = Fails e -> ending = Raise e)
  /\ (forall last, load_markets env = Value tt -> ticker_last env = Value last ->
                   free_balance env = Value None -> ending = Raise "TypeError")
  /\ (forall balance, load_markets env = Value tt ->
                      free_balance env = reading balance -> order_size <= balance ->
                      (ticker_last env = Value None -> ending = Raise "TypeError")
                      /\ (ticker_last env = reading 0 ->
                          ending = Raise "ZeroDivisionError"))
  /\ (forall last balance figure,
        funded env last balance ->
        (decisive (market_buy env (fdiv order_size last))
         = Some (Placed (mkPurchase figure None))
         \/ decisive (market_buy env (fdiv order_size last))
            = Some (Placed (mkPurchase None figure))) ->
        ending = Raise "TypeError").
Proof.
  intro ending. subst ending.
  assert (Hfunds := fun balance => Qc_ltb_ge balance order_size).
  split; [|rewrite create_new_order_eval; unfold creation_of, reading, funded;
           repeat split].
  - intros fill sell_id Hpair.
    assert (Hplaced := creation_placed_on env fill sell_id Hpair).
    split; [|split; [reflexivity | exact Hplaced]].
    destruct Hplaced as [last [balance [Hfunded [Hbuy Hsell]]]].
    rewrite (create_new_order_with_funds env book role w last balance Hfunded).
    rewrite bind_run. unfold eval, exec. rewrite create_buy_order_run, Hbuy.
    cbn [fst snd]. unfold sell_bought, bought.
    cbn [purchase_average purchase_amount]. cbv zeta.
    rewrite bind_run, bind_run. unfold eval, exec.
    rewrite create_sell_order_run, Hsell. reflexivity.
  - intros ->. reflexivity.
  - intros ->. reflexivity.
  - destruct (load_markets env) as [[]|]; [|congruence].
    destruct (ticker_last env) as [[last|]|];
      destruct (free_balance env) as [[balance|]|]; try congruence;
      destruct (Qc_ltb balance order_size); try congruence.
    destruct (Qc_eqb last 0); [congruence|].
    destruct (decisive (market_buy env (fdiv order_size last)))
      as [[purchase| | | |?]|]; try congruence.
    destruct (sale_of env purchase); congruence.
  - intros e ->. reflexivity.
  - intros e -> ->. reflexivity.
  - intros last e -> -> ->. reflexivity.
  - intros last -> -> ->. reflexivity.
  - intros ->. rewrite H, H0. cbv beta iota. rewrite (Hfunds _ H1). reflexivity.
  - intros ->. rewrite H, H0. cbv beta iota. rewrite (Hfunds _ H1). reflexivity.
  - intros last balance figure [-> [-> [-> [Hle Hne]]]] Hbuy.
    unfold reading. cbv beta iota. rewrite (Hfunds _ Hle), (Qc_eqb_neq _ _ Hne).
    destruct Hbuy as [-> | ->]; unfold sale_of;
      cbn [purchase_average purchase_amount];
      destruct figure; reflexivity.
Qed.

(** X8: A buy that is filled while the sell is refused leaves no trace in the
    book: [create_new_order] returns the book as it was, and the bought
    amount shows only in the queue, where the purchase notification is
    followed by at most one error of the sell and by the notification that
    the sell order could not be created.  The state file is not touched. *)
Theorem bought_but_not_sold
    (env : CreateEnv) (book : Book) (role : string) (w : World)
    (last balance amount average : Qc) :
  funded env last balance ->
  decisive (market_buy env (fdiv order_size last))
  = Some (Placed (bought amount average)) ->
  (forall sell_id,
     decisive (limit_sell env amount (fmul average (fadd 1 profit_percent)))
     <> Some (Placed sell_id)) ->
  let w' := exec (create_new_order env book role) w in
  eval (create_new_order env book role) w = Return book
  /\ (exists sell_error,
        notification_queue w'
        = notification_queue w
          ++ [BoughtMsg amount average (fmul average (fadd 1 profit_percent))]
          ++ sell_error ++ [SellFailedMsg]
        /\ (List.length sell_error <= 1)%nat)
  /\ state_file w' = state_file w
  /\ writes w' = writes w.
Proof.
  intros Hfunded Hbuy Hsell w'. subst w'. unfold eval, exec.
  rewrite (create_new_order_with_funds env book role w last balance Hfunded).
  rewrite bind_run. unfold eval, exec. rewrite create_buy_order_run, Hbuy.
  cbn [fst snd]. unfold sell_bought, bought.
  cbn [purchase_average purchase_amount]. cbv zeta.
  rewrite bind_run, bind_run.
  unfold eval, exec. rewrite create_sell_order_run.
  destruct (decisive (limit_sell env _ _)) as [[i| | | |e]|] eqn:Hd;
    try (exfalso; exact (Hsell i eq_refl)); cbn [fst snd].
  - split; [reflexivity|]. split; [|split; reflexivity].
    exists [SellInsufficientFundsMsg]. split; [|simpl; lia].
    simpl. rewrite <- !app_assoc. reflexivity.
  - exfalso. exact (decisive_not_rate_limit _ Hd).
  - split; [reflexivity|]. split; [|split; reflexivity].
    exists [OrderNotFoundMsg]. split; [|simpl; lia].
    simpl. rewrite <- !app_assoc. reflexivity.
  - split; [reflexivity|]. split; [|split; reflexivity].
    exists [SellErrorMsg e]. split; [|simpl; lia].
    simpl. rewrite <- !app_assoc. reflexivity.
  - split; [reflexivity|]. split; [|split; reflexivity].
    exists []. split; [|simpl; lia]. simpl. rewrite <- app_assoc. reflexivity.
Qed.

Lemma bought_but_not_sold_witness :
  funded refusing_exchange (decimal 1 1) (decimal 100 1)
  /\ eval (create_new_order refusing_exchange (mkBook [cheap_bay] 0%Z 0) "bay")
          (initial_world None)
     = Return (mkBook [cheap_bay] 0%Z 0).
Proof.
  assert (Hfunded : funded refusing_exchange (decimal 1 1) (decimal 100 1)).
  { repeat split; try reflexivity.
    - apply Qc_leb_le. vm_compute. reflexivity.
    - intro H. apply (f_equal this) in H. vm_compute in H. discriminate H. }
  split; [exact Hfunded|].
  refine (proj1 (bought_but_not_sold refusing_exchange (mkBook [cheap_bay] 0%Z 0) "bay"
                   (initial_world None) (decimal 1 1) (decimal 100 1)
                   (decimal 15 1) (decimal 1 1) Hfunded eq_refl _)).
  intros sell_id H. discriminate H.
Defined.
(** ** Reconciliation, in full *)

Lemma classify_updated_filter (fetch : string -> option string) (orders : list Order) :
  updated_orders (classify fetch orders) = filter (still_open fetch) orders.
Proof.
  induction orders as [|x rest IH]; [reflexivity|].
  simpl. unfold still_open at 1, reported.
  destruct (fetch (id x)) as [status|]; [|simpl; f_equal; exact IH].
  destruct (String.eqb status "closed"); simpl; [exact IH|].
  destruct (String.eqb status "canceled"); simpl; [|f_equal]; exact IH.
Qed.

Lemma classify_autobay_needed (fetch : string -> option string) (orders : list Order) :
  autobay_needed (classify fetch orders)
  = existsb (fun o => is_autobay o
                      && (reported fetch "closed" o || reported fetch "canceled" o))
            orders.
Proof.
  induction orders as [|x rest IH]; [reflexivity|].
  simpl. unfold reported at 1 2.
  destruct (fetch (id x)) as [status|];
    [|simpl; rewrite andb_false_r; exact IH].
  destruct (String.eqb_spec status "closed") as [->|Hc]; simpl.
  - rewrite andb_true_r, IH. reflexivity.
  - destruct (String.eqb status "canceled"); simpl.
    + rewrite andb_true_r, IH. reflexivity.
    + rewrite andb_false_r. exact IH.
Qed.

Lemma flag_buy_attempts reply attempts :
  keeps (same trading_stopped) (buy_attempts reply attempts).
Proof. induction attempts as [|n rest IH]; simpl; keeps_steps same_prim. Qed.

Lemma flag_sell_attempts reply attempts :
  keeps (same trading_stopped) (sell_attempts reply attempts).
Proof. induction attempts as [|n rest IH]; simpl; keeps_steps same_prim. Qed.

Lemma flag_save_state a e t : keeps (same trading_stopped) (save_state a e t).
Proof. unfold save_state. keeps_steps same_prim. Qed.

Lemma flag_create_new_order env book role :
  keeps (same trading_stopped) (create_new_order env book role).
Proof.
  unfold create_new_order, sell_bought, notify_insufficient_funds,
    create_buy_order, create_sell_order.
  keeps_steps ltac:(first [ apply flag_buy_attempts | apply flag_sell_attempts
                          | same_prim ]).
Qed.

Lemma flag_settle_closed closed e t :
  keeps (same trading_stopped) (settle_closed closed e t).
Proof.
  revert e t. induction closed as [|o rest IH]; intros e t; simpl.
  - keeps_steps same_prim.
  - keeps_steps ltac:(first [apply IH | same_prim]).
Qed.

Lemma flag_report_canceled canceled :
  keeps (same trading_stopped) (report_canceled canceled).
Proof. induction canceled as [|o rest IH]; simpl; keeps_steps same_prim. Qed.

Lemma flag_check_orders env book ic :
  keeps (same trading_stopped) (check_orders env book ic).
Proof.
  unfold check_orders, finish_check, save_book.
  keeps_steps ltac:(first [ apply flag_settle_closed | apply flag_report_canceled
                          | apply flag_save_state | apply flag_create_new_order
                          | same_prim ]).
Qed.

Lemma flag_price_drop env book : keeps (same trading_stopped) (price_drop env book).
Proof.
  unfold price_drop, replace_autobay, notify_insufficient_funds, save_book.
  keeps_steps ltac:(first [ apply flag_save_state | apply flag_create_new_order
                          | same_prim ]).
Qed.

Lemma flag_reconcile env book : keeps (same trading_stopped) (reconcile env book).
Proof.
  unfold reconcile, save_book.
  keeps_steps ltac:(first [ apply flag_save_state | apply flag_check_orders
                          | same_prim ]).
Qed.

Lemma replenishes_due (fetch : string -> option string) (orders : list Order)
    (ic stopped : bool) :
  replenishes (classify fetch orders) ic stopped
  = replenishment_due fetch orders ic stopped.
Proof.
  unfold replenishes, replenishment_due.
  rewrite classify_updated_filter, classify_autobay_needed. reflexivity.
Qed.

(** X9: [check_orders] calls [create_new_order] at most once, for an
    ['autobay'], and exactly when trading is enabled and either the initial
    check finds no order still open or a later check finds an ['autobay']
    closed or canceled.  Without the call, and when the call returns, the
    book is made of the orders carried over, followed by the new order if
    the pair was placed.  When the call raises, the [except] arm returns
    the list that was passed in, closed and canceled orders included, with
    the types that the rotation wrote into it. *)
Theorem check_orders_replenishment (env : CheckEnv) (book : Book) (ic : bool)
    (w : World) :
  let due := replenishment_due (fetch_order env) (active_orders book) ic
               (trading_stopped w) in
  let carried := carried_over env book (trading_stopped w) in
  let after := active_orders (eval (check_orders env book ic) w) in
  creations (exec (check_orders env book ic) w)
  = creations w ++ (if due then ["autobay"] else [])
  /\ (due = false -> after = carried)
  /\ (due = true ->
      match creation_of (on_create env) with
      | Created fill sell_id => after = carried ++ [booked_order fill sell_id "autobay"]
      | NotCreated => after = carried
      | CreationRaises _ =>
          after = rotated_in_place (fetch_order env)
                    (flagautobay (classify (fetch_order env) (active_orders book)))
                    (active_orders book)
          /\ Forall2 same_but_type after (active_orders book)
      end).
Proof.
  intros due carried after. subst due carried after. rewrite <- replenishes_due.
  destruct (check_orders_result env book ic w) as [Hbook Hcreations].
  rewrite Hbook, Hcreations. cbn [active_orders].
  split; [reflexivity|].
  split; intro Hdue; rewrite Hdue; [reflexivity|].
  assert (Hs : trading_stopped w = false).
  { unfold replenishes in Hdue. destruct (trading_stopped w);
      [discriminate | reflexivity]. }
  unfold replenished. rewrite Hs.
  destruct (creation_of (on_create env)); try reflexivity.
  split; [reflexivity | apply rotated_in_place_pointwise].
Qed.


(** X10: While trading is stopped, [check_orders] buys nothing and retypes
    nothing: it returns, in their order, the orders that the poll does not
    report closed or canceled, and leaves trading stopped. *)
Theorem check_orders_while_stopped (env : CheckEnv) (book : Book) (ic : bool)
    (w : World) :
  trading_stopped w = true ->
  active_orders (eval (check_orders env book ic) w)
  = filter (still_open (fetch_order env)) (active_orders book)
  /\ creations (exec (check_orders env book ic) w) = creations w
  /\ trading_stopped (exec (check_orders env book ic) w) = true.
Proof.
  intro Hstopped.
  destruct (check_orders_result env book ic w) as [Hbook Hcreations].
  rewrite Hbook, Hcreations. unfold replenishes, carried_over.
  rewrite Hstopped. cbn [negb andb active_orders].
  rewrite !app_nil_r, classify_updated_filter.
  split; [reflexivity|]. split; [reflexivity|].
  transitivity (trading_stopped w);
    [apply (flag_check_orders env book ic w) | exact Hstopped].
Qed.

Lemma check_orders_while_stopped_witness :
  let w := mkWorld false true [] None [] [] in
  trading_stopped w = true
  /\ active_orders (eval (check_orders autobay_filled
                            (mkBook [cheap_bay; dear_autobay] 0%Z 0) false) w)
     = [cheap_bay].
Proof.
  split; [reflexivity|].
  exact (proj1 (check_orders_while_stopped autobay_filled
                  (mkBook [cheap_bay; dear_autobay] 0%Z 0) false
                  (mkWorld false true [] None [] []) eq_refl)).
Defined.

Lemma autobay_count_app (l1 l2 : list Order) :
  autobay_count (l1 ++ l2) = (autobay_count l1 + autobay_count l2)%nat.
Proof.
  induction l1 as [|o rest IH]; [reflexivity|].
  simpl app. rewrite !autobay_count_cons, IH. lia.
Qed.

(** X11: A regular check that finds the ['autobay'] closed or canceled while
    other orders stay open gives the role to one of those and then buys a
    new ['autobay'] as well: if the pair is placed, the book it returns
    holds two ['autobay'] orders. *)
Theorem replenishment_gives_second_autobay (env : CheckEnv) (book : Book)
    (w : World) :
  let fetch := fetch_order env in
  trading_stopped w = false ->
  filter (still_open fetch) (active_orders book) <> [] ->
  (forall o, In o (active_orders book) -> is_autobay o = true ->
             fetch (id o) <> None) ->
  existsb (autobay_gone fetch) (active_orders book) = true ->
  placed_pair (on_create env) <> None ->
  autobay_count (active_orders (eval (check_orders env book false) w)) = 2%nat.
Proof.
  intros fetch Henabled Hopen Hpolled Hgone Hplaced.
  destruct (check_orders_result env book false w) as [Hbook _].
  rewrite Hbook. cbn [active_orders].
  rewrite replenishes_due. unfold replenishment_due. fold fetch.
  rewrite Henabled, Hgone. cbn [negb andb].
  unfold replenished, placed_pair in *.
  destruct (creation_of (on_create env)) as [fill sell_id| |e];
    try contradiction.
  rewrite autobay_count_app. unfold carried_over. cbv zeta iota.
  assert (Hne : updated_orders (classify fetch (active_orders book)) <> [])
    by (rewrite classify_updated_filter; exact Hopen).
  destruct (rotation_after_classification fetch (active_orders book) Hne Hpolled)
    as [Hone _].
  fold fetch. rewrite Hone. reflexivity.
Qed.

Lemma replenishment_gives_second_autobay_witness :
  autobay_count
    (active_orders (eval (check_orders autobay_filled
                            (mkBook [cheap_bay; dear_autobay] 0%Z 0) false)
                         (initial_world None))) = 2%nat.
Proof.
  apply (replenishment_gives_second_autobay autobay_filled
           (mkBook [cheap_bay; dear_autobay] 0%Z 0) (initial_world None)).
  - reflexivity.
  - discriminate.
  - intros o [<- | [<- | []]] _; discriminate.
  - reflexivity.
  - discriminate.
Defined.
(** ** What reaches the state file *)

Lemma written_in_turn_app file ds1 file1 ds2 file2 :
  written_in_turn file ds1 file1 -> written_in_turn file1 ds2 file2 ->
  written_in_turn file (ds1 ++ ds2) file2.
Proof.
  revert file. induction ds1 as [|d rest IH]; intros file H1 H2; simpl in *.
  - subst file1. exact H2.
  - destruct H1 as [Hdiff [Hworth Hrest]]. repeat split; auto.
Qed.

#[export] Instance writes_in_turn_preorder : PreOrder writes_in_turn.
Proof.
  split.
  - intro w. exists []. split; [symmetry; apply app_nil_r | reflexivity].
  - intros w1 w2 w3 [ds1 [H1 T1]] [ds2 [H2 T2]]. exists (ds1 ++ ds2). split.
    + rewrite H2, H1. symmetry. apply app_assoc.
    + exact (written_in_turn_app _ _ _ _ _ T1 T2).
Qed.

Ltac writes_prim :=
  solve [ assumption
        | intro; exists []; split; [symmetry; apply app_nil_r | reflexivity] ].

Lemma writes_save_state a e t : keeps writes_in_turn (save_state a e t).
Proof.
  intro w. unfold exec. rewrite save_state_run.
  destruct (nothing_to_save a e t (trading_stopped w)) eqn:Hnothing;
    [reflexivity|].
  destruct (same_state _ _) eqn:Hsame; [reflexivity|].
  exists [snapshot a e t (trading_stopped w)]. split; [reflexivity|].
  simpl. split; [exact Hsame|]. split; [|reflexivity].
  exists a, e, t, (trading_stopped w). split; [reflexivity | exact Hnothing].
Qed.

Lemma writes_buy_attempts reply attempts :
  keeps writes_in_turn (buy_attempts reply attempts).
Proof. induction attempts as [|n rest IH]; simpl; keeps_steps writes_prim. Qed.

Lemma writes_sell_attempts reply attempts :
  keeps writes_in_turn (sell_attempts reply attempts).
Proof. induction attempts as [|n rest IH]; simpl; keeps_steps writes_prim. Qed.

Lemma writes_create_new_order env book role :
  keeps writes_in_turn (create_new_order env book role).
Proof.
  unfold create_new_order, sell_bought, notify_insufficient_funds, create_buy_order,
    create_sell_order.
  keeps_steps ltac:(first [ apply writes_buy_attempts | apply writes_sell_attempts
                          | writes_prim ]).
Qed.

Lemma writes_settle_closed closed e t :
  keeps writes_in_turn (settle_closed closed e t).
Proof.
  revert e t. induction closed as [|o rest IH]; intros e t; simpl.
  - keeps_steps writes_prim.
  - keeps_steps ltac:(first [apply IH | writes_prim]).
Qed.

Lemma writes_report_canceled canceled :
  keeps writes_in_turn (report_canceled canceled).
Proof. induction canceled as [|o rest IH]; simpl; keeps_steps writes_prim. Qed.

Ltac writes_calls :=
  first [ apply writes_save_state | apply writes_create_new_order
        | apply writes_settle_closed | apply writes_report_canceled
        | writes_prim ].

Lemma writes_check_orders env book ic :
  keeps writes_in_turn (check_orders env book ic).
Proof. unfold check_orders, finish_check, save_book. keeps_steps writes_calls. Qed.

Lemma writes_handle_command env book :
  keeps writes_in_turn (handle_command env book).
Proof.
  unfold handle_command, stop_command, start_command, buy_command, save_book.
  keeps_steps ltac:(first [ apply writes_check_orders | writes_calls ]).
Qed.

Lemma writes_reconcile env book : keeps writes_in_turn (reconcile env book).
Proof.
  unfold reconcile, save_book.
  keeps_steps ltac:(first [ apply writes_check_orders | writes_calls ]).
Qed.

Lemma writes_price_drop env book : keeps writes_in_turn (price_drop env book).
Proof.
  unfold price_drop, replace_autobay, notify_insufficient_funds, save_book.
  keeps_steps writes_calls.
Qed.

Lemma writes_tick env book : keeps writes_in_turn (tick env book).
Proof.
  unfold tick.
  keeps_steps ltac:(first [ apply writes_handle_command | apply writes_reconcile
                          | apply writes_price_drop ]).
Qed.

Lemma writes_ticks envs book : keeps writes_in_turn (ticks envs book).
Proof.
  revert book. induction envs as [|env rest IH]; intro book; simpl.
  - keeps_steps writes_prim.
  - keeps_steps ltac:(first [ apply writes_tick | apply IH ]).
Qed.

Lemma writes_startup env : keeps writes_in_turn (startup env).
Proof.
  unfold startup, load_state, save_book.
  keeps_steps ltac:(first [ apply writes_check_orders | writes_calls ]).
Qed.

(** X12: From the start of [run_bot] through any number of iterations, every
    write to the state file differs from what the file held at that moment
    and is never the empty, zeroed, trading-enabled state; the file ends up
    holding the last state written, or what it held before if there was
    none.  (A [json.dump] that is reached is taken to succeed.) *)
Theorem run_bot_writes_only_changes (env : CheckEnv) (envs : list TickEnv)
    (w : World) :
  let run := (book <- startup env ;; ticks envs book) in
  exists ds, writes (exec run w) = writes w ++ ds
             /\ written_in_turn (state_file w) ds (state_file (exec run w)).
Proof.
  intro run. subst run.
  assert (Hkeeps : keeps writes_in_turn (book <- startup env ;; ticks envs book)).
  { apply keeps_bind; [apply writes_startup | intro book; apply writes_ticks]. }
  exact (Hkeeps w).
Qed.

(** ** The commands *)

Lemma demote_first_autobay_none (l : list Order) :
  find is_autobay l = None -> demote_first_autobay l = l.
Proof.
  induction l as [|o rest IH]; simpl; [reflexivity|].
  destruct (is_autobay o); [discriminate|].
  intro H. rewrite (IH H). reflexivity.
Qed.

Lemma save_state_stopped_persists a e t (w : World) :
  trading_stopped w = true ->
  state_file (exec (save_state a e t) w) = Some (Object (snapshot a e t true)).
Proof.
  intro Hs. rewrite save_state_persists; rewrite Hs; [reflexivity|].
  unfold nothing_to_save. apply andb_false_r.
Qed.

Lemma save_state_again a e t s (w : World) :
  trading_stopped w = s ->
  state_file w = Some (Object (snapshot a e t s)) ->
  save_state a e t w = (tt, w).
Proof.
  intros Hs Hf. rewrite save_state_run, Hs, Hf, same_state_refl.
  destruct (nothing_to_save a e t s); reflexivity.
Qed.

Lemma stop_command_run (book : Book) (w : World) :
  let stopped := exec (set_trading_stopped true) w in
  let book' := with_orders book (demote_first_autobay (active_orders book)) in
  eval (stop_command book) w = book'
  /\ trading_stopped (exec (stop_command book) w) = true
  /\ state_file (exec (stop_command book) w)
     = Some (Object (snapshot (active_orders book') (executed_orders_count book')
                              (total_profit book') true))
  /\ creations (exec (stop_command book) w) = creations w.
Proof.
  intros stopped book'. subst book'. unfold stop_command. run.
  fold stopped.
  assert (Hstopped : trading_stopped stopped = true) by reflexivity.
  destruct (find is_autobay (active_orders book)) as [order|] eqn:Hfind.
  - unfold save_book, with_orders. run.
    cbn [active_orders executed_orders_count total_profit].
    set (a := demote_first_autobay (active_orders book)).
    set (e := executed_orders_count book). set (t := total_profit book).
    set (w1 := exec (save_state a e t) stopped).
    assert (Hs1 : trading_stopped w1 = true).
    { unfold w1. rewrite save_state_trading_stopped. exact Hstopped. }
    assert (Hf1 : state_file w1 = Some (Object (snapshot a e t true)))
      by (apply save_state_stopped_persists, Hstopped).
    set (w2 := exec (save_notification (StoppedMsg (id order))) w1).
    assert (Hagain : save_state a e t w2 = (tt, w2))
      by (apply (save_state_again a e t true); [exact Hs1 | exact Hf1]).
    unfold exec at 1 2 3. rewrite Hagain. cbn [snd].
    split; [reflexivity|]. split; [exact Hs1|]. split; [exact Hf1|].
    change (creations w2) with (creations w1). unfold w1.
    rewrite creations_save_state. reflexivity.
  - unfold save_book, with_orders. run.
    rewrite (demote_first_autobay_none _ Hfind).
    cbn [active_orders executed_orders_count total_profit].
    set (w1 := exec (save_notification NoAutobayMsg) stopped).
    split; [destruct book; reflexivity|].
    split; [rewrite save_state_trading_stopped; reflexivity|].
    split; [apply save_state_stopped_persists; reflexivity|].
    rewrite creations_save_state. reflexivity.
Qed.

(** X13: The "stop" command always reaches the state file: whatever the book
    and the file were, trading is stopped, the first ['autobay'] of the
    book, if any, has become a ['bay'] in its place, with its id, amount,
    price and buy price, and nothing else has changed, no order is placed,
    and the file holds that book with the stop flag. *)
Theorem stop_command_is_persisted (book : Book) (w : World) :
  let book' := eval (stop_command book) w in
  let w' := exec (stop_command book) w in
  trading_stopped w' = true
  /\ active_orders book' = demote_first_autobay (active_orders book)
  /\ (forall autobay_order,
        find is_autobay (active_orders book) = Some autobay_order ->
        demoted_in_place (active_orders book) (active_orders book') autobay_order)
  /\ (find is_autobay (active_orders book) = None ->
      active_orders book' = active_orders book)
  /\ executed_orders_count book' = executed_orders_count book
  /\ total_profit book' = total_profit book
  /\ creations w' = creations w
  /\ state_file w'
     = Some (Object (snapshot (active_orders book') (executed_orders_count book')
                              (total_profit book') true))
  /\ eval load_state w' = book'.
Proof.
  intros book' w'. subst book' w'.
  destruct (stop_command_run book w) as [Hbook [Hstopped [Hfile Hcreations]]].
  rewrite Hbook in *. cbn [active_orders with_orders].
  split; [assumption|]. split; [reflexivity|].
  split; [intros a Ha; apply demote_first_autobay_in_place, Ha|].
  split; [apply demote_first_autobay_none|].
  repeat split; try assumption.
  apply (load_state_snapshot _ _ _ _ _ Hfile).
Qed.

Lemma file_buy_attempts reply attempts :
  keeps (same state_file) (buy_attempts reply attempts).
Proof. induction attempts as [|n rest IH]; simpl; keeps_steps same_prim. Qed.

Lemma file_sell_attempts reply attempts :
  keeps (same state_file) (sell_attempts reply attempts).
Proof. induction attempts as [|n rest IH]; simpl; keeps_steps same_prim. Qed.

(** [create_new_order] itself does not touch the state file. *)
Lemma file_create_new_order env book role :
  keeps (same state_file) (create_new_order env book role).
Proof.
  unfold create_new_order, sell_bought, notify_insufficient_funds,
    create_buy_order, create_sell_order.
  keeps_steps ltac:(first [ apply file_buy_attempts | apply file_sell_attempts
                          | same_prim ]).
Qed.

Lemma start_command_on_empty_book (env : TickEnv) (w : World) :
  placed_pair (on_create (on_start env)) = None ->
  eval (start_command env empty_book) w = empty_book
  /\ trading_stopped (exec (start_command env empty_book) w) = false
  /\ state_file (exec (start_command env empty_book) w) = state_file w.
Proof.
  intro Hnone. unfold start_command. run.
  set (w0 := exec (set_insufficient_funds_notified false)
               (exec (set_trading_stopped false) w)).
  assert (Hs0 : trading_stopped w0 = false) by reflexivity.
  assert (Hf0 : state_file w0 = state_file w) by reflexivity.
  assert (Hbook : eval (check_orders (on_start env) empty_book true) w0 = empty_book).
  { destruct (check_orders_result (on_start env) empty_book true w0) as [-> _].
    rewrite Hs0. unfold replenished, placed_pair in *.
    destruct (creation_of (on_create (on_start env)));
      [discriminate Hnone| |]; reflexivity. }
  set (w1 := exec (check_orders (on_start env) empty_book true) w0).
  assert (Hs1 : trading_stopped w1 = false).
  { unfold w1. rewrite (flag_check_orders (on_start env) empty_book true w0).
    exact Hs0. }
  assert (Hf1 : state_file w1 = state_file w).
  { unfold w1, exec. rewrite check_orders_run. unfold finish_check.
    rewrite bind_run. cbv beta. rewrite eval_get, exec_get.
    change (trading_stopped (enqueue _ w0)) with false.
    cbn [classify empty_book active_orders fold_left updated_orders is_empty
         andb negb]. rewrite bind_run.
    destruct (eval (create_new_order _ _ _) _); cbn [snd ret];
      rewrite (file_create_new_order _ _ _ (enqueue [CheckStartedMsg] w0));
      reflexivity. }
  rewrite Hbook. unfold save_book, empty_book.
  cbn [active_orders executed_orders_count total_profit].
  assert (Hskip : save_state [] 0%Z 0 w1 = (tt, w1)).
  { rewrite save_state_run, Hs1. reflexivity. }
  unfold exec at 1 2. rewrite Hskip. cbn [snd].
  split; [reflexivity|]. split; [exact Hs1 | exact Hf1].
Qed.

(** X14: "start" on a bot with no orders, no executed order and no profit whose
    purchase fails leaves the state file as it was: trading is enabled in
    memory only.  If the file still says that trading is stopped, as it
    does after a "stop" command, the next [load_state], that of the stats
    handler, stops trading again. *)
Theorem start_on_empty_book_not_persisted (env : TickEnv) (w : World) :
  placed_pair (on_create (on_start env)) = None ->
  let w' := exec (start_command env empty_book) w in
  trading_stopped w' = false
  /\ state_file w' = state_file w
  /\ (forall d, state_file w = Some (Object d) ->
                d_trading_stopped d = Some true ->
                trading_stopped (exec send_stats w') = true).
Proof.
  intros Hnone w'. subst w'.
  destruct (start_command_on_empty_book env w Hnone) as [_ [Hstopped Hfile]].
  split; [exact Hstopped|]. split; [exact Hfile|].
  intros d Hd Hflag. unfold send_stats, load_state. run.
  rewrite Hfile, Hd. run.
  unfold exec, set_trading_stopped. cbn [snd trading_stopped].
  rewrite Hflag. reflexivity.
Qed.

Lemma start_on_empty_book_not_persisted_witness :
  let stopped := exec (stop_command empty_book) (initial_world None) in
  let started := exec (start_command (broke_tick (Some "start")) empty_book) stopped in
  trading_stopped started = false
  /\ trading_stopped (exec send_stats started) = true.
Proof.
  destruct (start_on_empty_book_not_persisted (broke_tick (Some "start"))
              (exec (stop_command empty_book) (initial_world None)) eq_refl)
    as [Hstarted [_ Hstats]].
  split; [exact Hstarted|].
  exact (Hstats (snapshot [] 0%Z 0 true) eq_refl eq_refl).
Defined.

Lemma grows_anything_save_state a e t :
  keeps (queue_grows_by (fun _ => true)) (save_state a e t).
Proof. apply grows_save_state. Qed.

Lemma autobay_count_nil : autobay_count [] = 0%nat.
Proof. reflexivity. Qed.

(** A [create_new_order] that raises has queued nothing and written
    nothing. *)
Lemma create_new_order_raises_quiet (env : CreateEnv) (book : Book)
    (role : string) (w : World) (e : string) :
  creation_of env = CreationRaises e ->
  notification_queue (exec (create_new_order env book role) w)
  = notification_queue w
  /\ state_file (exec (create_new_order env book role) w) = state_file w
  /\ writes (exec (create_new_order env book role) w) = writes w.
Proof.
  unfold creation_of, create_new_order. rewrite exec_bind.
  set (w1 := exec (record_creation role) w).
  change (notification_queue w) with (notification_queue w1).
  change (state_file w) with (state_file w1).
  change (writes w) with (writes w1). clearbody w1.
  destruct (load_markets env) as [[]|]; [|intros _; repeat split; reflexivity].
  destruct (ticker_last env) as [last|]; [|intros _; repeat split; reflexivity].
  destruct (free_balance env) as [[balance|]|];
    [|intros _; repeat split; reflexivity|intros _; repeat split; reflexivity].
  destruct (Qc_ltb balance order_size); [discriminate|].
  rewrite exec_bind.
  set (w2 := exec (set_insufficient_funds_notified false) w1).
  change (notification_queue w1) with (notification_queue w2).
  change (state_file w1) with (state_file w2).
  change (writes w1) with (writes w2). clearbody w2.
  destruct last as [last|]; [|intros _; repeat split; reflexivity].
  destruct (Qc_eqb last 0); [intros _; repeat split; reflexivity|].
  cbv zeta. unfold exec. rewrite bind_run. unfold eval, exec.
  rewrite create_buy_order_run.
  destruct (decisive (market_buy env (fdiv order_size last)))
    as [[[units paid]| | | |?]|]; try discriminate.
  unfold sale_of, sell_bought. cbn [fst snd purchase_average purchase_amount].
  destruct paid as [paid|]; [|intros _; repeat split; reflexivity].
  destruct units as [units|]; [|intros _; repeat split; reflexivity].
  destruct (decisive (limit_sell env units _)) as [[?| | | |?]|]; discriminate.
Qed.

(** X15: The "buy" command calls [create_new_order] once, for a ['bay'].  When
    the call returns, the command announces a new ['bay'] whether or not one
    was bought: the notification is the last one it queues even when the
    purchase failed and the book is returned as it was; a purchase adds one
    ['bay'] at the end of the book and leaves the ['autobay'] orders alone.
    When the call raises, nothing catches the exception: nothing is queued
    or written, and the loop of [run_bot] ends there, whatever iterations
    were to follow. *)
Theorem buy_command_reports_created_regardless (env : TickEnv) (book : Book)
    (w : World) :
  let ending := eval (buy_command env book) w in
  let w' := exec (buy_command env book) w in
  creations w' = creations w ++ ["bay"]
  /\ match creation_of (on_buy env) with
     | CreationRaises e =>
         ending = Raise e
         /\ notification_queue w' = notification_queue w
         /\ state_file w' = state_file w
         /\ writes w' = writes w
         /\ (command env = Some "buy" ->
             forall later, ticks (env :: later) book w = (Raise e, w'))
     | _ =>
         ending = Return (with_orders book (active_orders book ++ manual_order env))
         /\ (placed_pair (on_buy env) = None -> ending = Return book)
         /\ (exists earlier,
               notification_queue w'
               = notification_queue w ++ earlier ++ [BayCreatedMsg])
         /\ autobay_count (active_orders book ++ manual_order env)
            = autobay_count (active_orders book)
     end.
Proof.
  intros ending w'. subst ending w'.
  assert (Hrun : buy_command env book w
                 = match eval (create_new_order (on_buy env) book "bay") w with
                   | Return created =>
                       (Return created,
                        exec (save_notification BayCreatedMsg)
                          (exec (save_book created)
                             (exec (create_new_order (on_buy env) book "bay") w)))
                   | Raise e =>
                       (Raise e, exec (create_new_order (on_buy env) book "bay") w)
                   end).
  { unfold buy_command. rewrite bind_run.
    destruct (eval (create_new_order (on_buy env) book "bay") w);
      [rewrite !bind_run|]; reflexivity. }
  assert (Hcalls := create_new_order_creations (on_buy env) book "bay" w).
  assert (Hquiet := create_new_order_raises_quiet (on_buy env) book "bay" w).
  assert (Heval : eval (buy_command env book) w = fst (buy_command env book w))
    by reflexivity.
  assert (Hexec : exec (buy_command env book) w = snd (buy_command env book w))
    by reflexivity.
  rewrite !Heval, !Hexec, Hrun. clear Heval Hexec.
  rewrite create_new_order_eval in *.
  unfold manual_order, placed_pair.
  set (w1 := exec (create_new_order (on_buy env) book "bay") w) in *.
  assert (Hqueue : forall created,
            exists earlier,
              notification_queue (exec (save_notification BayCreatedMsg)
                                    (exec (save_book created) w1))
              = notification_queue w ++ earlier ++ [BayCreatedMsg]).
  { intro created.
    destruct (grows_create_new_order (fun _ => true) (fun _ _ => eq_refl)
                (on_buy env) book "bay" w) as [m1 [H1 _]].
    destruct (grows_anything_save_state (active_orders created)
                (executed_orders_count created) (total_profit created) w1)
      as [m2 [H2 _]].
    exists (m1 ++ m2).
    change (notification_queue (exec (save_notification BayCreatedMsg)
                                  (exec (save_book created) w1)))
      with (notification_queue (exec (save_book created) w1) ++ [BayCreatedMsg]).
    unfold save_book. rewrite H2. fold w1 in H1. rewrite H1.
    rewrite <- !app_assoc. reflexivity. }
  assert (Hsaved : forall created,
            creations (exec (save_notification BayCreatedMsg)
                         (exec (save_book created) w1))
            = creations w ++ ["bay"]).
  { intro created.
    change (creations (exec (save_notification BayCreatedMsg)
                         (exec (save_book created) w1)))
      with (creations (exec (save_book created) w1)).
    unfold save_book. rewrite creations_save_state. exact Hcalls. }
  destruct (creation_of (on_buy env)) as [fill sell_id| |e]; cbn [fst snd].
  - split; [apply Hsaved|]. split; [reflexivity|].
    split; [discriminate|]. split; [apply Hqueue|].
    rewrite autobay_count_app. unfold booked_order.
    rewrite autobay_count_cons, autobay_count_nil. simpl. lia.
  - split; [apply Hsaved|]. rewrite app_nil_r.
    split; [destruct book; reflexivity|].
    split; [reflexivity|]. split; [apply Hqueue | reflexivity].
  - split; [exact Hcalls|]. split; [reflexivity|].
    destruct (Hquiet e eq_refl) as [Hq [Hf Hw]].
    repeat split; try assumption.
    intros Hcommand later. cbn [ticks]. rewrite bind_run.
    assert (Htick : tick env book w = (Raise e, w1)).
    { unfold tick, handle_command. rewrite Hcommand.
      cbn [String.eqb Ascii.eqb Bool.eqb]. rewrite bind_run.
      unfold eval, exec. rewrite Hrun. reflexivity. }
    unfold eval, exec. rewrite Htick. reflexivity.
Qed.

(** ** A stopped bot *)

Lemma stays_stopped_check_orders env book ic w :
  stays_stopped w (exec (check_orders env book ic) w).
Proof.
  intro Hs. split.
  - transitivity (trading_stopped w);
      [apply (flag_check_orders env book ic w) | exact Hs].
  - destruct (check_orders_result env book ic w) as [_ Hcreations].
    rewrite Hcreations. unfold replenishes. rewrite Hs. apply app_nil_r.
Qed.

Lemma stays_stopped_reconcile env book w :
  stays_stopped w (exec (reconcile env book) w).
Proof.
  intro Hs. unfold reconcile, save_book. run.
  rewrite save_state_trading_stopped, creations_save_state.
  apply stays_stopped_check_orders, Hs.
Qed.

Lemma stays_stopped_price_drop env book w :
  stays_stopped w (exec (price_drop env book) w).
Proof.
  intro Hs. unfold exec. rewrite price_drop_run.
  destruct (current_price env) as [[p|]|];
    destruct (find is_autobay (active_orders book)) as [a|];
    try (split; [exact Hs | reflexivity]).
  unfold price_dropped. rewrite Hs, andb_false_r. split; auto.
Qed.

Lemma stays_stopped_handle_command env book w :
  no_start_no_buy env = true ->
  stays_stopped w (exec (handle_command env book) w).
Proof.
  intros Hcommand Hs. unfold handle_command. unfold no_start_no_buy in Hcommand.
  destruct (command env) as [c|]; [|split; [exact Hs | reflexivity]].
  apply andb_true_iff in Hcommand. destruct Hcommand as [Hstart Hbuy].
  apply negb_true_iff in Hstart. apply negb_true_iff in Hbuy.
  destruct (String.eqb c "stop").
  - destruct (stop_command_run book w) as [_ [Hstopped [_ Hcreations]]].
    run. split; assumption.
  - rewrite Hstart, Hbuy. split; [exact Hs | reflexivity].
Qed.

Lemma stays_stopped_tick env book w :
  no_start_no_buy env = true ->
  stays_stopped w (exec (tick env book) w).
Proof.
  intros Hcommand Hs. unfold tick. rewrite exec_bind.
  set (w1 := exec (handle_command env book) w).
  destruct (stays_stopped_handle_command env book w Hcommand Hs) as [Hs1 Hc1].
  fold w1 in Hs1, Hc1.
  destruct (eval (handle_command env book) w) as [b1|e];
    [|split; [exact Hs1 | exact Hc1]].
  rewrite exec_bind.
  set (w2 := exec (reconcile env b1) w1).
  destruct (stays_stopped_reconcile env b1 w1 Hs1) as [Hs2 Hc2].
  fold w2 in Hs2, Hc2.
  destruct (stays_stopped_price_drop env (eval (reconcile env b1) w1) w2 Hs2)
    as [Hs3 Hc3].
  split; [exact Hs3 | congruence].
Qed.

(** X16: Once trading is stopped, the loop places no order for as long as no
    "start" and no "buy" command arrives, whatever the exchange reports:
    no replenishment after a closed ['autobay'], no replacement after a
    price drop; and the loop itself leaves trading stopped. *)
Theorem stopped_bot_places_no_order (envs : list TickEnv) (book : Book)
    (w : World) :
  trading_stopped w = true ->
  forallb no_start_no_buy envs = true ->
  trading_stopped (exec (ticks envs book) w) = true
  /\ creations (exec (ticks envs book) w) = creations w.
Proof.
  revert book w. induction envs as [|env rest IH]; intros book w Hs Hcommands.
  - split; [exact Hs | reflexivity].
  - simpl in Hcommands. apply andb_true_iff in Hcommands.
    destruct Hcommands as [Hcommand Hrest].
    simpl ticks. rewrite exec_bind.
    destruct (stays_stopped_tick env book w Hcommand Hs) as [Hs1 Hc1].
    destruct (eval (tick env book) w) as [b|e]; [|split; [exact Hs1 | exact Hc1]].
    destruct (IH b (exec (tick env book) w) Hs1 Hrest) as [Hs2 Hc2].
    split; [exact Hs2 | congruence].
Qed.

Lemma stopped_bot_places_no_order_witness :
  let w := mkWorld false true [] None [] [] in
  let envs := [ mkTickEnv None autobay_filled filling_exchange autobay_filled
                          (reading (decimal 1 1)) (reading (decimal 100 1))
                          filling_exchange;
                mkTickEnv (Some "stop") autobay_filled filling_exchange
                          autobay_filled (reading (decimal 1 1))
                          (reading (decimal 100 1)) filling_exchange ] in
  creations (exec (ticks envs (mkBook [cheap_bay; dear_autobay] 0%Z 0)) w) = [].
Proof.
  intros w envs.
  exact (proj2 (stopped_bot_places_no_order envs
                  (mkBook [cheap_bay; dear_autobay] 0%Z 0) w eq_refl eq_refl)).
Defined.

(** ** Where the orders of the book come from *)

Lemma same_but_type_trans (a b c : Order) :
  same_but_type a b -> same_but_type b c -> same_but_type a c.
Proof.
  unfold same_but_type. intros [? [? [? ?]]] [? [? [? ?]]].
  repeat split; congruence.
Qed.

Lemma descends_refl (envs : list CreateEnv) (l : list Order) : descends envs l l.
Proof.
  intros o Ho. left. exists o. split; [exact Ho | apply same_but_type_refl].
Qed.

Lemma descends_weaken (envs envs' : list CreateEnv) (l l' : list Order) :
  incl envs envs' -> descends envs l l' -> descends envs' l l'.
Proof.
  intros Hincl H o' Ho'.
  destruct (H o' Ho') as [Hold | [env [Henv Hnew]]]; [left; exact Hold|].
  right. exists env. split; [apply Hincl, Henv | exact Hnew].
Qed.

Lemma descends_trans (envs : list CreateEnv) (l1 l2 l3 : list Order) :
  descends envs l1 l2 -> descends envs l2 l3 -> descends envs l1 l3.
Proof.
  intros H12 H23 o3 Ho3.
  destruct (H23 o3 Ho3) as [[o2 [Ho2 Hsame]] | Hnew]; [|right; exact Hnew].
  destruct (H12 o2 Ho2) as [[o1 [Ho1 Hsame1]] | [env [Henv [Hplaced Hprice]]]].
  - left. exists o1. split; [exact Ho1|].
    exact (same_but_type_trans _ _ _ Hsame Hsame1).
  - right. exists env. destruct Hsame as [Hi [Ha [Hp Hb]]].
    rewrite Hi, Ha, Hp, Hb. auto.
Qed.

Lemma descends_retyped (envs : list CreateEnv) (l l' : list Order) :
  (forall o', In o' l' -> exists o, In o l /\ same_but_type o' o) ->
  descends envs l l'.
Proof. intros H o' Ho'. left. exact (H o' Ho'). Qed.

Lemma descends_demote (envs : list CreateEnv) (l : list Order) :
  descends envs l (demote_first_autobay l).
Proof.
  apply descends_retyped. induction l as [|x rest IH]; simpl; [intros ? []|].
  destruct (is_autobay x).
  - intros o' [<- | Ho'].
    + exists x. split; [left; reflexivity | apply same_but_type_set].
    + exists o'. split; [right; exact Ho' | apply same_but_type_refl].
  - intros o' [<- | Ho'].
    + exists x. split; [left; reflexivity | apply same_but_type_refl].
    + destruct (IH o' Ho') as [o [Ho Hsame]]. exists o. split; [right|]; assumption.
Qed.

Lemma descends_sort (envs : list CreateEnv) (l : list Order) :
  descends envs l (sort_by_price l).
Proof.
  apply descends_retyped. intros o' Ho'. exists o'.
  split; [apply sort_by_price_In, Ho' | apply same_but_type_refl].
Qed.

(** The order booked for a placed pair carries the figures of the pair. *)
Lemma booked_order_came_from (env : CreateEnv) (l : list Order) (fill : Fill)
    (sell_id role : string) :
  creation_of env = Created fill sell_id ->
  came_from [env] l (booked_order fill sell_id role).
Proof.
  intro Hpair. right. exists env. split; [left; reflexivity|].
  split; [exact (creation_placed_on env fill sell_id Hpair) | reflexivity].
Qed.

Lemma descends_appended (env : CreateEnv) (l l' : list Order) (fill : Fill)
    (sell_id role : string) :
  creation_of env = Created fill sell_id ->
  descends [env] l l' ->
  descends [env] l (l' ++ [booked_order fill sell_id role]).
Proof.
  intros Hpair Hl o' Ho'. apply in_app_or in Ho'.
  destruct Ho' as [Ho' | [<- | []]];
    [apply Hl, Ho' | apply booked_order_came_from, Hpair].
Qed.

Lemma descends_create (env : CreateEnv) (book : Book) (role : string) (w : World)
    (created : Book) :
  eval (create_new_order env book role) w = Return created ->
  descends [env] (active_orders book) (active_orders created).
Proof.
  rewrite create_new_order_eval.
  destruct (creation_of env) as [fill sell_id| |e] eqn:Hpair; intro H;
    [injection H as <- | injection H as <- | discriminate].
  - apply descends_appended; [exact Hpair | apply descends_refl].
  - apply descends_refl.
Qed.

Lemma descends_carried_over (envs : list CreateEnv) (env : CheckEnv) (book : Book)
    (stopped : bool) :
  descends envs (active_orders book) (carried_over env book stopped).
Proof.
  apply descends_retyped. intros o' Ho'.
  destruct (carried_over_survivor env book _ o' Ho') as [y [Hy Hsame]].
  apply classify_updated_In in Hy. exists y. split; [apply Hy | exact Hsame].
Qed.

Lemma descends_check_orders (env : CheckEnv) (book : Book) (ic : bool) (w : World) :
  descends [on_create env] (active_orders book)
           (active_orders (eval (check_orders env book ic) w)).
Proof.
  destruct (check_orders_result env book ic w) as [Hbook _]. rewrite Hbook.
  cbn [active_orders].
  destruct (replenishes _ _ _); [|apply descends_carried_over].
  unfold replenished.
  destruct (creation_of (on_create env)) as [fill sell_id| |e] eqn:Hpair.
  - apply descends_appended; [exact Hpair | apply descends_carried_over].
  - apply descends_carried_over.
  - apply descends_retyped. intros o' Ho'.
    exact (Forall2_In_left _ _ _ _ (rotated_in_place_pointwise _ _ _) Ho').
Qed.

Lemma start_command_eval (env : TickEnv) (book : Book) (w : World) :
  eval (start_command env book) w
  = eval (check_orders (on_start env) book true)
         (exec (set_insufficient_funds_notified false)
               (exec (set_trading_stopped false) w)).
Proof. unfold start_command. run. reflexivity. Qed.

Lemma buy_command_eval (env : TickEnv) (book : Book) (w : World) :
  eval (buy_command env book) w = eval (create_new_order (on_buy env) book "bay") w.
Proof.
  unfold buy_command. rewrite eval_bind.
  destruct (eval (create_new_order (on_buy env) book "bay") w); run; reflexivity.
Qed.

Lemma reconcile_eval (env : TickEnv) (book : Book) (w : World) :
  let checked := eval (check_orders (on_check env) book false) w in
  eval (reconcile env book) w
  = with_orders checked (sort_by_price (active_orders checked)).
Proof. intro checked. unfold reconcile. run. reflexivity. Qed.

(** What [handle_command] returns, by the command. *)
Lemma handle_command_eval (env : TickEnv) (book : Book) (w : World) :
  eval (handle_command env book) w
  = match command env with
    | None => Return book
    | Some c =>
        if String.eqb c "stop" then Return (eval (stop_command book) w)
        else if String.eqb c "start" then Return (eval (start_command env book) w)
        else if String.eqb c "buy" then eval (buy_command env book) w
        else Return book
    end.
Proof.
  unfold handle_command. destruct (command env) as [c|]; [|reflexivity].
  destruct (String.eqb c "stop"); [run; reflexivity|].
  destruct (String.eqb c "start"); [run; reflexivity|].
  destruct (String.eqb c "buy"); reflexivity.
Qed.

(** What [price_drop] returns: the book as it was, or what the creation on
    the demoted book returns. *)
Lemma price_drop_eval (env : TickEnv) (book : Book) (w : World) (result : Book) :
  eval (price_drop env book) w = Return result ->
  result = book
  \/ eval (create_new_order (on_drop env)
             (with_orders book (demote_first_autobay (active_orders book)))
             "autobay") w
     = Return result.
Proof.
  intro H.
  destruct (price_drop_cases env book w) as [[_ Hrun] | [_ [Hbook _]]].
  - right. unfold eval at 1 in H. rewrite Hrun in H.
    fold (eval (replace_autobay env book) w) in H.
    rewrite replace_autobay_eval in H. rewrite create_new_order_eval.
    exact H.
  - left. exact (Hbook result H).
Qed.

Lemma tick_eval (env : TickEnv) (book : Book) (w : World) :
  let w1 := exec (handle_command env book) w in
  eval (tick env book) w
  = match eval (handle_command env book) w with
    | Return commanded =>
        eval (price_drop env (eval (reconcile env commanded) w1))
             (exec (reconcile env commanded) w1)
    | Raise e => Raise e
    end.
Proof.
  intro w1. unfold tick. rewrite eval_bind. fold w1.
  destruct (eval (handle_command env book) w); run; reflexivity.
Qed.

Lemma tick_exec (env : TickEnv) (book : Book) (w : World) :
  let w1 := exec (handle_command env book) w in
  exec (tick env book) w
  = match eval (handle_command env book) w with
    | Return commanded =>
        exec (price_drop env (eval (reconcile env commanded) w1))
             (exec (reconcile env commanded) w1)
    | Raise e => w1
    end.
Proof.
  intro w1. unfold tick. rewrite exec_bind. fold w1.
  destruct (eval (handle_command env book) w); run; reflexivity.
Qed.

Lemma descends_handle_command (env : TickEnv) (book : Book) (w : World)
    (commanded : Book) :
  eval (handle_command env book) w = Return commanded ->
  descends (creation_envs env) (active_orders book) (active_orders commanded).
Proof.
  rewrite handle_command_eval.
  destruct (command env) as [c|];
    [|intro H; injection H as <-; apply descends_refl].
  destruct (String.eqb c "stop").
  - intro H. injection H as <-.
    destruct (stop_command_run book w) as [-> _]. apply descends_demote.
  - destruct (String.eqb c "start").
    + intro H. injection H as <-. rewrite start_command_eval.
      eapply descends_weaken; [|apply descends_check_orders].
      intros x [<- | []]. left. reflexivity.
    + destruct (String.eqb c "buy");
        [|intro H; injection H as <-; apply descends_refl].
      rewrite buy_command_eval. intro H.
      eapply descends_weaken; [|exact (descends_create _ _ _ _ _ H)].
      intros x [<- | []]. right. left. reflexivity.
Qed.

Lemma descends_reconcile (env : TickEnv) (book : Book) (w : World) :
  descends (creation_envs env) (active_orders book)
           (active_orders (eval (reconcile env book) w)).
Proof.
  rewrite reconcile_eval. cbn [with_orders active_orders].
  eapply descends_trans; [|apply descends_sort].
  eapply descends_weaken; [|apply descends_check_orders].
  intros x [<- | []]. right. right. left. reflexivity.
Qed.

Lemma descends_price_drop (env : TickEnv) (book : Book) (w : World)
    (result : Book) :
  eval (price_drop env book) w = Return result ->
  descends (creation_envs env) (active_orders book) (active_orders result).
Proof.
  intro H. destruct (price_drop_eval env book w result H) as [-> | Hcreated];
    [apply descends_refl|].
  eapply descends_trans; [apply descends_demote|].
  eapply descends_weaken; [|exact (descends_create _ _ _ _ _ Hcreated)].
  intros x [<- | []]. right. right. right. left. reflexivity.
Qed.

Lemma descends_tick (env : TickEnv) (book : Book) (w : World) (result : Book) :
  eval (tick env book) w = Return result ->
  descends (creation_envs env) (active_orders book) (active_orders result).
Proof.
  rewrite tick_eval.
  destruct (eval (handle_command env book) w) as [commanded|e] eqn:Hcommand;
    [|discriminate].
  intro H.
  eapply descends_trans; [exact (descends_handle_command _ _ _ _ Hcommand)|].
  eapply descends_trans; [apply descends_reconcile|].
  exact (descends_price_drop _ _ _ _ H).
Qed.

Lemma descends_ticks (envs : list TickEnv) (book : Book) (w : World)
    (result : Book) :
  eval (ticks envs book) w = Return result ->
  descends (flat_map creation_envs envs) (active_orders book)
           (active_orders result).
Proof.
  revert book w. induction envs as [|env rest IH]; intros book w; simpl ticks.
  - intro H. injection H as <-. apply descends_refl.
  - rewrite eval_bind.
    destruct (eval (tick env book) w) as [b|e] eqn:Htick; [|discriminate].
    intro H. cbn [flat_map].
    eapply descends_trans.
    + eapply descends_weaken; [|exact (descends_tick _ _ _ _ Htick)].
      intros x Hx. apply in_or_app. left. exact Hx.
    + eapply descends_weaken; [|exact (IH _ _ H)].
      intros x Hx. apply in_or_app. right. exact Hx.
Qed.

(** X17: The loop neither invents an order nor edits one: in the book that any
    number of iterations return, every order is an order of the book before
    with the same id, amount, price and buy price, or it carries what the
    exchange answered to one order creation of these iterations: its id is
    the id under which the sell was accepted, its amount and its buy price
    are the amount and the average price reported for the buy, and its
    price is that buy price at the margin. *)
Theorem ticks_orders_provenance (envs : list TickEnv) (book after : Book)
    (w : World) (o' : Order) :
  eval (ticks envs book) w = Return after ->
  In o' (active_orders after) ->
  (exists o, In o (active_orders book)
             /\ id o' = id o /\ amount o' = amount o
             /\ price o' = price o /\ buy_price o' = buy_price o)
  \/ (exists env cenv last balance,
        In env envs /\ In cenv (creation_envs env)
        /\ funded cenv last balance
        /\ decisive (market_buy cenv (fdiv order_size last))
           = Some (Placed (bought (amount o') (buy_price o')))
        /\ decisive (limit_sell cenv (amount o')
                       (fmul (buy_price o') (fadd 1 profit_percent)))
           = Some (Placed (id o'))
        /\ price o' = fmul (buy_price o') (fadd 1 profit_percent)).
Proof.
  intros Hrun Ho'.
  destruct (descends_ticks envs book w after Hrun o' Ho')
    as [[o [Ho Hsame]] | [cenv [Hcenv [[last [balance [Hf [Hb Hs]]]] Hprice]]]].
  - left. exists o. split; [exact Ho | exact Hsame].
  - right. apply in_flat_map in Hcenv. destruct Hcenv as [env [Henv Hcenv]].
    exists env, cenv, last, balance. auto 10.
Qed.

Lemma ticks_orders_provenance_witness :
  let new := mkOrder "n1" (decimal 15 1) (fmul (decimal 1 1) (fadd 1 profit_percent))
                     (decimal 1 1) "autobay" in
  let after := mkBook [set_order_type "bay" dear_autobay; new] 0%Z 0 in
  eval (ticks [drop_tick] (mkBook [dear_autobay] 0%Z 0)) (initial_world None)
  = Return after
  /\ In new (active_orders after)
  /\ ((exists o, In o [dear_autobay] /\ id new = id o /\ amount new = amount o
                 /\ price new = price o /\ buy_price new = buy_price o)
      \/ (exists env cenv last balance,
            In env [drop_tick] /\ In cenv (creation_envs env)
            /\ funded cenv last balance
            /\ decisive (market_buy cenv (fdiv order_size last))
               = Some (Placed (bought (amount new) (buy_price new)))
            /\ decisive (limit_sell cenv (amount new)
                           (fmul (buy_price new) (fadd 1 profit_percent)))
               = Some (Placed (id new))
            /\ price new = fmul (buy_price new) (fadd 1 profit_percent))).
Proof.
  intros new after.
  assert (Hrun : eval (ticks [drop_tick] (mkBook [dear_autobay] 0%Z 0))
                      (initial_world None) = Return after)
    by (vm_compute; reflexivity).
  assert (Hin : In new (active_orders after)) by (right; left; reflexivity).
  split; [exact Hrun|]. split; [exact Hin|].
  exact (ticks_orders_provenance [drop_tick] (mkBook [dear_autobay] 0%Z 0) after
           (initial_world None) new Hrun Hin).
Defined.

Lemma margin_descends (envs : list CreateEnv) (l l' : list Order) :
  descends envs l l' -> Forall priced_with_margin l -> Forall priced_with_margin l'.
Proof.
  intros Hdesc Hall. apply Forall_forall. intros o' Ho'.
  destruct (Hdesc o' Ho') as [[o [Ho [_ [_ [Hp Hb]]]]] | [env [_ [_ Hprice]]]].
  - unfold priced_with_margin. rewrite Hp, Hb.
    exact (proj1 (Forall_forall _ _) Hall o Ho).
  - exact Hprice.
Qed.

(** X18: Every order rests at its buy price plus the margin of 0.5%, as the
    floats give it: if that holds of the book, it holds of the book that
    any number of iterations return, whatever commands arrive and whatever
    the exchange answers. *)
Theorem ticks_keep_margin_pricing (envs : list TickEnv) (book after : Book)
    (w : World) :
  Forall priced_with_margin (active_orders book) ->
  eval (ticks envs book) w = Return after ->
  Forall priced_with_margin (active_orders after).
Proof.
  intros Hall Hrun. exact (margin_descends _ _ _ (descends_ticks _ _ _ _ Hrun) Hall).
Qed.

Lemma ticks_keep_margin_pricing_witness :
  let old := mkOrder "m2" (decimal 15 1) (fmul (decimal 2 1) (fadd 1 profit_percent))
                     (decimal 2 1) "autobay" in
  let new := mkOrder "n1" (decimal 15 1) (fmul (decimal 1 1) (fadd 1 profit_percent))
                     (decimal 1 1) "autobay" in
  let after := mkBook [set_order_type "bay" old; new] 0%Z 0 in
  Forall priced_with_margin [old]
  /\ eval (ticks [broke_tick None; drop_tick] (mkBook [old] 0%Z 0))
          (initial_world None) = Return after
  /\ Forall priced_with_margin (active_orders after).
Proof.
  intros old new after.
  assert (Hall : Forall priced_with_margin [old])
    by (constructor; [reflexivity | constructor]).
  assert (Hrun : eval (ticks [broke_tick None; drop_tick] (mkBook [old] 0%Z 0))
                      (initial_world None) = Return after)
    by (vm_compute; reflexivity).
  split; [exact Hall|]. split; [exact Hrun|].
  exact (ticks_keep_margin_pricing [broke_tick None; drop_tick]
           (mkBook [old] 0%Z 0) after (initial_world None) Hall Hrun).
Defined.

(** ** No open order is lost *)

Lemma kept_in (o : Order) (l : list Order) : In o l -> kept o l.
Proof. intro Ho. exists o. split; [exact Ho | apply same_but_type_refl]. Qed.

Lemma kept_trans (o o1 : Order) (l : list Order) :
  same_but_type o1 o -> kept o1 l -> kept o l.
Proof.
  intros Hsame [o' [Ho' Hsame']]. exists o'. split; [exact Ho'|].
  exact (same_but_type_trans _ _ _ Hsame' Hsame).
Qed.

Lemma still_open_retyped (fetch : string -> option string) (a b : Order) :
  same_but_type a b -> still_open fetch a = still_open fetch b.
Proof.
  intros [Hid _]. unfold still_open, reported. rewrite Hid. reflexivity.
Qed.

Lemma kept_demote (o : Order) (l : list Order) :
  In o l -> kept o (demote_first_autobay l).
Proof.
  induction l as [|x rest IH]; simpl; [contradiction|].
  destruct (is_autobay x).
  - intros [-> | Ho].
    + exists (set_order_type "bay" o). split; [left; reflexivity|].
      apply same_but_type_set.
    + exists o. split; [right; exact Ho | apply same_but_type_refl].
  - intros [-> | Ho].
    + exists o. split; [left; reflexivity | apply same_but_type_refl].
    + destruct (IH Ho) as [o' [Ho' Hsame]]. exists o'. split; [right|]; assumption.
Qed.

Lemma kept_create (env : CreateEnv) (book : Book) (role : string) (w : World)
    (o : Order) (created : Book) :
  eval (create_new_order env book role) w = Return created ->
  In o (active_orders book) ->
  kept o (active_orders created).
Proof.
  rewrite create_new_order_eval. intros H Ho.
  destruct (creation_of env) as [fill sell_id| |e];
    [injection H as <- | injection H as <- | discriminate];
    cbn [active_orders]; apply kept_in; [apply in_or_app; left|]; exact Ho.
Qed.

Lemma kept_check_orders (env : CheckEnv) (book : Book) (ic : bool) (w : World)
    (o : Order) :
  In o (active_orders book) -> still_open (fetch_order env) o = true ->
  kept o (active_orders (eval (check_orders env book ic) w)).
Proof.
  intros Ho Hopen. apply check_orders_keeps.
  rewrite classify_updated_filter. apply filter_In. auto.
Qed.

Lemma kept_price_drop (env : TickEnv) (book : Book) (w : World) (o : Order)
    (result : Book) :
  eval (price_drop env book) w = Return result ->
  In o (active_orders book) ->
  kept o (active_orders result).
Proof.
  intros H Ho. destruct (price_drop_eval env book w result H) as [-> | Hcreated];
    [apply kept_in, Ho|].
  destruct (kept_demote o _ Ho) as [o1 [Ho1 Hsame]].
  apply (kept_trans o o1); [exact Hsame|].
  exact (kept_create _ _ _ _ _ _ Hcreated Ho1).
Qed.

Lemma kept_handle_command (env : TickEnv) (book : Book) (w : World) (o : Order)
    (commanded : Book) :
  eval (handle_command env book) w = Return commanded ->
  In o (active_orders book) ->
  (command env = Some "start" -> still_open (fetch_order (on_start env)) o = true) ->
  kept o (active_orders commanded).
Proof.
  rewrite handle_command_eval. intros H Ho Hstart.
  destruct (command env) as [c|]; [|injection H as <-; apply kept_in, Ho].
  destruct (String.eqb c "stop").
  - injection H as <-.
    destruct (stop_command_run book w) as [-> _]. apply kept_demote, Ho.
  - destruct (String.eqb c "start") eqn:Ec.
    + apply String.eqb_eq in Ec. subst c. injection H as <-.
      rewrite start_command_eval. apply kept_check_orders; auto.
    + destruct (String.eqb c "buy"); [|injection H as <-; apply kept_in, Ho].
      rewrite buy_command_eval in H. exact (kept_create _ _ _ _ _ _ H Ho).
Qed.

(** X19: An iteration that returns loses no order that the exchange does not
    report closed or canceled: an order of the book that stays open at the
    reconciliation (and at the check of a "start" command, if one arrives)
    is in the book afterwards with its id, amount, price and buy price;
    this holds as well when its poll fails. *)
Theorem tick_keeps_open_orders (env : TickEnv) (book after : Book) (w : World)
    (o : Order) :
  eval (tick env book) w = Return after ->
  In o (active_orders book) ->
  still_open (fetch_order (on_check env)) o = true ->
  (command env = Some "start" -> still_open (fetch_order (on_start env)) o = true) ->
  exists o', In o' (active_orders after)
             /\ id o' = id o /\ amount o' = amount o
             /\ price o' = price o /\ buy_price o' = buy_price o.
Proof.
  rewrite tick_eval. intros Hrun Ho Hopen Hstart.
  destruct (eval (handle_command env book) w) as [commanded|e] eqn:Hcommand;
    [|discriminate].
  destruct (kept_handle_command env book w o commanded Hcommand Ho Hstart)
    as [o1 [Ho1 Hsame1]].
  set (w1 := exec (handle_command env book) w) in *.
  assert (Hopen1 : still_open (fetch_order (on_check env)) o1 = true)
    by (rewrite (still_open_retyped _ _ _ Hsame1); exact Hopen).
  destruct (kept_check_orders (on_check env) commanded false w1 o1 Ho1 Hopen1)
    as [o2 [Ho2 Hsame2]].
  assert (Ho2' : In o2 (active_orders (eval (reconcile env commanded) w1))).
  { rewrite reconcile_eval. cbn [with_orders active_orders].
    apply sort_by_price_In, Ho2. }
  destruct (kept_price_drop env _ (exec (reconcile env commanded) w1) o2 after
              Hrun Ho2')
    as [o3 [Ho3 Hsame3]].
  exists o3. split; [exact Ho3|].
  exact (same_but_type_trans _ _ _ Hsame3 (same_but_type_trans _ _ _ Hsame2 Hsame1)).
Qed.

Lemma tick_keeps_open_orders_witness :
  let new := mkOrder "n1" (decimal 15 1) (fmul (decimal 1 1) (fadd 1 profit_percent))
                     (decimal 1 1) "autobay" in
  let after := mkBook [cheap_bay; set_order_type "bay" dear_autobay; new] 0%Z 0 in
  eval (tick drop_tick (mkBook [dear_autobay; cheap_bay] 0%Z 0)) (initial_world None)
  = Return after
  /\ exists o', In o' (active_orders after)
                /\ id o' = id dear_autobay /\ amount o' = amount dear_autobay
                /\ price o' = price dear_autobay
                /\ buy_price o' = buy_price dear_autobay.
Proof.
  intros new after.
  assert (Hrun : eval (tick drop_tick (mkBook [dear_autobay; cheap_bay] 0%Z 0))
                      (initial_world None) = Return after)
    by (vm_compute; reflexivity).
  split; [exact Hrun|].
  refine (tick_keeps_open_orders drop_tick (mkBook [dear_autobay; cheap_bay] 0%Z 0)
            after (initial_world None) dear_autobay Hrun (or_introl eq_refl)
            eq_refl _).
  discriminate.
Defined.

(** ** The counters *)

Lemma count_create (env : CreateEnv) (book : Book) (role : string) (w : World)
    (created : Book) :
  eval (create_new_order env book role) w = Return created ->
  executed_orders_count created = executed_orders_count book.
Proof. intro H. apply (create_new_order_book env book role w created H). Qed.

Lemma count_check_orders (env : CheckEnv) (book : Book) (ic : bool) (w : World) :
  (executed_orders_count book
   <= executed_orders_count (eval (check_orders env book ic) w))%Z.
Proof.
  destruct (check_orders_book env book ic w) as [-> _]. lia.
Qed.

Lemma count_tick (env : TickEnv) (book : Book) (w : World) (after : Book) :
  eval (tick env book) w = Return after ->
  (executed_orders_count book <= executed_orders_count after)%Z.
Proof.
  rewrite tick_eval.
  set (w1 := exec (handle_command env book) w).
  destruct (eval (handle_command env book) w) as [commanded|e] eqn:Hcommand;
    [|discriminate].
  intro Hrun.
  assert (H1 : (executed_orders_count book <= executed_orders_count commanded)%Z).
  { rewrite handle_command_eval in Hcommand.
    destruct (command env) as [c|]; [|injection Hcommand as <-; reflexivity].
    destruct (String.eqb c "stop").
    - injection Hcommand as <-.
      destruct (stop_command_run book w) as [-> _]. reflexivity.
    - destruct (String.eqb c "start").
      + injection Hcommand as <-. rewrite start_command_eval.
        apply count_check_orders.
      + destruct (String.eqb c "buy"); [|injection Hcommand as <-; reflexivity].
        rewrite buy_command_eval in Hcommand.
        rewrite (count_create _ _ _ _ _ Hcommand). reflexivity. }
  assert (H2 : (executed_orders_count commanded
                <= executed_orders_count (eval (reconcile env commanded) w1))%Z).
  { rewrite reconcile_eval. cbn [with_orders executed_orders_count].
    apply count_check_orders. }
  assert (H3 : executed_orders_count after
               = executed_orders_count (eval (reconcile env commanded) w1)).
  { destruct (price_drop_eval env _ _ _ Hrun) as [-> | Hcreated];
      [reflexivity|].
    rewrite (count_create _ _ _ _ _ Hcreated). reflexivity. }
  rewrite H3. lia.
Qed.

(** X20: The count of executed orders never goes down while the loop runs:
    the book that any number of iterations return counts at least as many
    as the book they started from. *)
Theorem executed_count_never_decreases (envs : list TickEnv) (book after : Book)
    (w : World) :
  eval (ticks envs book) w = Return after ->
  (executed_orders_count book <= executed_orders_count after)%Z.
Proof.
  revert book w. induction envs as [|env rest IH]; intros book w; simpl ticks.
  - intro H. injection H as <-. reflexivity.
  - rewrite eval_bind.
    destruct (eval (tick env book) w) as [b|e] eqn:Htick; [|discriminate].
    intro H.
    etransitivity; [exact (count_tick env book w b Htick) | exact (IH _ _ H)].
Qed.

Lemma executed_count_never_decreases_witness :
  let envs := [ mkTickEnv None autobay_filled filling_exchange autobay_filled
                          (reading (decimal 1 1)) (reading (decimal 100 1))
                          filling_exchange ] in
  exists after,
    eval (ticks envs (mkBook [cheap_bay; dear_autobay] 0%Z 0)) (initial_world None)
    = Return after
    /\ (0 <= executed_orders_count after)%Z.
Proof.
  intro envs. eexists. split; [vm_compute; reflexivity|].
  refine (executed_count_never_decreases envs (mkBook [cheap_bay; dear_autobay] 0%Z 0)
            _ (initial_world None) _).
  vm_compute. reflexivity.
Defined.

(** ** The start of [run_bot] *)

(** X22: Restarting a bot whose state file says that trading is stopped keeps
    it stopped: [run_bot] places no order before its loop, even when every
    saved order has been filled meanwhile, and starts from the saved orders
    that the exchange does not report closed or canceled. *)
Theorem startup_of_stopped_bot (env : CheckEnv) (w : World) (d : StateDict) :
  state_file w = Some (Object d) ->
  d_trading_stopped d = Some true ->
  active_orders (eval (startup env) w)
  = filter (still_open (fetch_order env)) (get_default (d_active_orders d) [])
  /\ creations (exec (startup env) w) = creations w
  /\ trading_stopped (exec (startup env) w) = true.
Proof.
  intros Hfile Hflag. unfold startup, load_state, save_book. run.
  rewrite Hfile, Hflag. run.
  set (loaded := mkBook (get_default (d_active_orders d) [])
                        (get_default (d_executed_orders_count d) 0%Z)
                        (get_default (d_total_profit d) 0)).
  set (w0 := exec (set_trading_stopped (get_default (Some true) false)) w).
  assert (Hstopped : trading_stopped w0 = true) by reflexivity.
  destruct (check_orders_result env loaded true w0) as [Hbook Hcreations].
  rewrite save_state_trading_stopped, creations_save_state.
  rewrite Hbook, Hcreations. unfold replenishes, carried_over.
  rewrite Hstopped. cbn [negb andb active_orders].
  rewrite !app_nil_r, classify_updated_filter.
  split; [reflexivity|]. split; [reflexivity|].
  transitivity (trading_stopped w0);
    [apply (flag_check_orders env loaded true w0) | exact Hstopped].
Qed.

Lemma startup_of_stopped_bot_witness :
  let w := initial_world (Some (Object (snapshot [dear_autobay] 3%Z 0 true))) in
  creations (exec (startup autobay_filled) w) = []
  /\ active_orders (eval (startup autobay_filled) w) = [].
Proof.
  intro w.
  destruct (startup_of_stopped_bot autobay_filled w
              (snapshot [dear_autobay] 3%Z 0 true) eq_refl eq_refl)
    as [Hbook [Hcreations _]].
  split; [exact Hcreations | exact Hbook].
Defined.

(** The initial check of an empty book with trading enabled leaves the
    state file alone. *)
Lemma initial_check_of_empty_book_file (env : CheckEnv) (w : World) :
  trading_stopped w = false ->
  state_file (exec (check_orders env empty_book true) w) = state_file w.
Proof.
  intro Hs. unfold exec. rewrite check_orders_run. unfold finish_check.
  rewrite bind_run. cbv beta. rewrite eval_get, exec_get.
  change (trading_stopped (enqueue (loop_notifications
            (classify (fetch_order env) (active_orders empty_book)) true) w))
    with (trading_stopped w).
  rewrite Hs.
  cbn [classify empty_book active_orders fold_left updated_orders is_empty
       andb negb]. rewrite bind_run.
  destruct (eval (create_new_order _ _ _) _); cbn [snd ret];
    rewrite (file_create_new_order _ _ _ (enqueue [CheckStartedMsg] w));
    reflexivity.
Qed.

(** X23: The first start, with no state file: [run_bot] asks for one
    ['autobay'] before its loop.  If the pair is placed, the book holds that
    order alone and the file is created with it; if not, the book is empty
    and there is still no file. *)
Theorem first_startup_asks_for_one_autobay (env : CheckEnv) (w : World) :
  state_file w = None ->
  eval (startup env) w = mkBook (replenishment env) 0%Z 0
  /\ creations (exec (startup env) w) = creations w ++ ["autobay"]
  /\ trading_stopped (exec (startup env) w) = false
  /\ state_file (exec (startup env) w)
     = match placed_pair (on_create env) with
       | Some _ => Some (Object (snapshot (replenishment env) 0%Z 0 false))
       | None => None
       end.
Proof.
  intro Hfile. unfold startup, load_state, save_book. run.
  rewrite Hfile. run.
  set (w0 := exec (set_trading_stopped false) w).
  assert (Hs0 : trading_stopped w0 = false) by reflexivity.
  assert (Hf0 : state_file w0 = None) by exact Hfile.
  change (mkBook [] 0%Z 0) with empty_book.
  set (w1 := exec (check_orders env empty_book true) w0).
  assert (Hbook : eval (check_orders env empty_book true) w0
                  = mkBook (replenishment env) 0%Z 0).
  { destruct (check_orders_result env empty_book true w0) as [-> _].
    rewrite Hs0. unfold replenished, replenishment, placed_pair.
    destruct (creation_of (on_create env)); reflexivity. }
  assert (Hs1 : trading_stopped w1 = false).
  { transitivity (trading_stopped w0);
      [apply (flag_check_orders env empty_book true w0) | exact Hs0]. }
  assert (Hf1 : state_file w1 = None).
  { unfold w1. rewrite (initial_check_of_empty_book_file env w0 Hs0). exact Hf0. }
  assert (Hc1 : creations w1 = creations w ++ ["autobay"]).
  { destruct (check_orders_result env empty_book true w0) as [_ Hcreations].
    fold w1 in Hcreations. rewrite Hcreations. unfold replenishes.
    rewrite Hs0. reflexivity. }
  rewrite Hbook. cbn [active_orders executed_orders_count total_profit].
  rewrite save_state_trading_stopped, creations_save_state.
  split; [reflexivity|]. split; [exact Hc1|]. split; [exact Hs1|].
  unfold replenishment.
  destruct (placed_pair (on_create env)) as [[fill sell_id]|].
  - rewrite save_state_persists; rewrite Hs1; reflexivity.
  - unfold exec. rewrite save_state_run, Hs1. exact Hf1.
Qed.

Lemma first_startup_asks_for_one_autobay_witness :
  creations (exec (startup quiet_check) (initial_world None)) = ["autobay"]
  /\ List.length (active_orders (eval (startup quiet_check) (initial_world None)))
     = 1%nat.
Proof.
  destruct (first_startup_asks_for_one_autobay quiet_check (initial_world None)
              eq_refl) as [Hbook [Hcreations _]].
  split; [exact Hcreations|]. rewrite Hbook. reflexivity.
Defined.

(** ** The notification sender *)

Lemma send_notifications_run (sends : list bool) (queue : list notification) :
  send_notifications sends queue
  = (map snd (filter fst (combine sends queue)),
     skipn (List.length sends) queue).
Proof.
  revert queue. induction sends as [|sent later IH]; intro queue.
  - reflexivity.
  - destruct queue as [|message rest]; simpl.
    + rewrite IH. destruct later; reflexivity.
    + rewrite IH. destruct sent; reflexivity.
Qed.

(** X24: [send_notifications] delivers in the order of the queue, and a message
    whose send fails is lost: it has left the queue and is not sent again.
    After any iterations the messages delivered are, in order, those of the
    messages taken whose send returned, and the queue holds the messages
    not yet taken. *)
Theorem send_notifications_loses_failed_sends (sends : list bool)
    (queue : list notification) :
  let taken := firstn (List.length sends) queue in
  let delivered := fst (send_notifications sends queue) in
  let left := snd (send_notifications sends queue) in
  delivered = map snd (filter fst (combine sends taken))
  /\ queue = taken ++ left
  /\ (List.length delivered
      + List.length (filter (fun attempt => negb (fst attempt)) (combine sends taken))
      = List.length taken)%nat.
Proof.
  intros taken delivered left. subst taken delivered left.
  rewrite send_notifications_run. cbn [fst snd].
  rewrite combine_firstn_l.
  split; [reflexivity|]. split; [symmetry; apply firstn_skipn|].
  rewrite length_map.
  assert (Hsplit : forall l : list (bool * notification),
            (List.length (filter fst l)
             + List.length (filter (fun attempt => negb (fst attempt)) l)
             = List.length l)%nat).
  { induction l as [|[b n] l IH]; [reflexivity|].
    simpl. destruct b; simpl; lia. }
  rewrite Hsplit, length_combine, length_firstn. lia.
Qed.


(** ** A replacement that fails *)

Lemma autobay_count_demote (l : list Order) (a : Order) :
  find is_autobay l = Some a ->
  S (autobay_count (demote_first_autobay l)) = autobay_count l.
Proof.
  induction l as [|o rest IH]; simpl; [discriminate|].
  destruct (is_autobay o) eqn:Ho.
  - intros _. rewrite !autobay_count_cons, Ho. reflexivity.
  - intro Hfind. rewrite !autobay_count_cons, Ho. simpl. apply IH, Hfind.
Qed.

(** X26: When the price-drop action is taken, the old ['autobay'] is turned
    into a ['bay'] before the new pair is asked for.  If the creation then
    returns without a pair, the demotion stays: the book that the iteration
    returns and saves has the first ['autobay'] as a ['bay'] in its place,
    one ['autobay'] less than before, and nothing else changed.  If the
    creation raises, as on a last price of zero, the iteration raises with
    it: no book is returned and nothing is queued or written. *)
Theorem failed_replacement_demotes_anyway (env : TickEnv) (book : Book)
    (w : World) :
  trigger_holds env book w ->
  let demoted := demote_first_autobay (active_orders book) in
  let w' := exec (price_drop env book) w in
  (creation_of (on_drop env) = NotCreated ->
   eval (price_drop env book) w = Return (with_orders book demoted)
   /\ (exists autobay_order,
         find is_autobay (active_orders book) = Some autobay_order
         /\ demoted_in_place (active_orders book) demoted autobay_order)
   /\ S (autobay_count demoted) = autobay_count (active_orders book)
   /\ state_file w'
      = Some (Object (snapshot demoted (executed_orders_count book)
                               (total_profit book) false)))
  /\ (forall e, creation_of (on_drop env) = CreationRaises e ->
                eval (price_drop env book) w = Raise e
                /\ notification_queue w' = notification_queue w
                /\ state_file w' = state_file w
                /\ writes w' = writes w).
Proof.
  intros Htrigger demoted w'. subst w'.
  destruct (price_drop_cases env book w) as [[_ Hrun] | [Hno _]];
    [|contradiction].
  destruct Htrigger as [a [p [b [Hfind [Henabled _]]]]].
  assert (Heval : eval (price_drop env book) w = eval (replace_autobay env book) w)
    by (unfold eval; rewrite Hrun; reflexivity).
  assert (Hexec : exec (price_drop env book) w = exec (replace_autobay env book) w)
    by (unfold exec; rewrite Hrun; reflexivity).
  rewrite Heval, Hexec, replace_autobay_eval. fold demoted.
  split.
  - intro Hnone. rewrite Hnone. split; [reflexivity|].
    split; [exists a; split; [exact Hfind|];
            apply demote_first_autobay_in_place, Hfind|].
    split; [apply (autobay_count_demote _ a Hfind)|].
    unfold replace_autobay, save_book. rewrite exec_bind, create_new_order_eval, Hnone.
    run. fold demoted.
    cbn [with_orders active_orders executed_orders_count total_profit].
    set (w1 := exec (create_new_order (on_drop env) (with_orders book demoted)
                       "autobay") w).
    assert (Hs1 : trading_stopped w1 = false).
    { transitivity (trading_stopped w);
        [apply (flag_create_new_order (on_drop env) (with_orders book demoted)
                  "autobay" w)
        | exact Henabled]. }
    rewrite save_state_persists; rewrite Hs1; [reflexivity|].
    subst demoted.
    destruct (demote_first_autobay_spec _ _ Hfind) as [l1 [l2 [_ [-> _]]]].
    destruct l1; reflexivity.
  - intros e He. rewrite He. split; [reflexivity|].
    unfold replace_autobay. rewrite exec_bind, create_new_order_eval, He.
    run. fold demoted.
    exact (create_new_order_raises_quiet (on_drop env) (with_orders book demoted)
             "autobay" w e He).
Qed.

Lemma failed_replacement_demotes_anyway_witness :
  let env := mkTickEnv None quiet_check filling_exchange quiet_check
                       (reading (decimal 1 1)) (reading (decimal 100 1))
                       broke_exchange in
  trigger_holds env (mkBook [dear_autobay] 0%Z 0) (initial_world None)
  /\ eval (price_drop env (mkBook [dear_autobay] 0%Z 0)) (initial_world None)
     = Return (mkBook [set_order_type "bay" dear_autobay] 0%Z 0).
Proof.
  intro env.
  assert (Htrigger : trigger_holds env (mkBook [dear_autobay] 0%Z 0)
                                   (initial_world None)).
  { exists dear_autobay, (decimal 1 1), (decimal 100 1).
    split; [reflexivity|]. split; [reflexivity|]. split; [reflexivity|].
    split; [apply Qc_leb_le; vm_compute; reflexivity|].
    split; [reflexivity|]. apply Qc_leb_le. vm_compute. reflexivity. }
  split; [exact Htrigger|].
  exact (proj1 (proj1 (failed_replacement_demotes_anyway env
                         (mkBook [dear_autobay] 0%Z 0) (initial_world None)
                         Htrigger) eq_refl)).
Defined.

(** ** The configuration check *)

Lemma first_unset_none (keys : dict (option string)) :
  first_unset keys = None
  <-> forall key value, In (key, value) keys -> value <> None.
Proof.
  induction keys as [|[k v] rest IH]; simpl.
  - split; [intros _ ? ? [] | reflexivity].
  - destruct v as [s|].
    + rewrite IH. split.
      * intros H key value [Heq | Hin]; [injection Heq as <- <-; discriminate|].
        exact (H key value Hin).
      * intros H key value Hin. apply (H key value). right. exact Hin.
    + split; [discriminate|]. intro H. exfalso.
      apply (H k None); [left; reflexivity | reflexivity].
Qed.

Lemma first_unset_some (keys : dict (option string)) (key : string) :
  first_unset keys = Some key -> In (key, None) keys.
Proof.
  induction keys as [|[k v] rest IH]; simpl; [discriminate|].
  destruct v as [s|].
  - intro H. right. apply IH, H.
  - intro H. injection H as <-. left. reflexivity.
Qed.

(** X27: The module loads past the configuration check exactly when every
    variable of every section is set; when it raises, the error names a
    variable that is not set. *)
Theorem config_check_raises_iff_unset (config : dict (dict (option string))) :
  (config_check config = None
   <-> forall section keys key value,
         In (section, keys) config -> In (key, value) keys -> value <> None)
  /\ (forall key, config_check config = Some key ->
        exists section keys, In (section, keys) config /\ In (key, None) keys).
Proof.
  induction config as [|[s ks] rest [IHnone IHsome]]; simpl.
  - split; [split; [intros _ ? ? ? ? [] | reflexivity] | discriminate].
  - destruct (first_unset ks) as [k|] eqn:Hks.
    + split.
      * split; [discriminate|]. intro H. exfalso.
        apply (H s ks k None); [left; reflexivity | | reflexivity].
        apply first_unset_some, Hks.
      * intros key Hkey. injection Hkey as <-. exists s, ks.
        split; [left; reflexivity | apply first_unset_some, Hks].
    + split.
      * rewrite IHnone. split.
        -- intros H section keys key value [Heq | Hin] Hkey.
           ++ injection Heq as <- <-.
              exact (proj1 (first_unset_none ks) Hks key value Hkey).
           ++ exact (H section keys key value Hin Hkey).
        -- intros H section keys key value Hin. apply (H section keys key value).
           right. exact Hin.
      * intros key Hkey. destruct (IHsome key Hkey) as [section [keys [Hin Hnone]]].
        exists section, keys. split; [right; exact Hin | exact Hnone].
Qed.

(** ** The state file follows the loop *)

Lemma save_book_mirrors (book : Book) (w : World) :
  unsaved_state book w = false -> file_mirrors book (exec (save_book book) w).
Proof.
  intro Hsave. unfold file_mirrors, save_book.
  rewrite save_state_trading_stopped. apply save_state_persists, Hsave.
Qed.

Lemma reconcile_mirrors (env : TickEnv) (book : Book) (w : World) :
  let sorted := eval (reconcile env book) w in
  let w' := exec (reconcile env book) w in
  unsaved_state sorted w' = false -> file_mirrors sorted w'.
Proof.
  intros sorted w'. subst sorted w'. rewrite reconcile_eval.
  unfold reconcile. run.
  set (checked := eval (check_orders (on_check env) book false) w).
  set (sorted := with_orders checked (sort_by_price (active_orders checked))).
  set (w1 := exec (check_orders (on_check env) book false) w).
  intro Hsave. apply save_book_mirrors.
  unfold unsaved_state in *. unfold save_book in Hsave.
  rewrite save_state_trading_stopped in Hsave. exact Hsave.
Qed.

(** X28: After every iteration of the loop that returns, the state file mirrors
    the book in memory: unless the book is empty with zero counters while
    trading is enabled (the state that [save_state] never writes), the file
    holds exactly the orders, the counters and the trading flag that the
    iteration ends with, so that [load_state] gives that book back.  (A
    [json.dump] that is reached is taken to succeed.) *)
Theorem tick_leaves_file_in_step (env : TickEnv) (book book' : Book) (w : World) :
  let w' := exec (tick env book) w in
  eval (tick env book) w = Return book' ->
  unsaved_state book' w' = false ->
  file_mirrors book' w' /\ eval load_state w' = book'.
Proof.
  intros w' Hrun Hsave.
  assert (Hmirror : file_mirrors book' w').
  { subst w'. revert Hrun Hsave. rewrite tick_eval, tick_exec.
    destruct (eval (handle_command env book) w) as [commanded|e]; [|discriminate].
    set (w0 := exec (handle_command env book) w).
    assert (Hrec := reconcile_mirrors env commanded w0). cbv zeta in Hrec.
    set (sorted := eval (reconcile env commanded) w0) in *.
    set (w1 := exec (reconcile env commanded) w0) in *.
    unfold eval at 1, exec at 1 2. rewrite price_drop_run.
    destruct (current_price env) as [[p|]|];
      destruct (find is_autobay (active_orders sorted)) as [a|];
      cbn [fst snd]; try discriminate;
      try (intro H; injection H as <-; exact Hrec).
    destruct (price_dropped a p (trading_stopped w1));
      [|intro H; injection H as <-; exact Hrec].
    destruct (available_balance env) as [[b|]|]; cbn [fst snd]; try discriminate.
    destruct (Qc_leb order_size b).
    - change (fst (replace_autobay env sorted w1))
        with (eval (replace_autobay env sorted) w1).
      change (snd (replace_autobay env sorted w1))
        with (exec (replace_autobay env sorted) w1).
      unfold replace_autobay. rewrite eval_bind, exec_bind.
      destruct (eval (create_new_order _ _ _) w1) as [created|e];
        [|discriminate].
      run. intro H. injection H as <-. intro Hsave. apply save_book_mirrors.
      unfold unsaved_state in *. unfold save_book in Hsave.
      rewrite save_state_trading_stopped in Hsave. exact Hsave.
    - unfold notify_insufficient_funds, bind, get, ret.
      destruct (insufficient_funds_notified w1); cbn [fst snd];
        intro H; injection H as <-; exact Hrec. }
  split; [exact Hmirror|].
  destruct book' as [a e t].
  apply (load_state_snapshot a e t (trading_stopped w') w' Hmirror).
Qed.

Lemma tick_leaves_file_in_step_witness :
  let book' := mkBook [set_order_type "autobay" cheap_bay] 0%Z 0 in
  let w' := exec (tick drop_tick (mkBook [cheap_bay] 0%Z 0)) (initial_world None) in
  eval (tick drop_tick (mkBook [cheap_bay] 0%Z 0)) (initial_world None) = Return book'
  /\ unsaved_state book' w' = false /\ eval load_state w' = book'.
Proof.
  intros book' w'.
  assert (Hrun : eval (tick drop_tick (mkBook [cheap_bay] 0%Z 0)) (initial_world None)
                 = Return book') by (vm_compute; reflexivity).
  assert (Hsave : unsaved_state book' w' = false) by (vm_compute; reflexivity).
  split; [exact Hrun|]. split; [exact Hsave|].
  exact (proj2 (tick_leaves_file_in_step drop_tick (mkBook [cheap_bay] 0%Z 0) book'
                  (initial_world None) Hrun Hsave)).
Defined.

(** ** The notifications of the initial check *)

Lemma creation_buy_attempts reply attempts :
  keeps (queue_grows_by creation_msg) (buy_attempts reply attempts).
Proof. induction attempts as [|n rest IH]; simpl; keeps_steps grows_prim. Qed.

Lemma creation_sell_attempts reply attempts :
  keeps (queue_grows_by creation_msg) (sell_attempts reply attempts).
Proof. induction attempts as [|n rest IH]; simpl; keeps_steps grows_prim. Qed.

Lemma creation_create_new_order env book role :
  keeps (queue_grows_by creation_msg) (create_new_order env book role).
Proof.
  unfold create_new_order, sell_bought, notify_insufficient_funds,
    create_buy_order, create_sell_order.
  keeps_steps ltac:(first [ apply creation_buy_attempts
                          | apply creation_sell_attempts | grows_prim ]).
Qed.

Lemma queue_save_state a e t : keeps (same notification_queue) (save_state a e t).
Proof. unfold save_state. keeps_steps same_prim. Qed.

(** X29: The notifications of an initial check (at the start of [run_bot] and
    on "start"), in order: the opening message, one message per order
    reported closed, one per order reported canceled, and then either the
    closing message, when some order stays open, or, when none does, what
    the purchase of the new ['autobay'] reports, without any closing
    message. *)
Theorem initial_check_notifications (env : CheckEnv) (book : Book) (w : World) :
  let fetch := fetch_order env in
  let orders := active_orders book in
  let none_open := is_empty (filter (still_open fetch) orders) in
  exists creation,
    notification_queue (exec (check_orders env book true) w)
    = notification_queue w
      ++ [CheckStartedMsg]
      ++ map (fun o => ExecutedMsg o (profit_of o))
             (filter (reported fetch "closed") orders)
      ++ map (fun o => CanceledMsg (id o))
             (filter (reported fetch "canceled") orders)
      ++ creation
      ++ (if none_open then [] else [CheckFinishedMsg])
    /\ forallb creation_msg creation = true
    /\ (none_open = false -> creation = [])
    /\ (trading_stopped w = true -> creation = []).
Proof.
  intros fetch orders none_open. subst fetch orders none_open.
  unfold exec. rewrite check_orders_run.
  set (p := classify (fetch_order env) (active_orders book)).
  assert (Hloop : loop_notifications p true
                  = [CheckStartedMsg]
                    ++ map (fun o => ExecutedMsg o (profit_of o))
                           (filter (reported (fetch_order env) "closed") (active_orders book))
                    ++ map (fun o => CanceledMsg (id o))
                           (filter (reported (fetch_order env) "canceled") (active_orders book))).
  { unfold loop_notifications, p.
    rewrite classify_closed_filter, classify_canceled_filter. reflexivity. }
  rewrite <- (classify_updated_filter (fetch_order env) (active_orders book)). fold p.
  set (w0 := enqueue (loop_notifications p true) w).
  assert (Hq0 : notification_queue w0
                = notification_queue w ++ loop_notifications p true) by reflexivity.
  assert (Hs0 : trading_stopped w0 = trading_stopped w) by reflexivity.
  change (snd (finish_check env (active_orders book) p ?e ?t true w0))
    with (exec (finish_check env (active_orders book) p e t true) w0).
  unfold finish_check. run. rewrite Hs0. cbn [andb].
  destruct (is_empty (updated_orders p)) eqn:Hempty.
  - destruct (trading_stopped w) eqn:Hstopped; cbn [negb].
    + exists []. run. rewrite Hq0, Hloop, <- ?app_assoc. simpl.
      rewrite ?app_nil_r. repeat split; reflexivity.
    + rewrite exec_bind.
      match goal with
      | |- context [exec (create_new_order ?e ?b ?r) w0] =>
          destruct (creation_create_new_order e b r w0) as [more [Hq Hok]];
          destruct (eval (create_new_order e b r) w0)
      end; run;
      exists more; rewrite Hq, Hq0, Hloop, <- ?app_assoc; simpl;
      rewrite ?app_nil_r; repeat split; try assumption; discriminate.
  - exists []. destruct (autobay_needed p); cbn [negb andb]; run;
    change (notification_queue (exec (save_notification CheckFinishedMsg) ?x))
      with (notification_queue x ++ [CheckFinishedMsg]);
    rewrite queue_save_state, Hq0, Hloop, <- ?app_assoc; simpl;
    repeat split; reflexivity.
Qed.

(** ** When the loop goes on *)

Lemma creation_returns (env : CreateEnv) (book : Book) (role : string) (w : World) :
  creation_error env = None ->
  exists created, eval (create_new_order env book role) w = Return created.
Proof.
  unfold creation_error. rewrite create_new_order_eval.
  destruct (creation_of env); [eexists; reflexivity .. | discriminate].
Qed.

Lemma price_drop_returns (env : TickEnv) (book : Book) (w : World) :
  reads_succeed env -> creation_error (on_drop env) = None ->
  exists result, eval (price_drop env book) w = Return result.
Proof.
  intros Hreads Hcreation.
  destruct (price_drop_cases env book w) as [[_ Hrun] | [_ [_ [Hbook _]]]].
  - unfold eval. rewrite Hrun. fold (eval (replace_autobay env book) w).
    rewrite replace_autobay_eval. unfold creation_error in Hcreation.
    destruct (creation_of (on_drop env)); [eexists; reflexivity .. | discriminate].
  - exists book. exact (Hbook Hreads).
Qed.

Lemma tick_returns (env : TickEnv) (book : Book) (w : World) :
  answered env -> exists after, eval (tick env book) w = Return after.
Proof.
  intros [Hreads [Hbuy Hdrop]]. rewrite tick_eval.
  assert (Hcommand : exists commanded,
            eval (handle_command env book) w = Return commanded).
  { rewrite handle_command_eval.
    destruct (command env) as [c|]; [|eexists; reflexivity].
    destruct (String.eqb c "stop"); [eexists; reflexivity|].
    destruct (String.eqb c "start"); [eexists; reflexivity|].
    destruct (String.eqb c "buy") eqn:Ec; [|eexists; reflexivity].
    apply String.eqb_eq in Ec. subst c. rewrite buy_command_eval.
    apply creation_returns, Hbuy. reflexivity. }
  destruct Hcommand as [commanded ->].
  apply price_drop_returns; assumption.
Qed.

(** X30: The loop of [run_bot] goes on for as long as the exchange answers: an
    iteration returns a book whenever the price and the balance are read
    and neither the creation of a "buy" command nor that of a price drop
    raises; whatever [check_orders] meets is caught there.  Conversely an
    iteration whose price read fails ends the loop with that error. *)
Theorem ticks_return_while_exchange_answers (envs : list TickEnv) (book : Book)
    (w : World) :
  Forall answered envs ->
  (exists after, eval (ticks envs book) w = Return after)
  /\ (forall env later e, command env = None -> current_price env = Fails e ->
                          eval (ticks (env :: later) book) w = Raise e).
Proof.
  intro Hall. split.
  - revert book w. induction Hall as [|env rest Henv _ IH]; intros book w.
    + exists book. reflexivity.
    + cbn [ticks]. rewrite eval_bind.
      destruct (tick_returns env book w Henv) as [after ->]. apply IH.
  - intros env later e Hcommand Hprice. cbn [ticks]. rewrite eval_bind, tick_eval.
    rewrite handle_command_eval, Hcommand.
    unfold eval at 2. rewrite price_drop_run, Hprice. reflexivity.
Qed.

Lemma ticks_return_while_exchange_answers_witness :
  Forall answered [drop_tick; broke_tick (Some "buy")]
  /\ exists after,
       eval (ticks [drop_tick; broke_tick (Some "buy")] (mkBook [dear_autobay] 0%Z 0))
            (initial_world None) = Return after.
Proof.
  assert (Hall : Forall answered [drop_tick; broke_tick (Some "buy")]).
  { repeat constructor; try reflexivity;
      eexists; eexists; split; reflexivity. }
  split; [exact Hall|].
  exact (proj1 (ticks_return_while_exchange_answers
                  [drop_tick; broke_tick (Some "buy")] (mkBook [dear_autobay] 0%Z 0)
                  (initial_world None) Hall)).
Defined.
